(** * mercure: the series routing engine (routing/route_series.py)

    A shallow embedding of the routing controller and of the functions it
    drives.  Python code that touches the spool directories, reports to the
    monitor or raises exceptions is written in a state-and-exception monad
    over a [World]: the file system, the telemetry trace and the UUID source.
    Exceptions keep the effects performed before they were raised. *)

From Stdlib Require Import String Ascii List Bool Arith ZArith Lia.
Import ListNotations.
Local Open Scope string_scope.
Local Open Scope list_scope.

Set Implicit Arguments.

(* ===================================================================== *)
(** ** Strings as Python uses them in this module *)
(* ===================================================================== *)

Module PyStr.

(** [s.endswith(suf)] *)
Definition endswith (s suf : string) : bool :=
  Nat.leb (String.length suf) (String.length s) &&
  String.eqb (substring (String.length s - String.length suf) (String.length suf) s) suf.

(** [s.startswith(pre)] *)
Definition startswith (s pre : string) : bool := String.prefix pre s.

(** [s[:-n]] for a positive literal [n] *)
Definition drop_last (n : nat) (s : string) : string :=
  substring 0 (String.length s - n) s.

(** truth value of a string: non-empty *)
Definition truthy (s : string) : bool :=
  match s with EmptyString => false | String _ _ => true end.

(** [str(n)] is only needed for messages; digits of a natural number. *)
Fixpoint digits (fuel n : nat) (acc : string) : string :=
  match fuel with
  | O => acc
  | S fuel' =>
      let d := String (ascii_of_nat (48 + n mod 10)) acc in
      if Nat.ltb n 10 then d else digits fuel' (n / 10) d
  end.
Definition str_of_nat (n : nat) : string := digits (S n) n "".

End PyStr.

(* ===================================================================== *)
(** ** Paths

    The module builds every path by string concatenation ([folder + '/' +
    name]) and hands the string to [os], [shutil] or [pathlib].  The file
    system resolves such a string component by component: repeated and
    trailing slashes do not matter (push_serieslevel_processing passes a
    folder that already ends in '/' to push_files, which appends another
    one).  Relative names are resolved against the working directory, which
    this model takes to be the root. *)
(* ===================================================================== *)

Module Path.

Definition t := list string.

Definition slash : ascii := "/"%char.

(** Components of a path string; [cur] is the component being read. *)
Fixpoint split_aux (s cur : string) : t :=
  match s with
  | EmptyString => if PyStr.truthy cur then [cur] else []
  | String c s' =>
      if Ascii.eqb c slash
      then (if PyStr.truthy cur then cur :: split_aux s' "" else split_aux s' "")
      else split_aux s' (cur ++ String c "")
  end.

Definition split (s : string) : t := split_aux s "".

Definition eqb (p q : t) : bool :=
  if list_eq_dec string_dec p q then true else false.

Definition parent (p : t) : t := removelast p.

Definition name (p : t) : string := last p "".

Definition mem (p : t) (l : list t) : bool := existsb (eqb p) l.

Definition remove (p : t) (l : list t) : list t :=
  filter (fun q => negb (eqb p q)) l.

Definition add (p : t) (l : list t) : list t :=
  if mem p l then l else l ++ [p].

(** A name is a proper path component: non-empty and without a slash. *)
Fixpoint no_slash (s : string) : bool :=
  match s with
  | EmptyString => true
  | String c s' => negb (Ascii.eqb c slash) && no_slash s'
  end.

Definition component (s : string) : bool := PyStr.truthy s && no_slash s.

End Path.

(* ===================================================================== *)
(** ** Telemetry, notifications and the world *)
(* ===================================================================== *)

(** The tag document of a series: the decoded JSON sidecar, a flat mapping
    from tag names to values. *)
Definition TagDoc := list (string * string).

(** [monitor.s_events] as far as this module uses them. *)
Inductive s_events := REGISTERED | ROUTE | DISCARD | MOVE | ERROR.

(** What the module sends to its external collaborators, in order. *)
Inductive Event :=
| send_event (message : string)
    (* monitor.send_event(h_events.PROCESSING, severity.ERROR, message) *)
| send_series_event (kind : s_events) (series_UID : string) (file_count : nat)
                    (target info : string)
| send_register_series (tags : TagDoc)
| send_series_sequence_data (series_UID : string) (data : string)
| send_webhook (url payload : string).
    (* notification.send_webhook(url, payload, mercure_events.RECEPTION) *)

Record World := mkWorld {
  files : list Path.t;      (* regular files, in directory-scan order *)
  dirs : list Path.t;       (* directories other than the root *)
  trace : list Event;       (* oldest first *)
  uuid_count : nat          (* number of uuid.uuid1() calls so far *)
}.

(** Python exceptions met in this module. *)
Inductive exn :=
| IndexError | KeyError | TypeError | UnboundLocalError | OSError | OtherException.

Inductive result (A : Type) :=
| Ok (a : A)
| Raise (e : exn).
Arguments Ok {A} a.
Arguments Raise {A} e.

(** The monad of the embedding. *)
Definition M (A : Type) := World -> result A * World.

Definition ret {A} (a : A) : M A := fun w => (Ok a, w).

Definition bind {A B} (m : M A) (k : A -> M B) : M B :=
  fun w => match m w with
           | (Ok a, w') => k a w'
           | (Raise e, w') => (Raise e, w')
           end.

Definition raise {A} (e : exn) : M A := fun w => (Raise e, w).

(** [try: m  except: ...]: the outcome of [m] as a value. *)
Definition try_ {A} (m : M A) : M (exn + A) :=
  fun w => match m w with
           | (Ok a, w') => (Ok (inr a), w')
           | (Raise e, w') => (Ok (inl e), w')
           end.

Declare Scope py_scope.
Delimit Scope py_scope with py.
Notation "x <- m ;; k" := (bind m (fun x => k))
  (at level 61, m at next level, right associativity) : py_scope.
Notation "m ;; k" := (bind m (fun _ => k))
  (at level 61, right associativity) : py_scope.
Local Open Scope py_scope.

Definition emit (e : Event) : M unit :=
  fun w => (Ok tt, mkWorld (files w) (dirs w) (trace w ++ [e]) (uuid_count w)).

Definition set_fs (fs ds : list Path.t) : M unit :=
  fun w => (Ok tt, mkWorld fs ds (trace w) (uuid_count w)).

Definition get_world : M World := fun w => (Ok w, w).

(* ===================================================================== *)
(** ** The file system operations the module calls *)
(* ===================================================================== *)

Module FS.

Definition is_file (w : World) (p : Path.t) : bool := Path.mem p (files w).
Definition is_dir (w : World) (p : Path.t) : bool :=
  match p with [] => true | _ => Path.mem p (dirs w) end.
Definition present (w : World) (p : Path.t) : bool := is_file w p || is_dir w p.

(** [Path(s).exists()] and [os.path.exists(s)] *)
Definition exists_ (s : string) : M bool :=
  w <- get_world ;; ret (present w (Path.split s)).

(** [os.mkdir(s)]: the name must be free and the parent a directory. *)
Definition mkdir (s : string) : M unit :=
  w <- get_world ;;
  let p := Path.split s in
  if present w p || negb (is_dir w (Path.parent p)) then raise OSError
  else set_fs (files w) (dirs w ++ [p]).

(** Creating a regular file ([Path.touch], [open(s, 'w')]): the parent
    must be a directory and the name must not be one. *)
Definition create (s : string) : M unit :=
  w <- get_world ;;
  let p := Path.split s in
  if is_dir w p || negb (is_dir w (Path.parent p)) then raise OSError
  else set_fs (Path.add p (files w)) (dirs w).

(** [os.remove(s)] *)
Definition remove (s : string) : M unit :=
  w <- get_world ;;
  let p := Path.split s in
  if is_file w p then set_fs (Path.remove p (files w)) (dirs w)
  else raise OSError.

(** [shutil.copy(src, dst)] between regular files: [src] must be a
    regular file, [dst] must not name a directory and must lie in one.
    Two cases of shutil.copy are not represented: a copy of a file onto
    itself, which shutil refuses (here it succeeds), and a destination
    that names a directory, into which shutil copies (here the call
    fails).  The statements about successful copies exclude both. *)
Definition copy (src dst : string) : M unit :=
  w <- get_world ;;
  let p := Path.split src in
  let q := Path.split dst in
  if negb (is_file w p) || is_dir w q || negb (is_dir w (Path.parent q))
  then raise OSError
  else set_fs (Path.add q (files w)) (dirs w).

(** [shutil.move(src, dst)] between regular files.  Two cases of
    shutil.move are not represented: a source that is a directory, which
    shutil renames, and a destination that names a directory, into which
    shutil moves; here the call fails in both.  The statements about moves
    are about regular files, or hold whatever the call does. *)
Definition move (src dst : string) : M unit :=
  w <- get_world ;;
  let p := Path.split src in
  let q := Path.split dst in
  if negb (is_file w p) || is_dir w q || negb (is_dir w (Path.parent q))
  then raise OSError
  else set_fs (Path.add q (Path.remove p (files w))) (dirs w).

(** [os.scandir(s)]: the entries directly inside [s] as pairs of
    [entry.name] and [entry.is_dir()].  os.scandir yields them in no
    particular order; [scandir] lists the files in front of the
    directories, each in the order of the world. *)
Definition children (d : Path.t) (isdir : bool) (l : list Path.t)
  : list (string * bool) :=
  map (fun p => (Path.name p, isdir))
      (filter (fun p => match p with
                        | [] => false
                        | _ => Path.eqb (Path.parent p) d
                        end) l).

Definition scandir (s : string) : M (list (string * bool)) :=
  w <- get_world ;;
  let d := Path.split s in
  if is_dir w d
  then ret (children d false (files w) ++ children d true (dirs w))
  else raise OSError.

End FS.

Local Open Scope string_scope.

(* ===================================================================== *)
(** ** Configuration and constants *)
(* ===================================================================== *)

(** Modelled from the spec: the constants of common.constants, which is not
    part of the sources at hand.  Their values are the literal names of the
    spec (sections 3 and 6); the source fixes the lengths of [TAGS] and
    [ERROR] by its slices [entry.name[:-5]] and [entry.name[:-6]]. *)
Module mercure_names.
Definition LOCK := ".lock".
Definition TAGS := ".tags".
Definition DCM := ".dcm".
Definition ERROR := ".error".
Definition TASKFILE := "task.json".
End mercure_names.

Module mercure_defs.
Definition SEPARATOR := "#".
End mercure_defs.

Module mercure_actions.
Definition ROUTE := "route".
Definition PROCESS := "process".
Definition BOTH := "both".
Definition NOTIFICATION := "notification".
Definition DISCARD := "discard".
End mercure_actions.

Module mercure_options.
Definition SERIES := "series".
Definition STUDY := "study".
End mercure_options.

(** A rule of the configuration: a JSON object of which the module reads
    these fields with [.get(field, default)]; the fields carry the names of
    the keys in mercure_rule. *)
Record Rule := mkRule {
  DISABLED : option string;
  RULE : option string;
  ACTION : option string;
  ACTION_TRIGGER : option string;
  TARGET : option string;
  NOTIFICATION_WEBHOOK : option string;
  NOTIFICATION_PAYLOAD : option string
}.

(** [d.get(field, default)] *)
Definition get (field : option string) (default : string) : string :=
  match field with Some v => v | None => default end.

(** [config.mercure]: the folders, the rules in configuration order and the
    keys of the targets table. *)
Record Config := mkConfig {
  INCOMING : string;
  OUTGOING : string;
  PROCESSING : string;
  DISCARD_FOLDER : string;
  ERROR_FOLDER : string;
  rules : list (string * Rule);
  targets : list string
}.

(** The collaborators whose results the module only consumes. *)
Record Externals := mkExternals {
  (** rule_evaluation.parse_rule(expression, tags); [None] when it raises *)
  parse_rule : string -> TagDoc -> option bool;
  (** json.load of the file at a path; [None] when decoding fails *)
  json_load : Path.t -> option TagDoc;
  (** parse_ascconv on the payload at a path; [None] when a marker is
      missing or a line does not parse.  Its result is only forwarded to
      the monitor and every failure is swallowed by route_series. *)
  ascconv : Path.t -> option string;
  (** the k-th value of uuid.uuid1(), as a string *)
  uuid_of : nat -> string
}.

(** Python dictionaries keep insertion order; [d[k] = v]. *)
Fixpoint dict_set {V} (k : string) (v : V) (d : list (string * V)) : list (string * V) :=
  match d with
  | [] => [(k, v)]
  | (k', v') :: d' =>
      if String.eqb k k' then (k, v) :: d' else (k', v') :: dict_set k v d'
  end.

(** [d[k]] *)
Fixpoint dict_get {V} (k : string) (d : list (string * V)) : option V :=
  match d with
  | [] => None
  | (k', v) :: d' => if String.eqb k k' then Some v else dict_get k d'
  end.

(** [k in d] *)
Definition dict_mem {V} (k : string) (d : list (string * V)) : bool :=
  match dict_get k d with Some _ => true | None => false end.

(** [triggered_rules[r] = r]: a dictionary whose values are its keys is
    kept as the list of its keys. *)
Fixpoint keys_add (k : string) (d : list string) : list string :=
  match d with
  | [] => [k]
  | k' :: d' => if String.eqb k k' then d else k' :: keys_add k d'
  end.

(** [a / b] where both operands are of type [str]: [str] implements neither
    [__truediv__] nor [__rtruediv__]. *)
Definition str_truediv (a b : string) : M string := raise TypeError.

(** [d == n] for a dictionary [d] and an integer [n]. *)
Definition dict_eq_int {A} (d : list A) (n : nat) : bool := false.

(** [len(b)] for a boolean [b]: [bool] has no [__len__]. *)
Definition len_bool (b : bool) : M nat := raise TypeError.

(** [l[0]] *)
Definition index0 {A} (l : list A) : M A :=
  match l with
  | [] => raise IndexError
  | a :: _ => ret a
  end.

(** Modelled from the spec: helper.FileLock, which is not part of the sources
    at hand (spec 4.A and section 9).  Acquisition creates the lock file and
    fails when the file exists or cannot be created; [free] removes it; the
    holder's destructor removes a file that is still there when the holder's
    scope is left, on every exit path, and its own failure is ignored. *)
Module FileLock.

Definition acquire (lock_file : string) : M string :=
  ex <- FS.exists_ lock_file ;;
  if ex then raise OSError else (FS.create lock_file ;; ret lock_file).

Definition free (lock : string) : M unit := FS.remove lock.

Definition scope {A} (lock : string) (body : M A) : M A :=
  fun w => match body w with
           | (r, w') =>
               (r, mkWorld (Path.remove (Path.split lock) (files w'))
                           (dirs w') (trace w') (uuid_count w'))
           end.

End FileLock.

(** The world after further telemetry has been sent. *)
Definition with_trace (w : World) (evs : list Event) : World :=
  mkWorld (files w) (dirs w) (trace w ++ evs)%list (uuid_count w).

(* ===================================================================== *)
(** ** A concrete installation, for the examples

    The folders of a small installation, one configured target [X], a rule
    evaluator that understands three expressions, and a spool holding the
    two slices [S#a] and [S#b] of series [S]. *)
(* ===================================================================== *)

Module Scenario.

Definition rule_with (expression action : string)
           (trigger tgt : option string) : Rule :=
  mkRule None (Some expression) (Some action) trigger tgt
         (Some "http://hook") (Some "received").

Definition installation (rs : list (string * Rule)) : Config :=
  mkConfig "/data/incoming" "/data/outgoing" "/data/processing"
           "/data/discard" "/data/error" rs ["X"].

Definition collaborators : Externals :=
  mkExternals
    (fun expression _ =>
       if String.eqb expression "True" then Some true
       else if String.eqb expression "False" then Some false
       else None)
    (fun _ => Some [("StudyInstanceUID", "Y")])
    (fun _ => None)
    (fun k => "uuid-" ++ PyStr.str_of_nat k).

Definition folders : list Path.t :=
  [ ["data"]; ["data"; "incoming"]; ["data"; "outgoing"];
    ["data"; "processing"]; ["data"; "discard"]; ["data"; "error"] ]%list.

Definition spool : World :=
  mkWorld [ ["data"; "incoming"; "S#a.dcm"]; ["data"; "incoming"; "S#a.tags"];
            ["data"; "incoming"; "S#b.dcm"]; ["data"; "incoming"; "S#b.tags"] ]%list
          folders [] 0.

(** The spool with a payload that failed to parse and its marker. *)
Definition spool_with_error : World :=
  mkWorld [ ["data"; "incoming"; "T#a.dcm"];
            ["data"; "incoming"; "T#a.dcm.error"] ]%list
          folders [] 0.

(** The tag document of the series, as the sidecars hold it. *)
Definition tags : TagDoc := [("StudyInstanceUID", "Y")]%list.

(** The spool when the payload of the first slice never arrived, and a
    staging folder somebody has prepared. *)
Definition spool_missing_payload : World :=
  mkWorld [ ["data"; "incoming"; "S#a.tags"];
            ["data"; "incoming"; "S#b.dcm"]; ["data"; "incoming"; "S#b.tags"] ]%list
          (folders ++ [ ["data"; "processing"; "stage"] ])%list [] 0.

(** An installation without an outgoing folder. *)
Definition spool_without_outgoing : World :=
  mkWorld (files spool)
          [ ["data"]; ["data"; "incoming"]; ["data"; "processing"];
            ["data"; "discard"]; ["data"; "error"] ]%list [] 0.

(** Rule tables. *)
Definition notify_only : list (string * Rule) :=
  [ ("N", rule_with "True" "notification" None None) ]%list.

Definition study_rule : list (string * Rule) :=
  [ ("R", rule_with "True" "route" (Some "study") (Some "X")) ]%list.

Definition two_processing_rules : list (string * Rule) :=
  [ ("P1", rule_with "True" "process" None None);
    ("P2", rule_with "True" "both" (Some "series") None) ]%list.

Definition mixed_rules : list (string * Rule) :=
  [ ("A", mkRule (Some "True") (Some "True") (Some "route") None (Some "X") None None);
    ("B", rule_with "broken" "route" None (Some "X"));
    ("C", rule_with "True" "process" None None);
    ("D", rule_with "True" "discard" None None);
    ("E", rule_with "True" "route" None (Some "X"));
    ("F", rule_with "broken" "route" None (Some "X")) ]%list.

Definition route_rules : list (string * Rule) :=
  [ ("R1", rule_with "True" "route" None None);
    ("R2", rule_with "True" "route" None (Some "Z"));
    ("R3", rule_with "True" "process" None None) ]%list.

End Scenario.

(* ===================================================================== *)
(** ** The vendor header of a payload: get_ascconv and parse_ascconv

    get_ascconv maps the payload into memory and cuts out the text between
    the line of the BEGIN marker and the END marker; parse_ascconv turns
    its lines into a nested dictionary.  The payload is the byte string
    [content]; a position in the mapping is a natural number, the result
    of [find] and the argument of [read] are Python integers. *)
(* ===================================================================== *)

Module Ascconv.

(** The exceptions these two functions raise. *)
Inductive error :=
| EmptyFile      (* ValueError: mmap.mmap of an empty file *)
| NoMarker       (* Exception(): a marker is not in the file *)
| NotAscii       (* UnicodeDecodeError from decode('ascii') *)
| Unpack         (* ValueError: key, value = ... with other than two parts *)
| NotADict.      (* TypeError: a value that is no dictionary is indexed *)

Definition BEGIN := "### ASCCONV BEGIN".
Definition END := "### ASCCONV END".

Definition LF : ascii := "010"%char.
Definition CR : ascii := "013"%char.
Definition TAB : ascii := "009"%char.
Definition DQUOTE : ascii := "034"%char.

(** The mapping from a position to its end. *)
Definition rest_from (mm : string) (pos : nat) : string :=
  substring pos (String.length mm - pos) mm.

(** [mm.find(sub)]: the lowest index at or behind the current position at
    which [sub] occurs, or -1. *)
Definition find (mm sub : string) (pos : nat) : Z :=
  match String.index pos sub mm with
  | Some i => Z.of_nat i
  | None => (-1)%Z
  end.

(** The first line of a byte string, with its newline if there is one. *)
Fixpoint line_at (s : string) : string :=
  match s with
  | EmptyString => EmptyString
  | String c s' => if Ascii.eqb c LF then String c EmptyString else String c (line_at s')
  end.

(** [mm.readline()]: the bytes it returns; the position advances by their
    number. *)
Definition readline (mm : string) (pos : nat) : string := line_at (rest_from mm pos).

(** [mm.read(n)]: up to [n] bytes from the current position; everything up
    to the end of the mapping when [n] is negative. *)
Definition read (mm : string) (pos : nat) (n : Z) : string :=
  if (n <? 0)%Z then rest_from mm pos else substring pos (Z.to_nat n) mm.

Fixpoint all_ascii (b : string) : bool :=
  match b with
  | EmptyString => true
  | String c b' => Nat.ltb (nat_of_ascii c) 128 && all_ascii b'
  end.

(** [b.decode('ascii')] *)
Definition decode_ascii (b : string) : error + string :=
  if all_ascii b then inr b else inl NotAscii.

Definition get_ascconv (content : string) : error + string :=
  match content with
  | EmptyString => inl EmptyFile
  | _ =>
      let begin_ := find content BEGIN 0 in
      if (begin_ <? 0)%Z then inl NoMarker
      else
        let end_ := find content END 0 in
        if (end_ <? 0)%Z then inl NoMarker
        else
          let pos := Z.to_nat begin_ in
          let pos := pos + String.length (readline content pos) in
          decode_ascii (read content pos (end_ - Z.of_nat pos))
  end.

(** *** The pieces of a line *)

(** The separator ['\t = \t']. *)
Definition SEP : string :=
  String TAB (String " " (String "=" (String " " (String TAB EmptyString)))).

(** [key, value = line.split(SEP)]: the unpacking needs exactly two parts,
    that is exactly one occurrence of the separator. *)
Definition unpack2 (line : string) : error + (string * string) :=
  match String.index 0 SEP line with
  | None => inl Unpack
  | Some i =>
      let rest := rest_from line (i + String.length SEP) in
      match String.index 0 SEP rest with
      | None => inr (substring 0 i line, rest)
      | Some _ => inl Unpack
      end
  end.

(** [key.split('.')]; [cur] is the part being read. *)
Fixpoint split_dot (s cur : string) : list string :=
  match s with
  | EmptyString => [cur]
  | String c s' =>
      if Ascii.eqb c "."%char then cur :: split_dot s' EmptyString
      else split_dot s' (cur ++ String c EmptyString)
  end.

(** [value.replace(two double quotes, one double quote)] *)
Fixpoint unquote (s : string) : string :=
  match s with
  | EmptyString => EmptyString
  | String a s' =>
      match s' with
      | EmptyString => String a EmptyString
      | String b rest =>
          if Ascii.eqb a DQUOTE && Ascii.eqb b DQUOTE
          then String DQUOTE (unquote rest)
          else String a (unquote s')
      end
  end.

(** The line boundaries of [str.splitlines] among the code points below
    256. *)
Definition is_linebreak (c : ascii) : bool :=
  match nat_of_ascii c with
  | 10 | 11 | 12 | 13 | 28 | 29 | 30 | 133 => true
  | _ => false
  end.

(** [params.splitlines()]: a carriage return followed by a line feed is one
    boundary; there is no empty last line. *)
Fixpoint splitlines_aux (s cur : string) : list string :=
  match s with
  | EmptyString => if PyStr.truthy cur then [cur] else []
  | String c s' =>
      if is_linebreak c
      then match s' with
           | String c' s'' =>
               if Ascii.eqb c CR && Ascii.eqb c' LF
               then cur :: splitlines_aux s'' EmptyString
               else cur :: splitlines_aux s' EmptyString
           | EmptyString => [cur]
           end
      else splitlines_aux s' (cur ++ String c EmptyString)
  end.

Definition splitlines (s : string) : list string := splitlines_aux s EmptyString.

(** *** The dictionary *)

Section Values.

(** The Python objects other than strings and dictionaries that
    [ast.literal_eval] can return: numbers, tuples, lists and so on. *)
Variable atom : Type.

(** A key of a dictionary: the parser only ever looks up and stores
    strings; a dictionary written as a literal may have other keys. *)
Inductive key :=
| KStr (s : string)
| KObj (a : atom).

#[warnings="-register-all"]
Inductive value :=
| VStr (s : string)
| VObj (a : atom)
| VDict (items : list (key * value)).

Definition dict := list (key * value).

Definition is_key (k : string) (k' : key) : bool :=
  match k' with
  | KStr s => String.eqb k s
  | KObj _ => false
  end.

(** [d[k]], and [k in d] as [lookup k d <> None] *)
Fixpoint lookup (k : string) (d : dict) : option value :=
  match d with
  | [] => None
  | (k', v) :: d' => if is_key k k' then Some v else lookup k d'
  end.

(** [d[k] = v]: a present key keeps its place, a new one goes last. *)
Fixpoint store (k : string) (v : value) (d : dict) : dict :=
  match d with
  | [] => [(KStr k, v)]
  | (k', v') :: d' =>
      if is_key k k' then (k', v) :: d' else (k', v') :: store k v d'
  end.

(** The dive along [keys[:-1]] and the assignment [cur_dict[keys[-1]] =
    value], on the dictionary [cur_dict].  A missing key gets an empty
    dictionary; a value that is no dictionary raises TypeError when the
    next step tests, indexes or assigns into it. *)
Fixpoint assign (keys : list string) (last_key : string) (v : value)
         (cur_dict : dict) : error + dict :=
  match keys with
  | [] => inr (store last_key v cur_dict)
  | val :: keys' =>
      match lookup val cur_dict with
      | None =>
          match assign keys' last_key v [] with
          | inr sub => inr (store val (VDict sub) cur_dict)
          | inl e => inl e
          end
      | Some (VDict sub) =>
          match assign keys' last_key v sub with
          | inr sub' => inr (store val (VDict sub') cur_dict)
          | inl e => inl e
          end
      | Some _ => inl NotADict
      end
  end.

(** [ast.literal_eval]; [None] when it raises. *)
Variable literal_eval : string -> option value.

(** One pass of the loop over the lines. *)
Definition parse_line (data_dict : dict) (line : string) : error + dict :=
  match unpack2 line with
  | inl e => inl e
  | inr (key, value) =>
      let keys := split_dot key EmptyString in
      let value := unquote value in
      let value := match literal_eval value with
                   | Some v => v
                   | None => VStr value
                   end in
      assign (removelast keys) (last keys EmptyString) value data_dict
  end.

Fixpoint parse_lines (lines : list string) (data_dict : dict) : error + dict :=
  match lines with
  | [] => inr data_dict
  | line :: rest =>
      match parse_line data_dict line with
      | inl e => inl e
      | inr data_dict' => parse_lines rest data_dict'
      end
  end.

(** parse_ascconv on the bytes of the payload. *)
Definition parse_ascconv (content : string) : error + dict :=
  match get_ascconv content with
  | inl e => inl e
  | inr params => parse_lines (splitlines params) []
  end.

(** *** Reading the result *)

(** The value at a path of keys. *)
Fixpoint lookup_path (path : list string) (d : dict) : option value :=
  match path with
  | [] => None
  | [k] => lookup k d
  | k :: path' =>
      match lookup k d with
      | Some (VDict sub) => lookup_path path' sub
      | _ => None
      end
  end.

Definition is_dict (v : value) : bool :=
  match v with
  | VDict _ => true
  | _ => false
  end.

End Values.

Arguments VStr {atom} s.

(** [sub] occurs in [s] at position [p]. *)
Definition occurs_at (sub s : string) (p : nat) : Prop :=
  substring p (String.length sub) s = sub.

Fixpoint no_newline (s : string) : bool :=
  match s with
  | EmptyString => true
  | String c s' => negb (Ascii.eqb c LF) && no_newline s'
  end.

End Ascconv.

(* ===================================================================== *)
(** ** Further states of the installation, for the examples *)
(* ===================================================================== *)

Module Cases.

(** The spool with a staging folder somebody has prepared. *)
Definition spool_with_stage : World :=
  mkWorld (files Scenario.spool)
          (Scenario.folders ++ [ ["data"; "processing"; "stage"] ])%list [] 0.

(** The spool when the tag file of the first slice has gone. *)
Definition spool_missing_sidecar : World :=
  mkWorld [ ["data"; "incoming"; "S#a.dcm"];
            ["data"; "incoming"; "S#b.dcm"]; ["data"; "incoming"; "S#b.tags"] ]%list
          Scenario.folders [] 0.



(** Rule tables: a route rule whose target is configured, alone and behind
    a route rule whose target is not. *)
Definition route_to_known : list (string * Rule) :=
  [ ("R", Scenario.rule_with "True" "route" None (Some "X")) ]%list.

Definition route_unknown_then_known : list (string * Rule) :=
  [ ("RZ", Scenario.rule_with "True" "route" None (Some "Z"));
    ("RX", Scenario.rule_with "True" "route" None (Some "X")) ]%list.



(** Collaborators for which no tag file can be decoded. *)
Definition unreadable : Externals :=
  mkExternals (parse_rule Scenario.collaborators)
              (fun _ => None)
              (ascconv Scenario.collaborators)
              (uuid_of Scenario.collaborators).

(** A payload with a vendor header of two lines. *)
Definition payload : string :=
  "DICM" ++ Ascconv.BEGIN ++ " ###" ++ String Ascconv.LF
    ("a.b" ++ Ascconv.SEP ++ "1" ++ String Ascconv.LF
       ("c" ++ Ascconv.SEP ++ "x" ++ String Ascconv.LF
          (Ascconv.END ++ " ###" ++ String Ascconv.LF "pixels"))).

(** The text between its markers. *)
Definition header : string :=
  "a.b" ++ Ascconv.SEP ++ "1" ++ String Ascconv.LF
    ("c" ++ Ascconv.SEP ++ "x" ++ String Ascconv.LF "").

(** A payload in which the END marker comes before the BEGIN marker. *)
Definition payload_reversed : string :=
  Ascconv.END ++ String Ascconv.LF
    (Ascconv.BEGIN ++ String Ascconv.LF "rest").

(** A payload whose header holds a blank line. *)
Definition payload_blank_line : string :=
  Ascconv.BEGIN ++ String Ascconv.LF
    ("a" ++ Ascconv.SEP ++ "1" ++ String Ascconv.LF
       (String Ascconv.LF (Ascconv.END ++ ""))).

(** An evaluator of literals that knows the numeral 1. *)
Definition eval_one (s : string) : option (Ascconv.value nat) :=
  if String.eqb s "1" then Some (Ascconv.VObj 1) else None.

End Cases.

(* ===================================================================== *)
(** ** The functions of routing/route_series.py *)
(* ===================================================================== *)

Section RouteSeries.

Variable config : Config.
Variable ext : Externals.

(** [config.mercure["rules"][current_rule]] *)
Definition rules_get (current_rule : string) : M Rule :=
  match dict_get current_rule (rules config) with
  | Some r => ret r
  | None => raise KeyError
  end.

(** [str(uuid.uuid1())] *)
Definition uuid1 : M string :=
  fun w => (Ok (uuid_of ext (uuid_count w)),
            mkWorld (files w) (dirs w) (trace w) (S (uuid_count w))).

(** Modelled from the spec: the task-file writers of
    routing.generate_taskfile, which is not part of the sources at hand
    (spec 4.D step 4): they write the descriptor [task.json] into the
    staging folder and report a failure to do so. *)
Definition write_task (task_filename : string) : M bool :=
  r <- try_ (FS.create task_filename) ;;
  match r with
  | inl _ =>
      emit (send_event ("Unable to create task file " ++ task_filename)) ;;
      ret false
  | inr _ => ret true
  end.

Definition create_study_task (folder_name current_rule study_UID : string)
           (tags_list : TagDoc) : M bool :=
  write_task (folder_name ++ "/" ++ mercure_names.TASKFILE).

Definition create_series_task_processing (target_folder current_rule series_UID : string)
           (tags_list : TagDoc) : M bool :=
  write_task (target_folder ++ mercure_names.TASKFILE).

(** The body of the [try] block shared by the transfer loops: the payload
    first, then the tag sidecar. *)
Definition transfer_pair (operation : string -> string -> M unit)
           (source_folder target_folder entry : string) : M unit :=
  operation (source_folder ++ entry ++ mercure_names.DCM)
            (target_folder ++ entry ++ mercure_names.DCM) ;;
  operation (source_folder ++ entry ++ mercure_names.TAGS)
            (target_folder ++ entry ++ mercure_names.TAGS).

(** *** push_files *)

Fixpoint push_files_loop (operation : string -> string -> M unit)
         (source_folder target_folder : string) (file_list : list string) : M bool :=
  match file_list with
  | [] => ret true
  | entry :: rest =>
      r <- try_ (transfer_pair operation source_folder target_folder entry) ;;
      match r with
      | inl _ =>
          emit (send_event ("Problem while pushing file to outgoing " ++ entry)) ;;
          ret false
      | inr _ => push_files_loop operation source_folder target_folder rest
      end
  end.

Definition push_files (file_list : list string) (target_path : string)
           (copy_files : bool) : M bool :=
  let operation := if negb copy_files then FS.move else FS.copy in
  let source_folder := INCOMING config ++ "/" in
  let target_folder := target_path ++ "/" in
  push_files_loop operation source_folder target_folder file_list.

(** *** remove_series *)

Fixpoint remove_series (file_list : list string) : M unit :=
  match file_list with
  | [] => ret tt
  | entry :: rest =>
      let source_folder := INCOMING config ++ "/" in
      r <- try_ (FS.remove (source_folder ++ entry ++ mercure_names.TAGS) ;;
                 FS.remove (source_folder ++ entry ++ mercure_names.DCM)) ;;
      match r with
      | inl _ => emit (send_event ("Error while removing file " ++ entry))
      | inr _ => ret tt
      end ;;
      remove_series rest
  end.

(** *** get_triggered_rules *)

Fixpoint get_triggered_rules_loop (names : list string) (tagList : TagDoc)
         (triggered_rules : list string) : M (list string * string) :=
  match names with
  | [] => ret (triggered_rules, "")
  | current_rule :: rest =>
      match dict_get current_rule (rules config) with
      | None =>
          emit (send_event ("Invalid rule: " ++ current_rule)) ;;
          get_triggered_rules_loop rest tagList triggered_rules
      | Some r =>
          if String.eqb (get (DISABLED r) "False") "True"
          then get_triggered_rules_loop rest tagList triggered_rules
          else
            match parse_rule ext (get (RULE r) "False") tagList with
            | None =>
                emit (send_event ("Invalid rule: " ++ current_rule)) ;;
                get_triggered_rules_loop rest tagList triggered_rules
            | Some false => get_triggered_rules_loop rest tagList triggered_rules
            | Some true =>
                let triggered_rules' := keys_add current_rule triggered_rules in
                if String.eqb (get (ACTION r) "") mercure_actions.DISCARD
                then ret (triggered_rules', current_rule)
                else get_triggered_rules_loop rest tagList triggered_rules'
            end
      end
  end.

Definition get_triggered_rules (tagList : TagDoc) : M (list string * string) :=
  get_triggered_rules_loop (map fst (rules config)) tagList [].

(** *** push_series_discard *)

Fixpoint discard_loop (source_folder discard_folder : string)
         (fileList : list string) : M unit :=
  match fileList with
  | [] => ret tt
  | entry :: rest =>
      r <- try_ (transfer_pair FS.move source_folder discard_folder entry) ;;
      match r with
      | inl _ => emit (send_event ("Problem during discarding file " ++ entry))
      | inr _ => ret tt
      end ;;
      discard_loop source_folder discard_folder rest
  end.

Definition push_series_discard (fileList : list string)
           (series_UID discard_series : string) : M unit :=
  u <- uuid1 ;;
  let discard_path := DISCARD_FOLDER config ++ "/" ++ u in
  let discard_folder := discard_path ++ "/" in
  let source_folder := INCOMING config ++ "/" in
  r <- try_ (FS.mkdir discard_path) ;;
  match r with
  | inl _ => emit (send_event ("Unable to create discard folder " ++ discard_path))
  | inr _ =>
      ex <- FS.exists_ discard_path ;;
      if negb ex
      then emit (send_event ("Creating discard folder not possible " ++ discard_path))
      else
        let lock_file := discard_path ++ "/" ++ mercure_names.LOCK in
        r <- try_ (FileLock.acquire lock_file) ;;
        match r with
        | inl _ =>
            emit (send_event ("Unable to create lock file in discard folder "
                                ++ discard_path ++ "/" ++ mercure_names.LOCK))
        | inr lock =>
            FileLock.scope lock (
              let info_text :=
                if PyStr.truthy discard_series
                then "Discard by rule " ++ discard_series else "" in
              emit (send_series_event DISCARD series_UID (length fileList) "" info_text) ;;
              discard_loop source_folder discard_folder fileList ;;
              emit (send_series_event MOVE series_UID (length fileList) discard_path "") ;;
              r <- try_ (FileLock.free lock) ;;
              match r with
              | inl _ => emit (send_event ("Unable to remove lock file " ++ lock_file))
              | inr _ => ret tt
              end)
        end
  end.

(** *** push_series_studylevel

    [lock_file] is the local variable of that name: it is only bound once
    its assignment in the [try] block has been executed, and the handler
    of that block formats it into its message. *)

Fixpoint studylevel_loop (rules_left triggered_rules file_list : list string)
         (series_UID : string) (tags_list : TagDoc)
         (lock_file : option string) : M unit :=
  match rules_left with
  | [] => ret tt
  | current_rule :: rest =>
      r <- rules_get current_rule ;;
      if String.eqb (get (ACTION_TRIGGER r) mercure_options.SERIES) mercure_options.STUDY
      then
        study_UID <- match dict_get "StudyInstanceUID" tags_list with
                     | Some v => ret v
                     | None => raise KeyError
                     end ;;
        let folder_name := study_UID ++ mercure_defs.SEPARATOR ++ current_rule in
        ex <- FS.exists_ folder_name ;;
        made <- (if negb ex
                 then r <- try_ (FS.mkdir folder_name) ;;
                      match r with
                      | inl _ =>
                          emit (send_event ("Unable to create folder " ++ folder_name)) ;;
                          ret None
                      | inr _ => ret (Some true)
                      end
                 else ret (Some false)) ;;
        match made with
        | None => studylevel_loop rest triggered_rules file_list series_UID tags_list lock_file
        | Some first_series =>
            let lock_failed (lock_file : option string) :=
              match lock_file with
              | None => raise UnboundLocalError
              | Some lf =>
                  emit (send_event ("Unable to create lock file " ++ lf)) ;;
                  studylevel_loop rest triggered_rules file_list series_UID tags_list
                                  lock_file
              end in
            r1 <- try_ (str_truediv folder_name mercure_names.LOCK) ;;
            match r1 with
            | inl _ => lock_failed lock_file
            | inr lf =>
                r2 <- try_ (FileLock.acquire lf) ;;
                match r2 with
                | inl _ => lock_failed (Some lf)
                | inr lock =>
                    FileLock.scope lock (
                      (if first_series
                       then create_study_task folder_name current_rule study_UID tags_list
                       else ret true) ;;
                      push_files file_list folder_name
                                 (Nat.ltb 1 (length triggered_rules)) ;;
                      FileLock.free lock) ;;
                    studylevel_loop rest triggered_rules file_list series_UID tags_list
                                    (Some lf)
                end
            end
        end
      else studylevel_loop rest triggered_rules file_list series_UID tags_list lock_file
  end.

Definition push_series_studylevel (triggered_rules file_list : list string)
           (series_UID : string) (tags_list : TagDoc) : M unit :=
  studylevel_loop triggered_rules triggered_rules file_list series_UID tags_list None.

(** *** trigger_serieslevel_notification_reception *)

Definition trigger_serieslevel_notification_reception (current_rule : string)
           (tags_list : TagDoc) : M unit :=
  r1 <- rules_get current_rule ;;
  r2 <- rules_get current_rule ;;
  emit (send_webhook (get (NOTIFICATION_WEBHOOK r1) "")
                     (get (NOTIFICATION_PAYLOAD r2) "")).

(** *** push_serieslevel_outgoing

    One pass of the loop body yields [true] to go on with the next target
    ([continue] or the end of the body) and [false] for [return]. *)

Fixpoint outgoing_files_loop (operation : string -> string -> M unit)
         (source_folder target_folder : string) (file_list : list string) : M unit :=
  match file_list with
  | [] => ret tt
  | entry :: rest =>
      r <- try_ (transfer_pair operation source_folder target_folder entry) ;;
      match r with
      | inl _ => emit (send_event ("Problem while pushing file to outgoing " ++ entry))
      | inr _ => ret tt
      end ;;
      outgoing_files_loop operation source_folder target_folder rest
  end.

Fixpoint outgoing_loop (targets_left : list (string * string))
         (move_operation : bool) (file_list : list string)
         (series_UID : string) (tags_list : TagDoc)
         (lock_file : option string) : M unit :=
  match targets_left with
  | [] => ret tt
  | (target, selecting_rule) :: rest =>
      let source_folder := INCOMING config ++ "/" in
      if negb (existsb (String.eqb target) (targets config))
      then
        emit (send_event ("Invalid target selected " ++ target)) ;;
        outgoing_loop rest move_operation file_list series_UID tags_list lock_file
      else
        u <- uuid1 ;;
        let folder_name := OUTGOING config ++ "/" ++ u in
        let target_folder := folder_name ++ "/" in
        r <- try_ (FS.mkdir folder_name) ;;
        match r with
        | inl _ => emit (send_event ("Unable to create outgoing folder " ++ folder_name))
        | inr _ =>
            ex <- FS.exists_ folder_name ;;
            if negb ex
            then emit (send_event ("Creating folder not possible " ++ folder_name))
            else
              let lock_failed (lock_file : option string) :=
                match lock_file with
                | None => raise UnboundLocalError
                | Some lf => emit (send_event ("Unable to create lock file " ++ lf))
                end in
              r1 <- try_ (str_truediv folder_name mercure_names.LOCK) ;;
              match r1 with
              | inl _ => lock_failed lock_file
              | inr lf =>
                  r2 <- try_ (FileLock.acquire lf) ;;
                  match r2 with
                  | inl _ => lock_failed (Some lf)
                  | inr lock =>
                      go_on <- FileLock.scope lock (
                        let task_filename := target_folder ++ mercure_names.TASKFILE in
                        r <- try_ (FS.create task_filename) ;;
                        match r with
                        | inl _ =>
                            emit (send_event ("Unable to create task file " ++ task_filename)) ;;
                            ret true
                        | inr _ =>
                            emit (send_series_event ROUTE series_UID (length file_list)
                                                    target selecting_rule) ;;
                            let operation := if move_operation then FS.move else FS.copy in
                            outgoing_files_loop operation source_folder target_folder
                                                file_list ;;
                            emit (send_series_event MOVE series_UID (length file_list)
                                                    folder_name "") ;;
                            r <- try_ (FileLock.free lock) ;;
                            match r with
                            | inl _ =>
                                emit (send_event ("Unable to remove lock file " ++ lf)) ;;
                                ret false
                            | inr _ => ret true
                            end
                        end) ;;
                      if go_on
                      then outgoing_loop rest move_operation file_list series_UID
                                         tags_list (Some lf)
                      else ret tt
                  end
              end
        end
  end.

Definition push_serieslevel_outgoing (triggered_rules file_list : list string)
           (series_UID : string) (tags_list : TagDoc)
           (selected_targets : list (string * string)) : M unit :=
  let move_operation := Nat.eqb (length triggered_rules) 1 in
  outgoing_loop selected_targets move_operation file_list series_UID tags_list None.

(** *** push_serieslevel_routing *)

Fixpoint routing_collect (rules_left : list string) (tags_list : TagDoc)
         (selected_targets : list (string * string)) : M (list (string * string)) :=
  match rules_left with
  | [] => ret selected_targets
  | current_rule :: rest =>
      r <- rules_get current_rule ;;
      if String.eqb (get (ACTION_TRIGGER r) mercure_options.SERIES) mercure_options.SERIES
      then
        if String.eqb (get (ACTION r) "") mercure_actions.ROUTE
        then
          let target := get (TARGET r) "" in
          let selected_targets' :=
            if PyStr.truthy target
            then dict_set target current_rule selected_targets
            else selected_targets in
          trigger_serieslevel_notification_reception current_rule tags_list ;;
          routing_collect rest tags_list selected_targets'
        else routing_collect rest tags_list selected_targets
      else routing_collect rest tags_list selected_targets
  end.

Definition push_serieslevel_routing (triggered_rules file_list : list string)
           (series_UID : string) (tags_list : TagDoc) : M unit :=
  selected_targets <- routing_collect triggered_rules tags_list [] ;;
  push_serieslevel_outgoing triggered_rules file_list series_UID tags_list selected_targets.

(** *** push_serieslevel_processing *)

Fixpoint processing_loop (rules_left triggered_rules file_list : list string)
         (series_UID : string) (tags_list : TagDoc) : M bool :=
  match rules_left with
  | [] => ret true
  | current_rule :: rest =>
      r <- rules_get current_rule ;;
      if String.eqb (get (ACTION_TRIGGER r) mercure_options.SERIES) mercure_options.SERIES
      then
        if String.eqb (get (ACTION r) "") mercure_actions.PROCESS
           || String.eqb (get (ACTION r) "") mercure_actions.BOTH
        then
          let copy_files := negb (Nat.eqb (length triggered_rules) 1) in
          u <- uuid1 ;;
          let folder_name := PROCESSING config ++ "/" ++ u in
          let target_folder := folder_name ++ "/" in
          r <- try_ (FS.mkdir folder_name) ;;
          match r with
          | inl _ =>
              emit (send_event ("Unable to create processing folder " ++ folder_name)) ;;
              ret false
          | inr _ =>
              ex <- FS.exists_ folder_name ;;
              if negb ex
              then
                emit (send_event ("Creating folder not possible " ++ folder_name)) ;;
                ret false
              else
                let lock_file := folder_name ++ "/" ++ mercure_names.LOCK in
                r <- try_ (FileLock.acquire lock_file) ;;
                match r with
                | inl _ =>
                    emit (send_event ("Unable to create lock file " ++ lock_file)) ;;
                    ret false
                | inr lock =>
                    go_on <- FileLock.scope lock (
                      made <- create_series_task_processing target_folder current_rule
                                                            series_UID tags_list ;;
                      if negb made then ret false
                      else
                        pushed <- push_files file_list target_folder copy_files ;;
                        if negb pushed
                        then
                          emit (send_event ("Unable to push files into processing folder "
                                              ++ target_folder)) ;;
                          ret false
                        else
                          r <- try_ (FileLock.free lock) ;;
                          match r with
                          | inl _ =>
                              emit (send_event ("Unable to remove lock file " ++ lock_file)) ;;
                              ret false
                          | inr _ =>
                              trigger_serieslevel_notification_reception current_rule
                                                                         tags_list ;;
                              ret true
                          end) ;;
                    if go_on
                    then processing_loop rest triggered_rules file_list series_UID tags_list
                    else ret false
                end
          end
        else processing_loop rest triggered_rules file_list series_UID tags_list
      else processing_loop rest triggered_rules file_list series_UID tags_list
  end.

Definition push_serieslevel_processing (triggered_rules file_list : list string)
           (series_UID : string) (tags_list : TagDoc) : M bool :=
  processing_loop triggered_rules triggered_rules file_list series_UID tags_list.

(** *** push_serieslevel_notification *)

Fixpoint notification_loop (rules_left triggered_rules file_list : list string)
         (series_UID : string) (tags_list : TagDoc) : M bool :=
  match rules_left with
  | [] => ret true
  | current_rule :: rest =>
      r <- rules_get current_rule ;;
      (if String.eqb (get (ACTION_TRIGGER r) mercure_options.SERIES) mercure_options.SERIES
       then
         if String.eqb (get (ACTION r) "") mercure_actions.NOTIFICATION
         then
           trigger_serieslevel_notification_reception current_rule tags_list ;;
           n <- len_bool (dict_eq_int triggered_rules 1) ;;
           if negb (Nat.eqb n 0) then remove_series file_list else ret tt
         else ret tt
       else ret tt) ;;
      notification_loop rest triggered_rules file_list series_UID tags_list
  end.

Definition push_serieslevel_notification (triggered_rules file_list : list string)
           (series_UID : string) (tags_list : TagDoc) : M bool :=
  notification_loop triggered_rules triggered_rules file_list series_UID tags_list.

(** *** push_series_serieslevel *)

Definition push_series_serieslevel (triggered_rules file_list : list string)
           (series_UID : string) (tags_list : TagDoc) : M unit :=
  push_serieslevel_routing triggered_rules file_list series_UID tags_list ;;
  push_serieslevel_processing triggered_rules file_list series_UID tags_list ;;
  push_serieslevel_notification triggered_rules file_list series_UID tags_list ;;
  ret tt.

(** *** route_error_files *)

Fixpoint error_files_loop (entries : list (string * bool))
         (error_files_found : nat) : M nat :=
  match entries with
  | [] => ret error_files_found
  | (name, entry_is_dir) :: rest =>
      if PyStr.endswith name mercure_names.ERROR && negb entry_is_dir
      then
        joined <- str_truediv (INCOMING config) name ;;
        let lock_file := joined ++ mercure_names.LOCK in
        ex <- FS.exists_ lock_file ;;
        if ex then error_files_loop rest error_files_found
        else
          r <- try_ (FileLock.acquire lock_file) ;;
          match r with
          | inl _ => error_files_loop rest error_files_found
          | inr lock =>
              found <- FileLock.scope lock (
                let error_files_found := error_files_found + 1 in
                FS.move (INCOMING config ++ "/" ++ name)
                        (ERROR_FOLDER config ++ "/" ++ name) ;;
                let dicom_filename := PyStr.drop_last 6 name in
                ex <- FS.exists_ (INCOMING config ++ "/" ++ dicom_filename) ;;
                (if ex
                 then FS.move (INCOMING config ++ "/" ++ dicom_filename)
                              (ERROR_FOLDER config ++ "/" ++ dicom_filename)
                 else ret tt) ;;
                FileLock.free lock ;;
                ret error_files_found) ;;
              error_files_loop rest found
          end
      else error_files_loop rest error_files_found
  end.

Definition route_error_files : M unit :=
  entries <- FS.scandir (INCOMING config) ;;
  error_files_found <- error_files_loop entries 0 ;;
  if Nat.ltb 0 error_files_found
  then emit (send_event ("Error parsing " ++ PyStr.str_of_nat error_files_found
                           ++ " incoming files"))
  else ret tt.

(** *** parse_ascconv, as route_series uses it

    get_ascconv opens the payload and looks for the two markers; every
    failure (a missing file, a missing marker, a line that does not split)
    is an exception, which route_series swallows. *)
Definition parse_ascconv (path : string) : M string :=
  w <- get_world ;;
  if FS.is_file w (Path.split path)
  then match ascconv ext (Path.split path) with
       | Some sequence_data => ret sequence_data
       | None => raise OtherException
       end
  else raise OSError.

(** *** route_series *)

(** The series files of the scan: the stems of the tag sidecars. *)
Fixpoint collect_series (seriesPrefix : string) (entries : list (string * bool))
  : list string :=
  match entries with
  | [] => []
  | (name, entry_is_dir) :: rest =>
      if PyStr.endswith name mercure_names.TAGS
         && PyStr.startswith name seriesPrefix && negb entry_is_dir
      then (PyStr.drop_last 5 name :: collect_series seriesPrefix rest)%list
      else collect_series seriesPrefix rest
  end.

(** The decision of route_series once the rules have been evaluated. *)
Definition dispatch (triggered_rules fileList : list string)
           (series_UID discard_series : string) (tagsList : TagDoc) : M unit :=
  if Nat.eqb (length triggered_rules) 0 || PyStr.truthy discard_series
  then push_series_discard fileList series_UID discard_series
  else
    push_series_studylevel triggered_rules fileList series_UID tagsList ;;
    push_series_serieslevel triggered_rules fileList series_UID tagsList ;;
    if Nat.ltb 1 (length triggered_rules) then remove_series fileList else ret tt.

Definition route_series (series_UID : string) : M unit :=
  let lock_file := INCOMING config ++ "/" ++ series_UID ++ mercure_names.LOCK in
  ex <- FS.exists_ lock_file ;;
  if ex then ret tt
  else
    r <- try_ (FileLock.acquire lock_file) ;;
    match r with
    | inl _ => emit (send_event ("Unable to create lock file " ++ lock_file))
    | inr lock =>
        FileLock.scope lock (
          let seriesPrefix := series_UID ++ "#" in
          entries <- FS.scandir (INCOMING config) ;;
          let fileList := collect_series seriesPrefix entries in
          first <- index0 fileList ;;
          let representative_dcm := INCOMING config ++ "/" ++ first ++ mercure_names.DCM in
          try_ (sequence_data <- parse_ascconv representative_dcm ;;
                emit (send_series_sequence_data series_UID sequence_data)) ;;
          first <- index0 fileList ;;
          let tagsMasterFile := INCOMING config ++ "/" ++ first ++ mercure_names.TAGS in
          ex <- FS.exists_ tagsMasterFile ;;
          if negb ex
          then emit (send_event ("Missing file " ++ first ++ mercure_names.TAGS))
          else
            match json_load ext (Path.split tagsMasterFile) with
            | None =>
                entry <- match rev entries with
                         | [] => raise UnboundLocalError
                         | (e :: _)%list => ret (fst e)
                         end ;;
                emit (send_series_event ERROR entry 0 "" "Invalid tag information") ;;
                emit (send_event ("Invalid tag for series " ++ series_UID))
            | Some tagsList =>
                emit (send_register_series tagsList) ;;
                emit (send_series_event REGISTERED series_UID (length fileList) "" "") ;;
                tr <- get_triggered_rules tagsList ;;
                let triggered_rules := fst tr in
                let discard_series := snd tr in
                dispatch triggered_rules fileList series_UID discard_series tagsList ;;
                r <- try_ (FileLock.free lock) ;;
                match r with
                | inl _ => emit (send_event ("Unable to remove lock file " ++ lock_file))
                | inr _ => ret tt
                end
            end)
    end.

(* =================================================================== *)
(** ** Vocabulary of the statements *)
(* =================================================================== *)

(** The entries the sweeper acts on. *)
Definition is_error_entry (e : string * bool) : bool :=
  PyStr.endswith (fst e) mercure_names.ERROR && negb (snd e).

(** A triggered rule that is configured, acts on the series level and has
    the given action. *)
Definition is_series_rule_with (act current_rule : string) : bool :=
  match dict_get current_rule (rules config) with
  | Some r =>
      String.eqb (get (ACTION_TRIGGER r) mercure_options.SERIES) mercure_options.SERIES
      && String.eqb (get (ACTION r) "") act
  | None => false
  end.

(** A triggered rule that is configured and acts on the study level. *)
Definition is_study_rule (current_rule : string) : bool :=
  match dict_get current_rule (rules config) with
  | Some r =>
      String.eqb (get (ACTION_TRIGGER r) mercure_options.SERIES) mercure_options.STUDY
  | None => false
  end.

(** Every name is a key of the rules table. *)
Definition configured (names : list string) : Prop :=
  forall n, In n names -> dict_get n (rules config) <> None.

(** The reception webhook of a rule. *)
Definition webhook_of (current_rule : string) : Event :=
  match dict_get current_rule (rules config) with
  | Some r => send_webhook (get (NOTIFICATION_WEBHOOK r) "")
                           (get (NOTIFICATION_PAYLOAD r) "")
  | None => send_webhook "" ""
  end.

(** The world with one more directory, and with another set of files. *)
Definition add_dir (w : World) (p : Path.t) : World :=
  mkWorld (files w) (dirs w ++ [p])%list (trace w) (uuid_count w).

Definition set_files (w : World) (fs : list Path.t) : World :=
  mkWorld fs (dirs w) (trace w) (uuid_count w).

(** The world after one more call of uuid.uuid1(). *)
Definition next_uuid (w : World) : World :=
  mkWorld (files w) (dirs w) (trace w) (S (uuid_count w)).

(** The folder push_series_studylevel computes for a rule. *)
Definition study_folder (tags_list : TagDoc) (current_rule : string) : string :=
  get (dict_get "StudyInstanceUID" tags_list) "" ++ mercure_defs.SEPARATOR ++ current_rule.

(** The report of a pair that could not be transferred. *)
Definition push_problem (entry : string) : Event :=
  send_event ("Problem while pushing file to outgoing " ++ entry).

(** *** The rule matcher, in the words of the specification *)

(** A rule is enabled unless its [disabled] field is the string "True". *)
Definition rule_enabled (r : Rule) : bool :=
  negb (String.eqb (get (DISABLED r) "False") "True").

(** The predicate of the rule evaluates truthy on the tag document. *)
Definition rule_truthy (tagList : TagDoc) (r : Rule) : bool :=
  match parse_rule ext (get (RULE r) "False") tagList with
  | Some true => true
  | _ => false
  end.

(** The evaluation of the predicate raises. *)
Definition rule_raises (tagList : TagDoc) (r : Rule) : bool :=
  match parse_rule ext (get (RULE r) "False") tagList with
  | None => true
  | Some _ => false
  end.

Definition rule_discards (r : Rule) : bool :=
  String.eqb (get (ACTION r) "") mercure_actions.DISCARD.

(** An entry of the rules table triggers: enabled and truthy. *)
Definition triggers (tagList : TagDoc) (nr : string * Rule) : bool :=
  rule_enabled (snd nr) && rule_truthy tagList (snd nr).

(** An entry ends the iteration: it triggers and its action is discard. *)
Definition stops (tagList : TagDoc) (nr : string * Rule) : bool :=
  triggers tagList nr && rule_discards (snd nr).

(** An entry is skipped with a report: enabled, and its predicate raises. *)
Definition fails (tagList : TagDoc) (nr : string * Rule) : bool :=
  rule_enabled (snd nr) && rule_raises tagList (snd nr).

(** The entries the iteration reaches: those up to and including the first
    one that ends it. *)
Fixpoint evaluated (tagList : TagDoc) (rs : list (string * Rule)) : list (string * Rule) :=
  match rs with
  | [] => []
  | nr :: rs' => if stops tagList nr then [nr] else nr :: evaluated tagList rs'
  end.

Definition triggered_set (tagList : TagDoc) : list string :=
  map fst (filter (triggers tagList) (evaluated tagList (rules config))).

Definition discard_override (tagList : TagDoc) : string :=
  match find (stops tagList) (rules config) with
  | Some nr => fst nr
  | None => ""
  end.

Definition invalid_rule (nr : string * Rule) : Event :=
  send_event ("Invalid rule: " ++ fst nr).

Definition matcher_reports (tagList : TagDoc) : list Event :=
  map invalid_rule (filter (fails tagList) (evaluated tagList (rules config))).

(** *** Series-level routing *)

Definition routes (current_rule : string) : bool :=
  is_series_rule_with mercure_actions.ROUTE current_rule.

Definition target_of (current_rule : string) : string :=
  match dict_get current_rule (rules config) with
  | Some r => get (TARGET r) ""
  | None => ""
  end.

(** One route rule added to the selected targets. *)
Definition select (selected : list (string * string)) (current_rule : string)
  : list (string * string) :=
  if PyStr.truthy (target_of current_rule)
  then dict_set (target_of current_rule) current_rule selected
  else selected.

Definition selection (triggered_rules : list string) : list (string * string) :=
  fold_left select (filter routes triggered_rules) [].

Definition reception_webhooks (triggered_rules : list string) : list Event :=
  map webhook_of (filter routes triggered_rules).

(** The target is a key of the targets table. *)
Definition known_target (selected : string * string) : bool :=
  existsb (String.eqb (fst selected)) (targets config).

Definition invalid_target (selected : string * string) : Event :=
  send_event ("Invalid target selected " ++ fst selected).

(** [os.mkdir] would raise: the name is taken or its parent is missing. *)
Definition cannot_mkdir (w : World) (folder : string) : bool :=
  FS.present w (Path.split folder)
  || negb (FS.is_dir w (Path.parent (Path.split folder))).

(** The outgoing folder the next uuid names. *)
Definition next_outgoing (w : World) : string :=
  OUTGOING config ++ "/" ++ uuid_of ext (uuid_count w).

(** The selected targets in front of the first configured one. *)
Fixpoint unknown_prefix (selected : list (string * string)) : list (string * string) :=
  match selected with
  | [] => []
  | s :: rest => if known_target s then [] else s :: unknown_prefix rest
  end.

(** *** Series-level processing *)

Definition processes (current_rule : string) : bool :=
  is_series_rule_with mercure_actions.PROCESS current_rule
  || is_series_rule_with mercure_actions.BOTH current_rule.

Definition next_processing (w : World) : string :=
  PROCESSING config ++ "/" ++ uuid_of ext (uuid_count w).

(** *** Paths of the series files *)

(** The last character of a string. *)
Fixpoint last_char (s : string) : option ascii :=
  match s with
  | EmptyString => None
  | String c EmptyString => Some c
  | String _ s' => last_char s'
  end.

(** The payload and the sidecar of a stem inside a folder. *)
Definition dcm_in (folder : Path.t) (entry : string) : Path.t :=
  (folder ++ [(entry ++ mercure_names.DCM)%string])%list.

Definition tags_in (folder : Path.t) (entry : string) : Path.t :=
  (folder ++ [(entry ++ mercure_names.TAGS)%string])%list.

(** [f] is a file of one of the pairs of [file_list] inside [folder]. *)
Definition in_pairs (folder : Path.t) (file_list : list string) (f : Path.t) : bool :=
  existsb (fun e => Path.eqb f (dcm_in folder e) || Path.eqb f (tags_in folder e)) file_list.

(** The files after one pair has been moved, copied or removed. *)
Definition move_pair (S T : Path.t) (fs : list Path.t) (entry : string) : list Path.t :=
  Path.add (tags_in T entry) (Path.remove (tags_in S entry)
    (Path.add (dcm_in T entry) (Path.remove (dcm_in S entry) fs))).

Definition copy_pair (T : Path.t) (fs : list Path.t) (entry : string) : list Path.t :=
  Path.add (tags_in T entry) (Path.add (dcm_in T entry) fs).

Definition remove_pair (S : Path.t) (fs : list Path.t) (entry : string) : list Path.t :=
  Path.remove (dcm_in S entry) (Path.remove (tags_in S entry) fs).

(** The file system hangs together: whatever is present lies in a
    directory. *)
Definition wf_fs (w : World) : bool :=
  forallb (fun p => FS.is_dir w (Path.parent p)) (files w ++ dirs w).

(** The pair of [entry] can be transferred from folder [S] to folder [T]:
    the stem is a plain name, both files are in [S], and no directory of
    [T] bears one of their names. *)
Definition pair_ready (S T : Path.t) (w : World) (entry : string) : bool :=
  Path.no_slash entry
  && Path.mem (dcm_in S entry) (files w)
  && Path.mem (tags_in S entry) (files w)
  && negb (Path.mem (dcm_in T entry) (dirs w))
  && negb (Path.mem (tags_in T entry) (dirs w)).

(** *** The worlds series-level processing leaves *)

(** The incoming folder and the staging folder the next uuid names. *)
Definition incoming_path : Path.t := Path.split (INCOMING config).

Definition staging (w : World) : Path.t :=
  (Path.split (PROCESSING config) ++ [uuid_of ext (uuid_count w)])%list.

(** The world after one processing rule has staged the series with
    success: the folder, its task file and the pairs (copied or moved), the
    lock of the folder taken and released, the webhook of the rule sent. *)
Definition processing_staged (copy_files : bool) (file_list : list string)
           (w : World) (current_rule : string) : World :=
  let T := staging w in
  let lockp := (T ++ [mercure_names.LOCK])%list in
  let taskp := (T ++ [mercure_names.TASKFILE])%list in
  let fs := Path.add taskp (Path.add lockp (files w)) in
  let fs' := if copy_files
             then fold_left (copy_pair T) file_list fs
             else fold_left (move_pair incoming_path T) file_list fs in
  mkWorld (Path.remove lockp (Path.remove lockp fs'))
          (dirs w ++ [T])%list
          (trace w ++ [webhook_of current_rule])%list
          (S (uuid_count w)).

(** The pair of a stem is in the incoming folder. *)
Definition pair_present (w : World) (entry : string) : bool :=
  Path.no_slash entry
  && Path.mem (dcm_in incoming_path entry) (files w)
  && Path.mem (tags_in incoming_path entry) (files w).

(** The next [k] uuids name folders that can be created under the
    processing folder, one after the other. *)
Definition can_stage (k : nat) (w : World) : Prop :=
  wf_fs w = true
  /\ FS.is_dir w incoming_path = true
  /\ FS.is_dir w (Path.split (PROCESSING config)) = true
  /\ NoDup (map (uuid_of ext) (seq (uuid_count w) k))
  /\ forall j, j < k ->
       Path.component (uuid_of ext (uuid_count w + j)) = true
       /\ FS.present w (Path.split (PROCESSING config)
                          ++ [uuid_of ext (uuid_count w + j)])%list = false.

(** The [k]-th staging folder counted from the world [w]. *)
Definition staging_at (w : World) (k : nat) : Path.t :=
  (Path.split (PROCESSING config) ++ [uuid_of ext (uuid_count w + k)])%list.

(** *** The beginning of route_series *)

Definition series_lock (series_UID : string) : Path.t :=
  (incoming_path ++ [(series_UID ++ mercure_names.LOCK)%string])%list.

(** The world once the lock of the series has been taken. *)
Definition locked (w : World) (series_UID : string) : World :=
  set_files w (Path.add (series_lock series_UID) (files w)).

(** The file list route_series collects: the scan happens under the lock. *)
Definition series_files (w : World) (series_UID : string) : list string :=
  collect_series (series_UID ++ "#")
    (FS.children incoming_path false (files (locked w series_UID))
     ++ FS.children incoming_path true (dirs w))%list.

(** What the attempt to read the vendor header of the first slice sends. *)
Definition sequence_report (w : World) (series_UID first : string) : list Event :=
  if Path.mem (dcm_in incoming_path first) (files (locked w series_UID))
  then match ascconv ext (dcm_in incoming_path first) with
       | Some sequence_data => [send_series_sequence_data series_UID sequence_data]
       | None => []
       end
  else [].

(** The world in which route_series takes its decision. *)
Definition registered (w : World) (series_UID first : string) (tagsList : TagDoc) : World :=
  with_trace (locked w series_UID)
    (sequence_report w series_UID first
     ++ [send_register_series tagsList;
         send_series_event REGISTERED series_UID
                           (length (series_files w series_UID)) "" ""]
     ++ matcher_reports tagsList)%list.

(** The world after a series whose triggered rules are all processing
    rules has been dispatched with success: one rule moves the pairs into
    its folder; several rules copy them, and the originals are removed at
    the end. *)
Definition processed (triggered_rules file_list : list string) (w : World) : World :=
  match triggered_rules with
  | [n] => processing_staged false file_list w n
  | _ =>
      let W := fold_left (processing_staged true file_list) triggered_rules w in
      set_files W (fold_left (remove_pair incoming_path) file_list (files W))
  end.

(** The world route_series leaves: the lock of the series is gone. *)
Definition unlocked (W : World) (series_UID : string) : World :=
  set_files W (Path.remove (series_lock series_UID)
                 (Path.remove (series_lock series_UID) (files W))).

(** *** The effects of the discard path *)

(** Telemetry that belongs to no dispatch other than discarding: anything
    but a webhook and a ROUTE event. *)
Definition quiet (e : Event) : bool :=
  match e with
  | send_webhook _ _ => false
  | send_series_event ROUTE _ _ _ _ => false
  | _ => true
  end.


(** The discard folder the next uuid names. *)
Definition next_discard (w : World) : string :=
  DISCARD_FOLDER config ++ "/" ++ uuid_of ext (uuid_count w).

(** From [w] to [w'] only quiet telemetry has been sent, no uuid has been
    drawn, and every new directory and file is an allowed one. *)
Definition frame (D F : Path.t -> Prop) (w w' : World) : Prop :=
  (exists evs, trace w' = (trace w ++ evs)%list /\ forallb quiet evs = true)
  /\ uuid_count w' = uuid_count w
  /\ (forall p, Path.mem p (dirs w') = true -> Path.mem p (dirs w) = true \/ D p)
  /\ (forall f, Path.mem f (files w') = true -> Path.mem f (files w) = true \/ F f).

(** A computation that stays within a frame, whatever its outcome. *)
Definition within {A} (D F : Path.t -> Prop) (m : M A) : Prop :=
  forall w, frame D F w (snd (m w)).





(** The discard folder push_series_discard creates in the world [w]. *)
Definition discard_staging (w : World) : Path.t :=
  (Path.split (DISCARD_FOLDER config) ++ [uuid_of ext (uuid_count w)])%list.


(** The discard folder the next uuid names can be created. *)
Definition can_discard (w : World) : Prop :=
  wf_fs w = true
  /\ FS.is_dir w incoming_path = true
  /\ FS.is_dir w (Path.split (DISCARD_FOLDER config)) = true
  /\ Path.component (uuid_of ext (uuid_count w)) = true
  /\ FS.present w (discard_staging w) = false.

(** *** Reports and outcomes of the transfer and removal loops *)

(** The reports of remove_series and of the loop of push_series_discard. *)
Definition remove_problem (entry : string) : Event :=
  send_event ("Error while removing file " ++ entry).

Definition discard_problem (entry : string) : Event :=
  send_event ("Problem during discarding file " ++ entry).

(** The computation returns in every world: no exception leaves it. *)
Definition never_raises {A} (m : M A) : Prop :=
  forall w, exists a, fst (m w) = Ok a.

(** An error report to the monitor. *)
Definition is_report (e : Event) : bool :=
  match e with
  | send_event _ => true
  | _ => false
  end.

(** The computation sends nothing, whatever its outcome. *)
Definition silent {A} (m : M A) : Prop :=
  forall w, trace (snd (m w)) = trace w.

(* =================================================================== *)
(** ** Running the monad *)
(* =================================================================== *)

Unset Implicit Arguments.

Lemma bind_ok {A B} (m : M A) (k : A -> M B) w a w' :
  m w = (Ok a, w') -> bind m k w = k a w'.
Proof. intros H. unfold bind. rewrite H. reflexivity. Qed.

Lemma bind_raise {A B} (m : M A) (k : A -> M B) w e w' :
  m w = (Raise e, w') -> bind m k w = (Raise e, w').
Proof. intros H. unfold bind. rewrite H. reflexivity. Qed.

Lemma try_ok {A} (m : M A) w a w' :
  m w = (Ok a, w') -> try_ m w = (Ok (inr a), w').
Proof. intros H. unfold try_. rewrite H. reflexivity. Qed.

Lemma try_raise {A} (m : M A) w e w' :
  m w = (Raise e, w') -> try_ m w = (Ok (inl e), w').
Proof. intros H. unfold try_. rewrite H. reflexivity. Qed.

Lemma emit_run e w : emit e w = (Ok tt, with_trace w [e]).
Proof. reflexivity. Qed.

Lemma with_trace_nil w : with_trace w [] = w.
Proof. destruct w; unfold with_trace; simpl. rewrite app_nil_r. reflexivity. Qed.

Lemma with_trace_app w evs evs' :
  with_trace (with_trace w evs) evs' = with_trace w (evs ++ evs')%list.
Proof. unfold with_trace; simpl. rewrite app_assoc. reflexivity. Qed.

(* =================================================================== *)
(** ** route_error_files *)
(* =================================================================== *)

(** The sweeper stops at the first marker: joining the incoming folder and
    the entry name with [/] raises before any lock is taken. *)
Lemma error_files_loop_marker entries n w :
  existsb is_error_entry entries = true ->
  error_files_loop entries n w = (Raise TypeError, w).
Proof.
  induction entries as [|[name isdir] entries IH]; simpl; intros H.
  - discriminate.
  - unfold is_error_entry in H at 1. simpl in H.
    destruct (PyStr.endswith name mercure_names.ERROR && negb isdir).
    + reflexivity.
    + apply IH. exact H.
Qed.

Lemma error_files_loop_clean entries n w :
  existsb is_error_entry entries = false ->
  error_files_loop entries n w = (Ok n, w).
Proof.
  induction entries as [|[name isdir] entries IH]; simpl; intros H.
  - reflexivity.
  - unfold is_error_entry in H at 1. simpl in H.
    destruct (PyStr.endswith name mercure_names.ERROR && negb isdir).
    + discriminate.
    + apply IH. exact H.
Qed.

(** With a marker in the incoming folder the sweeper raises and leaves the
    world as it found it: nothing is moved and nothing is reported. *)
Lemma route_error_files_marker w entries :
  FS.scandir (INCOMING config) w = (Ok entries, w) ->
  existsb is_error_entry entries = true ->
  route_error_files w = (Raise TypeError, w).
Proof.
  intros Hscan Hex. unfold route_error_files.
  rewrite (bind_ok _ _ _ _ _ Hscan).
  rewrite (bind_raise _ _ _ _ _ (error_files_loop_marker _ 0 w Hex)).
  reflexivity.
Qed.

(** Without a marker it returns without a report. *)
Lemma route_error_files_clean w entries :
  FS.scandir (INCOMING config) w = (Ok entries, w) ->
  existsb is_error_entry entries = false ->
  route_error_files w = (Ok tt, w).
Proof.
  intros Hscan Hex. unfold route_error_files.
  rewrite (bind_ok _ _ _ _ _ Hscan).
  rewrite (bind_ok _ _ _ _ _ (error_files_loop_clean _ 0 w Hex)).
  reflexivity.
Qed.

Lemma rules_get_run n r w :
  dict_get n (rules config) = Some r -> rules_get n w = (Ok r, w).
Proof. intros H. unfold rules_get. rewrite H. reflexivity. Qed.

Lemma trigger_run n r tags w :
  dict_get n (rules config) = Some r ->
  trigger_serieslevel_notification_reception n tags w
  = (Ok tt, with_trace w [webhook_of n]).
Proof.
  intros H. unfold trigger_serieslevel_notification_reception, webhook_of.
  rewrite (bind_ok _ _ _ _ _ (rules_get_run _ _ w H)).
  rewrite (bind_ok _ _ _ _ _ (rules_get_run _ _ w H)).
  rewrite H. reflexivity.
Qed.

Lemma configured_cons n names :
  configured (n :: names) ->
  (exists r, dict_get n (rules config) = Some r) /\ configured names.
Proof.
  intros H. split.
  - destruct (dict_get n (rules config)) eqn:E.
    + eauto.
    + exfalso. apply (H n); [left; reflexivity | exact E].
  - intros m Hm. apply H. right. exact Hm.
Qed.

(* =================================================================== *)
(** ** push_serieslevel_notification *)
(* =================================================================== *)

(** The loop does not get past the first notification rule: its webhook is
    sent, then [len(triggered_rules==1)] raises, whatever the number of
    triggered rules.  No file is removed. *)
Lemma notification_loop_first rules_left triggered_rules file_list uid tags w :
  configured rules_left ->
  notification_loop rules_left triggered_rules file_list uid tags w =
  match find (is_series_rule_with mercure_actions.NOTIFICATION) rules_left with
  | Some n => (Raise TypeError, with_trace w [webhook_of n])
  | None => (Ok true, w)
  end.
Proof.
  induction rules_left as [|n rest IH]; intros Hc; simpl.
  - reflexivity.
  - destruct (configured_cons _ _ Hc) as [[r Hr] Hc'].
    rewrite (bind_ok _ _ _ _ _ (rules_get_run _ _ w Hr)).
    unfold is_series_rule_with at 1. rewrite Hr.
    destruct (String.eqb (get (ACTION_TRIGGER r) mercure_options.SERIES)
                         mercure_options.SERIES); simpl.
    + destruct (String.eqb (get (ACTION r) "") mercure_actions.NOTIFICATION); simpl.
      * unfold bind at 1. unfold bind at 1.
        rewrite (trigger_run _ _ tags w Hr). reflexivity.
      * unfold bind at 1. simpl. apply IH. exact Hc'.
    + unfold bind at 1. simpl. apply IH. exact Hc'.
Qed.

Lemma push_serieslevel_notification_raises triggered_rules file_list uid tags w n :
  configured triggered_rules ->
  find (is_series_rule_with mercure_actions.NOTIFICATION) triggered_rules = Some n ->
  push_serieslevel_notification triggered_rules file_list uid tags w
  = (Raise TypeError, with_trace w [webhook_of n]).
Proof.
  intros Hc Hf. unfold push_serieslevel_notification.
  rewrite (notification_loop_first _ _ _ _ _ _ Hc). rewrite Hf. reflexivity.
Qed.

(* =================================================================== *)
(** ** The file system primitives, run *)
(* =================================================================== *)

Lemma exists_run s w : FS.exists_ s w = (Ok (FS.present w (Path.split s)), w).
Proof. reflexivity. Qed.

Lemma mkdir_run s w :
  FS.mkdir s w =
  if FS.present w (Path.split s) || negb (FS.is_dir w (Path.parent (Path.split s)))
  then (Raise OSError, w)
  else (Ok tt, add_dir w (Path.split s)).
Proof.
  unfold FS.mkdir, bind, get_world.
  destruct (FS.present w (Path.split s) || negb (FS.is_dir w (Path.parent (Path.split s))));
    reflexivity.
Qed.

Lemma create_run s w :
  FS.create s w =
  if FS.is_dir w (Path.split s) || negb (FS.is_dir w (Path.parent (Path.split s)))
  then (Raise OSError, w)
  else (Ok tt, set_files w (Path.add (Path.split s) (files w))).
Proof.
  unfold FS.create, bind, get_world.
  destruct (FS.is_dir w (Path.split s) || negb (FS.is_dir w (Path.parent (Path.split s))));
    reflexivity.
Qed.

Lemma remove_run s w :
  FS.remove s w =
  if FS.is_file w (Path.split s)
  then (Ok tt, set_files w (Path.remove (Path.split s) (files w)))
  else (Raise OSError, w).
Proof.
  unfold FS.remove, bind, get_world.
  destruct (FS.is_file w (Path.split s)); reflexivity.
Qed.

Lemma copy_run src dst w :
  FS.copy src dst w =
  if negb (FS.is_file w (Path.split src)) || FS.is_dir w (Path.split dst)
     || negb (FS.is_dir w (Path.parent (Path.split dst)))
  then (Raise OSError, w)
  else (Ok tt, set_files w (Path.add (Path.split dst) (files w))).
Proof.
  unfold FS.copy, bind, get_world.
  destruct (negb (FS.is_file w (Path.split src)) || FS.is_dir w (Path.split dst)
            || negb (FS.is_dir w (Path.parent (Path.split dst)))); reflexivity.
Qed.

Lemma move_run src dst w :
  FS.move src dst w =
  if negb (FS.is_file w (Path.split src)) || FS.is_dir w (Path.split dst)
     || negb (FS.is_dir w (Path.parent (Path.split dst)))
  then (Raise OSError, w)
  else (Ok tt, set_files w (Path.add (Path.split dst)
                                     (Path.remove (Path.split src) (files w)))).
Proof.
  unfold FS.move, bind, get_world.
  destruct (negb (FS.is_file w (Path.split src)) || FS.is_dir w (Path.split dst)
            || negb (FS.is_dir w (Path.parent (Path.split dst)))); reflexivity.
Qed.

Lemma uuid1_run w : uuid1 w = (Ok (uuid_of ext (uuid_count w)), next_uuid w).
Proof. reflexivity. Qed.

(* =================================================================== *)
(** ** push_series_studylevel *)
(* =================================================================== *)

(** A study-level rule at the head of the loop, before any lock file name
    has been bound: the folder named [<studyUID>#<rule>] is looked up and
    created as that bare name, and the handler of the failing lock-path
    expression then raises itself. *)
Lemma studylevel_loop_head n r rest triggered_rules file_list uid tags study_UID w :
  dict_get n (rules config) = Some r ->
  String.eqb (get (ACTION_TRIGGER r) mercure_options.SERIES) mercure_options.STUDY = true ->
  dict_get "StudyInstanceUID" tags = Some study_UID ->
  let folder := Path.split (study_folder tags n) in
  studylevel_loop (n :: rest) triggered_rules file_list uid tags None w =
  if FS.present w folder then (Raise UnboundLocalError, w)
  else if negb (FS.is_dir w (Path.parent folder))
       then studylevel_loop rest triggered_rules file_list uid tags None
              (with_trace w [send_event ("Unable to create folder " ++ study_folder tags n)])
       else (Raise UnboundLocalError, add_dir w folder).
Proof.
  intros Hr Hs Ht folder. cbn [studylevel_loop].
  rewrite (bind_ok _ _ _ _ _ (rules_get_run _ _ w Hr)). rewrite Hs.
  unfold folder, study_folder. rewrite Ht. cbn [get].
  unfold bind at 1. cbn [ret].
  unfold bind at 1. rewrite exists_run.
  destruct (FS.present w (Path.split (study_UID ++ mercure_defs.SEPARATOR ++ n))) eqn:Ep;
    cbn [negb].
  - reflexivity.
  - unfold bind at 1. unfold bind at 1. unfold try_ at 1. rewrite mkdir_run. rewrite Ep.
    cbn [orb].
    destruct (FS.is_dir w (Path.parent (Path.split (study_UID ++ mercure_defs.SEPARATOR ++ n))));
      reflexivity.
Qed.

(** Whatever the triggered rules, push_series_studylevel stages nothing: no
    file is written, copied or moved. *)
Lemma studylevel_loop_files rules_left triggered_rules file_list uid tags w :
  files (snd (studylevel_loop rules_left triggered_rules file_list uid tags None w)) = files w.
Proof.
  revert w. induction rules_left as [|n rest IH]; intros w; cbn [studylevel_loop].
  - reflexivity.
  - unfold bind at 1. unfold rules_get.
    destruct (dict_get n (rules config)) as [r|]; [|reflexivity]. cbn [ret].
    destruct (String.eqb (get (ACTION_TRIGGER r) mercure_options.SERIES) mercure_options.STUDY).
    + unfold bind at 1.
      destruct (dict_get "StudyInstanceUID" tags) as [study_UID|]; [|reflexivity]. cbn [ret].
      unfold bind at 1. rewrite exists_run.
      destruct (FS.present w (Path.split (study_UID ++ mercure_defs.SEPARATOR ++ n))) eqn:Ep;
        cbn [negb].
      * reflexivity.
      * unfold bind at 1. unfold bind at 1. unfold try_ at 1. rewrite mkdir_run. rewrite Ep.
        cbn [orb].
        destruct (FS.is_dir w (Path.parent (Path.split (study_UID ++ mercure_defs.SEPARATOR ++ n)))).
        -- reflexivity.
        -- cbn [negb]. unfold bind at 1. rewrite emit_run. cbn [ret]. rewrite IH. reflexivity.
    + apply IH.
Qed.

(* =================================================================== *)
(** ** push_files *)
(* =================================================================== *)

(** The first pair whose transfer raises ends the loop: the problem is
    reported, the result is [False], and the pairs behind it are not
    looked at. *)
Lemma push_files_loop_stops operation source_folder target_folder
      done entry remaining w w1 e w2 :
  push_files_loop operation source_folder target_folder done w = (Ok true, w1) ->
  transfer_pair operation source_folder target_folder entry w1 = (Raise e, w2) ->
  push_files_loop operation source_folder target_folder (done ++ entry :: remaining) w
  = (Ok false, with_trace w2 [push_problem entry]).
Proof.
  revert w. induction done as [|a done IH]; intros w Hdone Hfail.
  - cbn [push_files_loop] in Hdone. injection Hdone as <-.
    cbn [app push_files_loop].
    rewrite (bind_ok _ _ _ _ _ (try_raise _ _ _ _ Hfail)).
    unfold bind. rewrite emit_run. reflexivity.
  - cbn [app push_files_loop] in *.
    unfold bind at 1 in Hdone. unfold bind at 1. unfold try_ in *.
    destruct (transfer_pair operation source_folder target_folder a w) as [[[]|x] wa].
    + apply IH; assumption.
    + unfold bind in Hdone. rewrite emit_run in Hdone. discriminate.
Qed.

(* =================================================================== *)
(** ** route_series on a series without files *)
(* =================================================================== *)

(** When the scan finds no tag sidecar of the series, the first use of
    [fileList[0]] raises. *)
Lemma route_series_empty_scan uid w w1 entries :
  let lock_file := INCOMING config ++ "/" ++ uid ++ mercure_names.LOCK in
  FS.present w (Path.split lock_file) = false ->
  FileLock.acquire lock_file w = (Ok lock_file, w1) ->
  FS.scandir (INCOMING config) w1 = (Ok entries, w1) ->
  collect_series (uid ++ "#") entries = [] ->
  fst (route_series uid w) = Raise IndexError.
Proof.
  intros lock_file Hfree Hlock Hscan Hnone. unfold route_series.
  fold lock_file. unfold bind at 1. rewrite exists_run. rewrite Hfree.
  rewrite (bind_ok _ _ _ _ _ (try_ok _ _ _ _ Hlock)).
  unfold FileLock.scope.
  rewrite (bind_ok _ _ _ _ _ Hscan). rewrite Hnone.
  reflexivity.
Qed.

(* =================================================================== *)
(** ** get_triggered_rules *)
(* =================================================================== *)

Lemma dict_get_In {V} (d : list (string * V)) k v :
  NoDup (map fst d) -> In (k, v) d -> dict_get k d = Some v.
Proof.
  induction d as [|[k' v'] d IH]; cbn [map fst dict_get]; intros Hnd Hin.
  - destruct Hin.
  - inversion Hnd as [|? ? Hnotin Hnd']; subst.
    destruct Hin as [Heq|Hin].
    + injection Heq as -> ->. rewrite String.eqb_refl. reflexivity.
    + destruct (String.eqb_spec k k') as [->|Hne].
      * exfalso. apply Hnotin. apply (in_map fst) in Hin. exact Hin.
      * apply IH; assumption.
Qed.

Lemma keys_add_fresh k d : ~ In k d -> keys_add k d = (d ++ [k])%list.
Proof.
  induction d as [|k' d IH]; cbn [keys_add app]; intros Hn.
  - reflexivity.
  - destruct (String.eqb_spec k k') as [->|Hne].
    + exfalso. apply Hn. left. reflexivity.
    + rewrite IH; [reflexivity|]. intros Hin. apply Hn. right. exact Hin.
Qed.

(** The loop over a tail of the rules table, with the rules triggered so
    far in [acc]. *)
Lemma get_triggered_rules_loop_spec tagList rs acc w :
  (forall n r, In (n, r) rs -> dict_get n (rules config) = Some r) ->
  NoDup (map fst rs) ->
  (forall n, In n acc -> ~ In n (map fst rs)) ->
  get_triggered_rules_loop (map fst rs) tagList acc w =
  (Ok ((acc ++ map fst (filter (triggers tagList) (evaluated tagList rs)))%list,
       match find (stops tagList) rs with Some nr => fst nr | None => "" end),
   with_trace w (map invalid_rule (filter (fails tagList) (evaluated tagList rs)))).
Proof.
  revert acc w. induction rs as [|[n r] rs IH]; intros acc w Hget Hnd Hacc.
  - cbn. rewrite app_nil_r, with_trace_nil. reflexivity.
  - cbn [map fst get_triggered_rules_loop evaluated find].
    inversion Hnd as [|? ? Hfresh Hnd']; subst.
    assert (Hget' : forall n0 r0, In (n0, r0) rs -> dict_get n0 (rules config) = Some r0)
      by (intros; apply Hget; right; assumption).
    assert (Hacc' : forall n0, In n0 acc -> ~ In n0 (map fst rs))
      by (intros n0 Hin Hin'; apply (Hacc n0 Hin); right; exact Hin').
    rewrite (Hget n r (or_introl eq_refl)).
    destruct (String.eqb (get (DISABLED r) "False") "True") eqn:Edis.
    { assert (Hs : stops tagList (n, r) = false)
        by (unfold stops, triggers, rule_enabled; cbn [snd]; rewrite Edis; reflexivity).
      assert (Ht : triggers tagList (n, r) = false)
        by (unfold triggers, rule_enabled; cbn [snd]; rewrite Edis; reflexivity).
      assert (Hf : fails tagList (n, r) = false)
        by (unfold fails, rule_enabled; cbn [snd]; rewrite Edis; reflexivity).
      rewrite Hs. cbn [filter]. rewrite Ht, Hf.
      apply IH; assumption. }
    destruct (parse_rule ext (get (RULE r) "False") tagList) as [[|]|] eqn:Epr.
    + assert (Ht : triggers tagList (n, r) = true)
        by (unfold triggers, rule_enabled, rule_truthy; cbn [snd];
            rewrite Edis, Epr; reflexivity).
      assert (Hf : fails tagList (n, r) = false)
        by (unfold fails, rule_enabled, rule_raises; cbn [snd];
            rewrite Edis, Epr; reflexivity).
      rewrite keys_add_fresh
        by (intros Hin; apply (Hacc n Hin); left; reflexivity).
      destruct (String.eqb (get (ACTION r) "") mercure_actions.DISCARD) eqn:Eact.
      * assert (Hs : stops tagList (n, r) = true)
          by (unfold stops, rule_discards; cbn [snd]; rewrite Ht, Eact; reflexivity).
        rewrite Hs. cbn [filter]. rewrite Ht, Hf. cbn [map fst].
        rewrite with_trace_nil. reflexivity.
      * assert (Hs : stops tagList (n, r) = false)
          by (unfold stops, rule_discards; cbn [snd]; rewrite Ht, Eact; reflexivity).
        rewrite Hs. cbn [filter]. rewrite Ht, Hf. cbn [map fst].
        rewrite IH; try assumption.
        -- rewrite <- app_assoc. reflexivity.
        -- intros n0 Hin. apply in_app_or in Hin. destruct Hin as [Hin|[<-|[]]].
           ++ apply Hacc'. exact Hin.
           ++ exact Hfresh.
    + assert (Hs : stops tagList (n, r) = false)
        by (unfold stops, triggers, rule_enabled, rule_truthy; cbn [snd];
            rewrite Edis, Epr; reflexivity).
      assert (Ht : triggers tagList (n, r) = false)
        by (unfold triggers, rule_enabled, rule_truthy; cbn [snd];
            rewrite Edis, Epr; reflexivity).
      assert (Hf : fails tagList (n, r) = false)
        by (unfold fails, rule_enabled, rule_raises; cbn [snd];
            rewrite Edis, Epr; reflexivity).
      rewrite Hs. cbn [filter]. rewrite Ht, Hf.
      apply IH; assumption.
    + assert (Hs : stops tagList (n, r) = false)
        by (unfold stops, triggers, rule_enabled, rule_truthy; cbn [snd];
            rewrite Edis, Epr; reflexivity).
      assert (Ht : triggers tagList (n, r) = false)
        by (unfold triggers, rule_enabled, rule_truthy; cbn [snd];
            rewrite Edis, Epr; reflexivity).
      assert (Hf : fails tagList (n, r) = true)
        by (unfold fails, rule_enabled, rule_raises; cbn [snd];
            rewrite Edis, Epr; reflexivity).
      rewrite Hs. cbn [filter]. rewrite Ht, Hf. cbn [map].
      unfold bind at 1. rewrite emit_run.
      rewrite IH by assumption.
      rewrite with_trace_app. reflexivity.
Qed.

Lemma get_triggered_rules_run tagList w :
  NoDup (map fst (rules config)) ->
  get_triggered_rules tagList w =
  (Ok (triggered_set tagList, discard_override tagList),
   with_trace w (matcher_reports tagList)).
Proof.
  intros Hnd. unfold get_triggered_rules.
  rewrite get_triggered_rules_loop_spec.
  - reflexivity.
  - intros n r Hin. apply dict_get_In; assumption.
  - exact Hnd.
  - intros n [].
Qed.

Lemma evaluated_incl tagList rs nr : In nr (evaluated tagList rs) -> In nr rs.
Proof.
  induction rs as [|a rs IH]; cbn [evaluated]; intros H.
  - exact H.
  - destruct (stops tagList a).
    + destruct H as [<-|[]]. left. reflexivity.
    + destruct H as [<-|H]; [left; reflexivity | right; apply IH; exact H].
Qed.

Lemma evaluated_stop tagList pre nr post :
  existsb (stops tagList) pre = false ->
  stops tagList nr = true ->
  evaluated tagList (pre ++ nr :: post) = (pre ++ [nr])%list
  /\ find (stops tagList) (pre ++ nr :: post) = Some nr.
Proof.
  intros Hpre Hnr. induction pre as [|a pre IH]; cbn [app evaluated find existsb] in *.
  - rewrite Hnr. split; reflexivity.
  - apply orb_false_elim in Hpre. destruct Hpre as [Ha Hpre]. rewrite Ha.
    destruct (IH Hpre) as [-> ->]. split; reflexivity.
Qed.

Lemma evaluated_all tagList rs :
  existsb (stops tagList) rs = false ->
  evaluated tagList rs = rs /\ find (stops tagList) rs = None.
Proof.
  induction rs as [|a rs IH]; cbn [evaluated find existsb]; intros H.
  - split; reflexivity.
  - apply orb_false_elim in H. destruct H as [Ha H]. rewrite Ha.
    destruct (IH H) as [-> ->]. split; reflexivity.
Qed.

Lemma triggered_set_iff tagList n :
  In n (triggered_set tagList) <->
  exists r, In (n, r) (evaluated tagList (rules config)) /\ triggers tagList (n, r) = true.
Proof.
  unfold triggered_set. rewrite in_map_iff. split.
  - intros [[n' r] [Hn Hin]]. cbn [fst] in Hn. subst n'.
    apply filter_In in Hin. exists r. exact Hin.
  - intros [r [Hin Ht]]. exists (n, r). split; [reflexivity|].
    apply filter_In. split; assumption.
Qed.

(** C3.  get_triggered_rules walks the rules table in configuration order.
    It returns, in that order, the names of the enabled rules whose
    predicate is truthy among the rules it reaches, and it reaches the rules
    up to and including the first enabled, truthy rule whose action is
    discard: that rule's name is the discard-override, and no rule behind
    it is evaluated (none of them triggers or is reported).  Without such a
    rule every rule is reached and the override is empty.  A rule whose
    [disabled] field is "True" never triggers.  A rule whose predicate
    raises is reported as invalid, does not trigger, and does not end the
    iteration. *)
Theorem get_triggered_rules_matches tagList w :
  NoDup (map fst (rules config)) ->
  get_triggered_rules tagList w =
    (Ok (triggered_set tagList, discard_override tagList),
     with_trace w (matcher_reports tagList))
  /\ (forall pre nr post,
        rules config = (pre ++ nr :: post)%list ->
        existsb (stops tagList) pre = false ->
        stops tagList nr = true ->
        evaluated tagList (rules config) = (pre ++ [nr])%list
        /\ discard_override tagList = fst nr)
  /\ (existsb (stops tagList) (rules config) = false ->
        evaluated tagList (rules config) = rules config
        /\ discard_override tagList = "")
  /\ (forall n, In n (triggered_set tagList) <->
        exists r, In (n, r) (evaluated tagList (rules config))
                  /\ rule_enabled r = true /\ rule_truthy tagList r = true)
  /\ (forall n r, In (n, r) (rules config) ->
        get (DISABLED r) "False" = "True" -> ~ In n (triggered_set tagList))
  /\ (forall n r, In (n, r) (evaluated tagList (rules config)) ->
        rule_enabled r = true -> rule_raises tagList r = true ->
        In (invalid_rule (n, r)) (matcher_reports tagList)
        /\ ~ In n (triggered_set tagList)
        /\ stops tagList (n, r) = false).
Proof.
  intros Hnd.
  assert (Huniq : forall n r r', In (n, r) (rules config) -> In (n, r') (rules config) -> r = r').
  { intros n r r' H1 H2.
    apply (dict_get_In _ _ _ Hnd) in H1. apply (dict_get_In _ _ _ Hnd) in H2.
    congruence. }
  split; [apply get_triggered_rules_run; exact Hnd|].
  split.
  { intros pre nr post Hrs Hpre Hnr. unfold discard_override. rewrite Hrs.
    destruct (evaluated_stop tagList pre nr post Hpre Hnr) as [-> ->].
    split; reflexivity. }
  split.
  { intros Hnone. unfold discard_override.
    destruct (evaluated_all tagList _ Hnone) as [-> ->]. split; reflexivity. }
  split.
  { intros n. rewrite triggered_set_iff. unfold triggers. cbn [snd].
    split; intros [r [Hin Ht]]; exists r; split; try assumption.
    - apply andb_prop in Ht. exact Ht.
    - destruct Ht as [-> ->]. reflexivity. }
  split.
  { intros n r Hin Hdis Htrig. apply triggered_set_iff in Htrig.
    destruct Htrig as [r' [Hin' Ht]]. apply evaluated_incl in Hin'.
    rewrite (Huniq n r r' Hin Hin') in Hdis.
    unfold triggers, rule_enabled in Ht. cbn [snd] in Ht. rewrite Hdis in Ht.
    discriminate. }
  intros n r Hin Hen Hraise.
  assert (Hnt : rule_truthy tagList r = false).
  { unfold rule_raises in Hraise. unfold rule_truthy.
    destruct (parse_rule ext (get (RULE r) "False") tagList) as [[|]|];
      [discriminate | reflexivity | reflexivity]. }
  split; [|split].
  - unfold matcher_reports. apply in_map. apply filter_In. split; [exact Hin|].
    unfold fails. cbn [snd]. rewrite Hen, Hraise. reflexivity.
  - intros Htrig. apply triggered_set_iff in Htrig.
    destruct Htrig as [r' [Hin' Ht]].
    rewrite <- (Huniq n r r' (evaluated_incl _ _ _ Hin) (evaluated_incl _ _ _ Hin')) in Ht.
    unfold triggers in Ht. cbn [snd] in Ht. rewrite Hnt in Ht.
    rewrite andb_false_r in Ht. discriminate.
  - unfold stops, triggers. cbn [snd]. rewrite Hnt. rewrite andb_false_r. reflexivity.
Qed.

(* =================================================================== *)
(** ** push_serieslevel_routing: collecting the targets *)
(* =================================================================== *)

Lemma routing_collect_run triggered_rules tags selected w :
  configured triggered_rules ->
  routing_collect triggered_rules tags selected w =
  (Ok (fold_left select (filter routes triggered_rules) selected),
   with_trace w (map webhook_of (filter routes triggered_rules))).
Proof.
  revert selected w. induction triggered_rules as [|n rest IH]; intros selected w Hc.
  - cbn. rewrite with_trace_nil. reflexivity.
  - destruct (configured_cons _ _ Hc) as [[r Hr] Hc'].
    cbn [routing_collect filter].
    rewrite (bind_ok _ _ _ _ _ (rules_get_run _ _ w Hr)).
    assert (Hrn : routes n =
                  String.eqb (get (ACTION_TRIGGER r) mercure_options.SERIES)
                             mercure_options.SERIES
                  && String.eqb (get (ACTION r) "") mercure_actions.ROUTE)
      by (unfold routes, is_series_rule_with; rewrite Hr; reflexivity).
    assert (Hsel : select selected n =
                   if PyStr.truthy (get (TARGET r) "")
                   then dict_set (get (TARGET r) "") n selected else selected)
      by (unfold select, target_of; rewrite Hr; reflexivity).
    rewrite Hrn.
    destruct (String.eqb (get (ACTION_TRIGGER r) mercure_options.SERIES)
                         mercure_options.SERIES); cbn [andb].
    + destruct (String.eqb (get (ACTION r) "") mercure_actions.ROUTE).
      * rewrite (bind_ok _ _ _ _ _ (trigger_run _ _ tags w Hr)).
        rewrite (IH _ _ Hc'). cbn [fold_left map].
        rewrite with_trace_app. rewrite Hsel. reflexivity.
      * apply IH. exact Hc'.
    + apply IH. exact Hc'.
Qed.

Lemma dict_mem_set {V} k k' (v : V) d :
  dict_mem k' (dict_set k v d) = String.eqb k' k || dict_mem k' d.
Proof.
  unfold dict_mem. induction d as [|[a b] d IH]; cbn [dict_set dict_get].
  - destruct (String.eqb k' k); reflexivity.
  - destruct (String.eqb_spec k a) as [->|Hka]; cbn [dict_get].
    + destruct (String.eqb k' a); reflexivity.
    + destruct (String.eqb_spec k' a) as [->|Hk'a].
      * destruct (String.eqb a k); reflexivity.
      * exact IH.
Qed.

Lemma fold_select_mem rules_left selected t :
  dict_mem t (fold_left select rules_left selected) = true <->
  dict_mem t selected = true
  \/ (t <> "" /\ exists n, In n rules_left /\ target_of n = t).
Proof.
  revert selected. induction rules_left as [|n rest IH]; intros selected; cbn [fold_left].
  - split; [intros H; left; exact H | intros [H|[_ [n [[] _]]]]; exact H].
  - rewrite IH. unfold select at 1.
    destruct (PyStr.truthy (target_of n)) eqn:Et.
    + rewrite dict_mem_set. split.
      * intros [H|[Hne [m [Hin Hm]]]].
        -- apply orb_prop in H. destruct H as [H|H]; [|left; exact H].
           apply String.eqb_eq in H. right. split.
           ++ intros ->. rewrite <- H in Et. discriminate.
           ++ exists n. split; [left; reflexivity | symmetry; exact H].
        -- right. split; [exact Hne|]. exists m. split; [right; exact Hin | exact Hm].
      * intros [H|[Hne [m [[<-|Hin] Hm]]]].
        -- left. rewrite H. apply orb_true_r.
        -- left. rewrite Hm. rewrite String.eqb_refl. reflexivity.
        -- right. split; [exact Hne|]. exists m. split; assumption.
    + split.
      * intros [H|[Hne [m [Hin Hm]]]]; [left; exact H|].
        right. split; [exact Hne|]. exists m. split; [right; exact Hin | exact Hm].
      * intros [H|[Hne [m [[<-|Hin] Hm]]]]; [left; exact H | |].
        -- exfalso. rewrite Hm in Et. destruct t; [apply Hne; reflexivity | discriminate].
        -- right. split; [exact Hne|]. exists m. split; assumption.
Qed.

(* =================================================================== *)
(** ** push_serieslevel_outgoing *)
(* =================================================================== *)

(** A target that is not configured is reported and skipped. *)
Lemma outgoing_loop_unknown s rest move_operation file_list uid tags lock_file w :
  known_target s = false ->
  outgoing_loop (s :: rest) move_operation file_list uid tags lock_file w =
  outgoing_loop rest move_operation file_list uid tags lock_file
                (with_trace w [invalid_target s]).
Proof.
  intros Hk. destruct s as [t rl]. cbn [outgoing_loop].
  unfold known_target in Hk. cbn [fst] in Hk. rewrite Hk. cbn [negb].
  unfold bind at 1. rewrite emit_run. reflexivity.
Qed.

Lemma present_add_dir w p : FS.present (add_dir w p) p = true.
Proof.
  unfold FS.present, FS.is_dir, add_dir. cbn [dirs files].
  destruct p as [|a p]; [apply orb_true_r|].
  unfold Path.mem. rewrite existsb_app. cbn [existsb]. unfold Path.eqb.
  destruct (list_eq_dec string_dec (a :: p) (a :: p)) as [_|Hne];
    [|exfalso; apply Hne; reflexivity].
  rewrite !orb_true_r. reflexivity.
Qed.

(** A configured target, before any lock file name has been bound: the
    folder is created, then the handler of the failing lock-path expression
    raises; when the folder cannot be created the function returns. *)
Lemma outgoing_loop_known s rest move_operation file_list uid tags w :
  known_target s = true ->
  outgoing_loop (s :: rest) move_operation file_list uid tags None w =
  if cannot_mkdir w (next_outgoing w)
  then (Ok tt, with_trace (next_uuid w)
                 [send_event ("Unable to create outgoing folder " ++ next_outgoing w)])
  else (Raise UnboundLocalError, add_dir (next_uuid w) (Path.split (next_outgoing w))).
Proof.
  intros Hk. destruct s as [t rl]. cbn [outgoing_loop].
  unfold known_target in Hk. cbn [fst] in Hk. rewrite Hk. cbn [negb].
  unfold bind at 1. rewrite uuid1_run.
  unfold bind at 1. unfold try_ at 1. rewrite mkdir_run.
  unfold cannot_mkdir, next_outgoing.
  change (FS.present (next_uuid w)) with (FS.present w).
  change (FS.is_dir (next_uuid w)) with (FS.is_dir w).
  destruct (FS.present w (Path.split (OUTGOING config ++ "/" ++ uuid_of ext (uuid_count w)))
            || negb (FS.is_dir w (Path.parent (Path.split
                 (OUTGOING config ++ "/" ++ uuid_of ext (uuid_count w)))))).
  - rewrite emit_run. reflexivity.
  - unfold bind at 1. rewrite exists_run. rewrite present_add_dir. cbn [negb].
    reflexivity.
Qed.

(** push_serieslevel_outgoing, in full: the unknown targets in front are
    reported; the first configured target ends the function. *)
Lemma outgoing_loop_run selected move_operation file_list uid tags w :
  outgoing_loop selected move_operation file_list uid tags None w =
  let w1 := with_trace w (map invalid_target (unknown_prefix selected)) in
  if existsb known_target selected
  then if cannot_mkdir w (next_outgoing w)
       then (Ok tt, with_trace (next_uuid w1)
                      [send_event ("Unable to create outgoing folder " ++ next_outgoing w)])
       else (Raise UnboundLocalError, add_dir (next_uuid w1) (Path.split (next_outgoing w)))
  else (Ok tt, w1).
Proof.
  revert w. induction selected as [|s rest IH]; intros w.
  - cbn. rewrite with_trace_nil. reflexivity.
  - cbn [existsb unknown_prefix]. destruct (known_target s) eqn:Hk.
    + rewrite (outgoing_loop_known _ _ _ _ _ _ _ Hk). cbn [orb map].
      rewrite with_trace_nil. reflexivity.
    + rewrite (outgoing_loop_unknown _ _ _ _ _ _ _ _ Hk). rewrite IH.
      cbn [orb map]. cbv zeta. rewrite with_trace_app. reflexivity.
Qed.

Lemma unknown_prefix_all selected :
  existsb known_target selected = false -> unknown_prefix selected = selected.
Proof.
  induction selected as [|s rest IH]; cbn [existsb unknown_prefix]; intros H.
  - reflexivity.
  - apply orb_false_elim in H. destruct H as [Hs H]. rewrite Hs, (IH H). reflexivity.
Qed.

Lemma push_serieslevel_routing_run triggered_rules file_list uid tags w :
  configured triggered_rules ->
  push_serieslevel_routing triggered_rules file_list uid tags w =
  push_serieslevel_outgoing triggered_rules file_list uid tags (selection triggered_rules)
                            (with_trace w (reception_webhooks triggered_rules)).
Proof.
  intros Hc. unfold push_serieslevel_routing.
  rewrite (bind_ok _ _ _ _ _ (routing_collect_run _ tags [] w Hc)). reflexivity.
Qed.

(** C10.  Collecting the targets fires the reception webhook of every
    triggered series-level route rule, once per rule and in the order of the
    triggered set, and nothing else happens during the collection.  The
    selected-targets map has a key exactly for the non-empty targets of
    those rules, so a rule with an empty target adds no entry and still
    fires its webhook.  Targets are validated only afterwards, by
    push_serieslevel_outgoing, in the world that already holds the
    webhooks: when none of the selected targets is configured, the webhooks
    have been fired and each target is reported, while no folder is created
    and no file is touched; in general a folder is created at most for the
    first configured target. *)
Theorem route_webhooks_precede_target_validation triggered_rules file_list uid tags w :
  configured triggered_rules ->
  routing_collect triggered_rules tags [] w =
    (Ok (selection triggered_rules),
     with_trace w (reception_webhooks triggered_rules))
  /\ (forall t, dict_mem t (selection triggered_rules) = true <->
        t <> "" /\ exists n, In n triggered_rules /\ routes n = true /\ target_of n = t)
  /\ push_serieslevel_routing triggered_rules file_list uid tags w =
     push_serieslevel_outgoing triggered_rules file_list uid tags
       (selection triggered_rules) (with_trace w (reception_webhooks triggered_rules))
  /\ (existsb known_target (selection triggered_rules) = false ->
      push_serieslevel_routing triggered_rules file_list uid tags w =
      (Ok tt, with_trace w (reception_webhooks triggered_rules
                              ++ map invalid_target (selection triggered_rules))%list))
  /\ (let w' := snd (push_serieslevel_routing triggered_rules file_list uid tags w) in
      files w' = files w
      /\ (exists later, trace w' = (trace w ++ reception_webhooks triggered_rules ++ later)%list)
      /\ (dirs w' = dirs w
          \/ existsb known_target (selection triggered_rules) = true
             /\ dirs w' = (dirs w ++ [Path.split (next_outgoing w)])%list)).
Proof.
  intros Hc.
  split; [apply routing_collect_run; exact Hc|].
  split.
  { intros t. unfold selection. rewrite fold_select_mem. split.
    - intros [H|[Hne [n [Hin Ht]]]]; [discriminate|].
      apply filter_In in Hin. destruct Hin as [Hin Hr].
      split; [exact Hne|]. exists n. repeat split; assumption.
    - intros [Hne [n [Hin [Hr Ht]]]]. right. split; [exact Hne|].
      exists n. split; [|exact Ht]. apply filter_In. split; assumption. }
  split; [apply push_serieslevel_routing_run; exact Hc|].
  split.
  { intros Hnone. rewrite (push_serieslevel_routing_run _ _ _ _ _ Hc).
    unfold push_serieslevel_outgoing. rewrite outgoing_loop_run. cbv zeta.
    rewrite Hnone. rewrite (unknown_prefix_all _ Hnone). rewrite with_trace_app.
    reflexivity. }
  rewrite (push_serieslevel_routing_run _ _ _ _ _ Hc).
  unfold push_serieslevel_outgoing. rewrite outgoing_loop_run. cbv zeta.
  destruct (existsb known_target (selection triggered_rules)).
  - destruct (cannot_mkdir _ _); cbn [snd].
    + split; [reflexivity|]. split.
      * eexists. cbn [trace with_trace next_uuid]. rewrite <- !app_assoc. reflexivity.
      * left. reflexivity.
    + split; [reflexivity|]. split.
      * eexists. cbn [trace with_trace next_uuid add_dir]. rewrite <- !app_assoc.
        reflexivity.
      * right. split; [reflexivity|]. reflexivity.
  - cbn [snd]. split; [reflexivity|]. split.
    + eexists. cbn [trace with_trace]. rewrite <- !app_assoc. reflexivity.
    + left. reflexivity.
Qed.

(* =================================================================== *)
(** ** push_serieslevel_processing: rules that are passed over, and a
       folder that cannot be created *)
(* =================================================================== *)

Lemma processes_eq n r :
  dict_get n (rules config) = Some r ->
  processes n =
  String.eqb (get (ACTION_TRIGGER r) mercure_options.SERIES) mercure_options.SERIES
  && (String.eqb (get (ACTION r) "") mercure_actions.PROCESS
      || String.eqb (get (ACTION r) "") mercure_actions.BOTH).
Proof.
  intros Hr. unfold processes, is_series_rule_with. rewrite Hr.
  destruct (String.eqb (get (ACTION_TRIGGER r) mercure_options.SERIES)
                       mercure_options.SERIES); reflexivity.
Qed.

Lemma processing_loop_skip pre rest triggered_rules file_list uid tags w :
  configured pre ->
  existsb processes pre = false ->
  processing_loop (pre ++ rest) triggered_rules file_list uid tags w =
  processing_loop rest triggered_rules file_list uid tags w.
Proof.
  induction pre as [|n pre IH]; intros Hc Hnone.
  - reflexivity.
  - destruct (configured_cons _ _ Hc) as [[r Hr] Hc'].
    cbn [existsb] in Hnone. apply orb_false_elim in Hnone. destruct Hnone as [Hn Hnone].
    cbn [app processing_loop].
    rewrite (bind_ok _ _ _ _ _ (rules_get_run _ _ w Hr)).
    rewrite (processes_eq _ _ Hr) in Hn.
    destruct (String.eqb (get (ACTION_TRIGGER r) mercure_options.SERIES)
                         mercure_options.SERIES); cbn [andb] in Hn.
    + rewrite Hn. apply IH; assumption.
    + apply IH; assumption.
Qed.

Lemma processing_loop_mkdir_fails n rest triggered_rules file_list uid tags w :
  configured [n] ->
  processes n = true ->
  cannot_mkdir w (next_processing w) = true ->
  processing_loop (n :: rest) triggered_rules file_list uid tags w =
  (Ok false,
   with_trace (next_uuid w)
     [send_event ("Unable to create processing folder " ++ next_processing w)]).
Proof.
  intros Hc Hp Hm. destruct (configured_cons _ _ Hc) as [[r Hr] _].
  cbn [processing_loop].
  rewrite (bind_ok _ _ _ _ _ (rules_get_run _ _ w Hr)).
  rewrite (processes_eq _ _ Hr) in Hp. apply andb_prop in Hp. destruct Hp as [-> ->].
  unfold bind at 1. rewrite uuid1_run.
  unfold bind at 1. unfold try_ at 1. rewrite mkdir_run.
  unfold cannot_mkdir, next_processing in Hm.
  change (FS.present (next_uuid w)) with (FS.present w).
  change (FS.is_dir (next_uuid w)) with (FS.is_dir w).
  rewrite Hm. unfold bind. rewrite emit_run. reflexivity.
Qed.

(** The three steps of push_series_serieslevel run one after the other;
    the results of the first two are not looked at. *)
Lemma push_series_serieslevel_steps triggered_rules file_list uid tags w w1 b w2 :
  push_serieslevel_routing triggered_rules file_list uid tags w = (Ok tt, w1) ->
  push_serieslevel_processing triggered_rules file_list uid tags w1 = (Ok b, w2) ->
  push_series_serieslevel triggered_rules file_list uid tags w =
  match push_serieslevel_notification triggered_rules file_list uid tags w2 with
  | (Ok _, w3) => (Ok tt, w3)
  | (Raise e, w3) => (Raise e, w3)
  end.
Proof.
  intros Hr Hp. unfold push_series_serieslevel.
  rewrite (bind_ok _ _ _ _ _ Hr). rewrite (bind_ok _ _ _ _ _ Hp).
  unfold bind, ret.
  destruct (push_serieslevel_notification triggered_rules file_list uid tags w2) as [[]?];
    reflexivity.
Qed.

(** X28 (push_serieslevel_outgoing, lines 381-395, and
    push_serieslevel_processing, lines 302-321).  A selected target that
    is not in the targets table adds its error report and nothing else:
    push_serieslevel_outgoing goes on with the remaining targets as it
    would in the world with that report.  When the outgoing folder of a
    configured target cannot be created, push_serieslevel_outgoing reports
    it and returns, the remaining targets left untried; when the
    processing folder of the first processing rule cannot be created,
    push_serieslevel_processing reports it and returns [False]. *)
Theorem serieslevel_failures_stay_local triggered_rules file_list uid tags :
  (forall s rest w,
      known_target s = false ->
      push_serieslevel_outgoing triggered_rules file_list uid tags (s :: rest) w =
      push_serieslevel_outgoing triggered_rules file_list uid tags rest
                                (with_trace w [invalid_target s]))
  /\ (forall s rest w,
      known_target s = true ->
      cannot_mkdir w (next_outgoing w) = true ->
      push_serieslevel_outgoing triggered_rules file_list uid tags (s :: rest) w =
      (Ok tt, with_trace (next_uuid w)
                [send_event ("Unable to create outgoing folder " ++ next_outgoing w)]))
  /\ (forall pre n rest w,
      triggered_rules = (pre ++ n :: rest)%list ->
      configured (pre ++ [n]) ->
      existsb processes pre = false ->
      processes n = true ->
      cannot_mkdir w (next_processing w) = true ->
      push_serieslevel_processing triggered_rules file_list uid tags w =
      (Ok false, with_trace (next_uuid w)
                   [send_event ("Unable to create processing folder "
                                  ++ next_processing w)])).
Proof.
  split; [|split].
  - intros s rest w Hk. unfold push_serieslevel_outgoing.
    apply outgoing_loop_unknown. exact Hk.
  - intros s rest w Hk Hm. unfold push_serieslevel_outgoing.
    rewrite (outgoing_loop_known _ _ _ _ _ _ _ Hk). rewrite Hm. reflexivity.
  - intros pre n rest w -> Hc Hnone Hp Hm. unfold push_serieslevel_processing.
    rewrite processing_loop_skip.
    + apply processing_loop_mkdir_fails; try assumption.
      intros m [<-|[]]. apply Hc. apply in_or_app. right. left. reflexivity.
    + intros m Hin. apply Hc. apply in_or_app. left. exact Hin.
    + exact Hnone.
Qed.

(* =================================================================== *)
(** ** Strings and paths *)
(* =================================================================== *)

Lemma append_assoc (a b c : string) : (a ++ b) ++ c = a ++ (b ++ c).
Proof. induction a as [|x a IH]; cbn [append]; [reflexivity | rewrite IH; reflexivity]. Qed.

Lemma append_nil_r (a : string) : a ++ "" = a.
Proof. induction a as [|x a IH]; cbn [append]; [reflexivity | rewrite IH; reflexivity]. Qed.

Lemma length_append (a b : string) :
  String.length (a ++ b) = String.length a + String.length b.
Proof. induction a as [|x a IH]; cbn [append String.length plus]; [reflexivity | rewrite IH; reflexivity]. Qed.

Lemma append_inv_r (a b s : string) : a ++ s = b ++ s -> a = b.
Proof.
  revert b. induction a as [|x a IH]; intros [|y b] H; cbn [append] in H.
  - reflexivity.
  - exfalso. apply (f_equal String.length) in H. cbn [String.length] in H.
    rewrite length_append in H. lia.
  - exfalso. apply (f_equal String.length) in H. cbn [String.length] in H.
    rewrite length_append in H. lia.
  - injection H as -> H. rewrite (IH b H). reflexivity.
Qed.

Lemma last_char_append (a b : string) :
  b <> "" -> last_char (a ++ b) = last_char b.
Proof.
  intros Hb. induction a as [|x a IH]; cbn [append].
  - reflexivity.
  - cbn [last_char]. rewrite IH. destruct (a ++ b) eqn:E; [|reflexivity].
    destruct a; cbn [append] in E; [contradiction | discriminate].
Qed.

Lemma no_slash_append (a b : string) :
  Path.no_slash (a ++ b) = Path.no_slash a && Path.no_slash b.
Proof.
  induction a as [|x a IH]; cbn [append Path.no_slash]; [reflexivity|].
  rewrite IH. rewrite andb_assoc. reflexivity.
Qed.

Lemma truthy_append_r (a b : string) : PyStr.truthy b = true -> PyStr.truthy (a ++ b) = true.
Proof. destruct a; cbn [append PyStr.truthy]; [intros H; exact H | reflexivity]. Qed.

Lemma split_aux_join (a b cur : string) :
  Path.split_aux (a ++ String Path.slash b) cur = (Path.split_aux a cur ++ Path.split b)%list.
Proof.
  revert cur. induction a as [|x a IH]; intros cur; cbn [append Path.split_aux].
  - rewrite Ascii.eqb_refl. unfold Path.split.
    destruct (PyStr.truthy cur); reflexivity.
  - destruct (Ascii.eqb x Path.slash).
    + destruct (PyStr.truthy cur); rewrite IH; reflexivity.
    + apply IH.
Qed.

Lemma split_aux_component (n cur : string) :
  Path.no_slash n = true -> PyStr.truthy (cur ++ n) = true ->
  Path.split_aux n cur = [cur ++ n].
Proof.
  revert cur. induction n as [|x n IH]; intros cur Hn Ht; cbn [Path.split_aux].
  - rewrite append_nil_r in *. rewrite Ht. reflexivity.
  - cbn [Path.no_slash] in Hn. apply andb_prop in Hn. destruct Hn as [Hx Hn].
    apply negb_true_iff in Hx. rewrite Hx.
    rewrite IH.
    + rewrite append_assoc. reflexivity.
    + exact Hn.
    + rewrite append_assoc. exact Ht.
Qed.

Lemma split_component (n : string) : Path.component n = true -> Path.split n = [n].
Proof.
  unfold Path.component. intros H. apply andb_prop in H. destruct H as [Ht Hn].
  unfold Path.split. rewrite split_aux_component; [reflexivity | exact Hn | exact Ht].
Qed.

Lemma split_join (a b : string) :
  Path.split (a ++ "/" ++ b) = (Path.split a ++ Path.split b)%list.
Proof. unfold Path.split at 1. apply split_aux_join. Qed.


(** A folder name with a trailing slash, followed by a file name. *)
Lemma split_in_folder (folder n : string) :
  Path.component n = true ->
  Path.split ((folder ++ "/") ++ n) = (Path.split folder ++ [n])%list.
Proof.
  intros Hn. rewrite append_assoc. rewrite split_join. rewrite (split_component _ Hn).
  reflexivity.
Qed.

Lemma split_trailing (folder : string) : Path.split (folder ++ "/") = Path.split folder.
Proof.
  replace (folder ++ "/") with (folder ++ "/" ++ "") by reflexivity.
  rewrite split_join. cbn. apply app_nil_r.
Qed.

Lemma split_child (folder n : string) :
  Path.component n = true ->
  Path.split (folder ++ "/" ++ n) = (Path.split folder ++ [n])%list.
Proof. intros Hn. rewrite split_join. rewrite (split_component _ Hn). reflexivity. Qed.

Lemma parent_child (p : Path.t) (n : string) : Path.parent (p ++ [n])%list = p.
Proof. unfold Path.parent. apply removelast_last. Qed.

Lemma component_with (e suffix : string) :
  Path.no_slash e = true -> Path.component suffix = true ->
  Path.component (e ++ suffix) = true.
Proof.
  unfold Path.component. intros He Hs. apply andb_prop in Hs. destruct Hs as [Ht Hn].
  rewrite no_slash_append, He, Hn. rewrite (truthy_append_r _ _ Ht). reflexivity.
Qed.

Lemma eqb_eq (p q : Path.t) : Path.eqb p q = true <-> p = q.
Proof.
  unfold Path.eqb. destruct (list_eq_dec string_dec p q); split; intros H;
    try reflexivity; try assumption; try discriminate; contradiction.
Qed.

Lemma eqb_refl (p : Path.t) : Path.eqb p p = true.
Proof. apply eqb_eq. reflexivity. Qed.

Lemma eqb_neq (p q : Path.t) : Path.eqb p q = false <-> p <> q.
Proof.
  unfold Path.eqb. destruct (list_eq_dec string_dec p q); split; intros H;
    try reflexivity; try assumption; try discriminate; contradiction.
Qed.

Lemma eqb_sym (p q : Path.t) : Path.eqb p q = Path.eqb q p.
Proof.
  destruct (Path.eqb q p) eqn:E.
  - apply eqb_eq in E. subst. apply eqb_refl.
  - apply eqb_neq in E. apply eqb_neq. intros H. apply E. symmetry. exact H.
Qed.

Lemma mem_app (p : Path.t) (l l' : list Path.t) :
  Path.mem p (l ++ l') = Path.mem p l || Path.mem p l'.
Proof. unfold Path.mem. apply existsb_app. Qed.

Lemma mem_add (p q : Path.t) (l : list Path.t) :
  Path.mem p (Path.add q l) = Path.eqb p q || Path.mem p l.
Proof.
  unfold Path.add. destruct (Path.mem q l) eqn:E.
  - destruct (Path.eqb p q) eqn:Epq; [|reflexivity].
    apply eqb_eq in Epq. subst. rewrite E. reflexivity.
  - rewrite mem_app. unfold Path.mem at 2. cbn [existsb].
    rewrite orb_false_r. apply orb_comm.
Qed.

Lemma mem_remove (p q : Path.t) (l : list Path.t) :
  Path.mem p (Path.remove q l) = negb (Path.eqb q p) && Path.mem p l.
Proof.
  unfold Path.remove, Path.mem. induction l as [|a l IH]; cbn [filter existsb].
  - rewrite andb_false_r. reflexivity.
  - destruct (Path.eqb q a) eqn:Eqa; cbn [negb].
    + rewrite IH. apply eqb_eq in Eqa. subst a.
      rewrite (eqb_sym p q). destruct (Path.eqb q p); reflexivity.
    + cbn [existsb]. rewrite IH.
      destruct (Path.eqb p a) eqn:Epa.
      * apply eqb_eq in Epa. subst a. rewrite Eqa. reflexivity.
      * destruct (Path.eqb q p); reflexivity.
Qed.

Lemma component_dcm : Path.component mercure_names.DCM = true.
Proof. reflexivity. Qed.

Lemma component_tags : Path.component mercure_names.TAGS = true.
Proof. reflexivity. Qed.

Lemma dcm_name_inj (e e' : string) :
  e ++ mercure_names.DCM = e' ++ mercure_names.DCM -> e = e'.
Proof. apply append_inv_r. Qed.

Lemma tags_name_inj (e e' : string) :
  e ++ mercure_names.TAGS = e' ++ mercure_names.TAGS -> e = e'.
Proof. apply append_inv_r. Qed.

Lemma dcm_name_not_tags (e e' : string) :
  e ++ mercure_names.DCM <> e' ++ mercure_names.TAGS.
Proof.
  intros H. apply (f_equal last_char) in H.
  rewrite !last_char_append in H by discriminate. discriminate.
Qed.

Lemma child_inj (p q : Path.t) (n m : string) :
  (p ++ [n])%list = (q ++ [m])%list -> p = q /\ n = m.
Proof. apply app_inj_tail. Qed.

Lemma is_dir_child w (p : Path.t) (n : string) :
  FS.is_dir w (p ++ [n])%list = Path.mem (p ++ [n])%list (dirs w).
Proof. unfold FS.is_dir. destruct p; reflexivity. Qed.

(** *** Membership after a pair, or all pairs, have been transferred *)

Lemma mem_move_pair S T fs e f :
  Path.mem f (move_pair S T fs e) =
  Path.eqb f (tags_in T e)
  || negb (Path.eqb (tags_in S e) f)
     && (Path.eqb f (dcm_in T e) || negb (Path.eqb (dcm_in S e) f) && Path.mem f fs).
Proof. unfold move_pair. rewrite !mem_add, !mem_remove, mem_add, mem_remove. reflexivity. Qed.

Lemma mem_copy_pair T fs e f :
  Path.mem f (copy_pair T fs e) =
  Path.eqb f (tags_in T e) || (Path.eqb f (dcm_in T e) || Path.mem f fs).
Proof. unfold copy_pair. rewrite !mem_add. reflexivity. Qed.

Lemma mem_remove_pair S fs e f :
  Path.mem f (remove_pair S fs e) =
  negb (Path.eqb (dcm_in S e) f) && (negb (Path.eqb (tags_in S e) f) && Path.mem f fs).
Proof. unfold remove_pair. rewrite !mem_remove. reflexivity. Qed.

Lemma in_pairs_cons F e l f :
  in_pairs F (e :: l) f =
  (Path.eqb f (dcm_in F e) || Path.eqb f (tags_in F e)) || in_pairs F l f.
Proof. reflexivity. Qed.

Lemma in_pairs_true F l f :
  in_pairs F l f = true <-> exists e, In e l /\ (f = dcm_in F e \/ f = tags_in F e).
Proof.
  unfold in_pairs. rewrite existsb_exists. split; intros [e [Hin H]]; exists e; split;
    try exact Hin.
  - apply orb_prop in H. destruct H as [H|H]; apply eqb_eq in H; [left|right]; exact H.
  - destruct H as [->| ->]; rewrite eqb_refl; [reflexivity | apply orb_true_r].
Qed.

Lemma in_pairs_parent F l f : in_pairs F l f = true -> Path.parent f = F /\ f <> [].
Proof.
  intros H. apply in_pairs_true in H. destruct H as [e [_ [->| ->]]];
    unfold dcm_in, tags_in; rewrite parent_child; split; try reflexivity;
    intros E; apply app_eq_nil in E; destruct E; discriminate.
Qed.

Lemma in_pairs_other_folder S T l l' f :
  S <> T -> in_pairs T l f = true -> in_pairs S l' f = false.
Proof.
  intros HST HT. destruct (in_pairs S l' f) eqn:HS; [|reflexivity].
  apply in_pairs_parent in HT. apply in_pairs_parent in HS.
  exfalso. apply HST. destruct HT as [<- _]. destruct HS as [<- _]. reflexivity.
Qed.

Lemma mem_copy_all T l fs f :
  Path.mem f (fold_left (copy_pair T) l fs) = in_pairs T l f || Path.mem f fs.
Proof.
  revert fs. induction l as [|e l IH]; intros fs; cbn [fold_left].
  - reflexivity.
  - rewrite IH, mem_copy_pair, in_pairs_cons.
    destruct (in_pairs T l f), (Path.eqb f (dcm_in T e)), (Path.eqb f (tags_in T e)),
      (Path.mem f fs); reflexivity.
Qed.

Lemma mem_remove_all S l fs f :
  Path.mem f (fold_left (remove_pair S) l fs) = Path.mem f fs && negb (in_pairs S l f).
Proof.
  revert fs. induction l as [|e l IH]; intros fs; cbn [fold_left].
  - cbn. rewrite andb_true_r. reflexivity.
  - rewrite IH, mem_remove_pair, in_pairs_cons.
    rewrite (eqb_sym (dcm_in S e) f), (eqb_sym (tags_in S e) f).
    destruct (in_pairs S l f), (Path.eqb f (dcm_in S e)), (Path.eqb f (tags_in S e)),
      (Path.mem f fs); reflexivity.
Qed.

Lemma mem_move_all S T l fs f :
  S <> T ->
  Path.mem f (fold_left (move_pair S T) l fs) =
  in_pairs T l f || (Path.mem f fs && negb (in_pairs S l f)).
Proof.
  intros HST. revert fs. induction l as [|e l IH]; intros fs; cbn [fold_left].
  - cbn. rewrite andb_true_r. reflexivity.
  - rewrite IH, mem_move_pair, !in_pairs_cons.
    rewrite (eqb_sym (dcm_in S e) f), (eqb_sym (tags_in S e) f).
    destruct (in_pairs T l f) eqn:HTl.
    { rewrite orb_true_r. reflexivity. }
    destruct (Path.eqb f (tags_in T e)) eqn:HtT.
    { assert (HS : in_pairs S l f = false).
      { apply (in_pairs_other_folder S T [e] l f HST).
        rewrite in_pairs_cons, HtT. rewrite orb_true_r. reflexivity. }
      rewrite HS. rewrite !orb_true_r. reflexivity. }
    destruct (Path.eqb f (dcm_in T e)) eqn:HdT.
    { assert (HS : in_pairs S (e :: l) f = false).
      { apply (in_pairs_other_folder S T [e] (e :: l) f HST).
        rewrite in_pairs_cons, HdT. reflexivity. }
      rewrite in_pairs_cons in HS.
      apply orb_false_elim in HS. destruct HS as [HS1 HS2].
      apply orb_false_elim in HS1. destruct HS1 as [Hd Ht].
      rewrite Hd, Ht, HS2. reflexivity. }
    cbn [orb].
    destruct (Path.eqb f (dcm_in S e)), (Path.eqb f (tags_in S e)), (Path.mem f fs),
      (in_pairs S l f); reflexivity.
Qed.

(* =================================================================== *)
(** ** Transferring the pairs of a series from one folder to another *)
(* =================================================================== *)

Lemma dcm_in_not_tags_in F e e' : dcm_in F e <> tags_in F e'.
Proof.
  unfold dcm_in, tags_in. intros H. apply child_inj in H. destruct H as [_ H].
  exact (dcm_name_not_tags _ _ H).
Qed.

Lemma dcm_in_inj F e e' : dcm_in F e = dcm_in F e' -> e = e'.
Proof.
  unfold dcm_in. intros H. apply child_inj in H. destruct H as [_ H].
  exact (dcm_name_inj _ _ H).
Qed.

Lemma tags_in_inj F e e' : tags_in F e = tags_in F e' -> e = e'.
Proof.
  unfold tags_in. intros H. apply child_inj in H. destruct H as [_ H].
  exact (tags_name_inj _ _ H).
Qed.

Lemma pair_ready_elim S T w e :
  pair_ready S T w e = true ->
  Path.no_slash e = true
  /\ Path.mem (dcm_in S e) (files w) = true
  /\ Path.mem (tags_in S e) (files w) = true
  /\ Path.mem (dcm_in T e) (dirs w) = false
  /\ Path.mem (tags_in T e) (dirs w) = false.
Proof.
  unfold pair_ready. intros H.
  apply andb_prop in H. destruct H as [H H5].
  apply andb_prop in H. destruct H as [H H4].
  apply andb_prop in H. destruct H as [H H3].
  apply andb_prop in H. destruct H as [H1 H2].
  apply negb_true_iff in H4. apply negb_true_iff in H5.
  repeat split; assumption.
Qed.

Lemma is_dir_dcm_in w F e : FS.is_dir w (dcm_in F e) = Path.mem (dcm_in F e) (dirs w).
Proof. apply is_dir_child. Qed.

Lemma is_dir_tags_in w F e : FS.is_dir w (tags_in F e) = Path.mem (tags_in F e) (dirs w).
Proof. apply is_dir_child. Qed.

Lemma parent_dcm_in F e : Path.parent (dcm_in F e) = F.
Proof. apply parent_child. Qed.

Lemma parent_tags_in F e : Path.parent (tags_in F e) = F.
Proof. apply parent_child. Qed.

Lemma is_dir_set_files w fs p : FS.is_dir (set_files w fs) p = FS.is_dir w p.
Proof. reflexivity. Qed.

Section Transfer.

Variables (sf tf : string) (S T : Path.t).
Hypothesis Hsf : forall n, Path.component n = true -> Path.split (sf ++ n) = (S ++ [n])%list.
Hypothesis Htf : forall n, Path.component n = true -> Path.split (tf ++ n) = (T ++ [n])%list.
Hypothesis HST : S <> T.

Lemma split_source_dcm e : Path.no_slash e = true ->
  Path.split (sf ++ e ++ mercure_names.DCM) = dcm_in S e.
Proof. intros He. apply Hsf. apply component_with; [exact He | reflexivity]. Qed.

Lemma split_source_tags e : Path.no_slash e = true ->
  Path.split (sf ++ e ++ mercure_names.TAGS) = tags_in S e.
Proof. intros He. apply Hsf. apply component_with; [exact He | reflexivity]. Qed.

Lemma split_target_dcm e : Path.no_slash e = true ->
  Path.split (tf ++ e ++ mercure_names.DCM) = dcm_in T e.
Proof. intros He. apply Htf. apply component_with; [exact He | reflexivity]. Qed.

Lemma split_target_tags e : Path.no_slash e = true ->
  Path.split (tf ++ e ++ mercure_names.TAGS) = tags_in T e.
Proof. intros He. apply Htf. apply component_with; [exact He | reflexivity]. Qed.

Lemma transfer_move_run e w :
  pair_ready S T w e = true -> FS.is_dir w T = true ->
  transfer_pair FS.move sf tf e w = (Ok tt, set_files w (move_pair S T (files w) e)).
Proof.
  intros Hr HT. destruct (pair_ready_elim _ _ _ _ Hr) as (He & Hd & Ht & Hnd & Hnt).
  unfold transfer_pair. unfold bind. rewrite move_run.
  rewrite (split_source_dcm _ He), (split_target_dcm _ He).
  unfold FS.is_file. rewrite Hd.
  rewrite is_dir_dcm_in, parent_dcm_in, Hnd, HT. cbn [negb orb].
  rewrite move_run.
  rewrite (split_source_tags _ He), (split_target_tags _ He).
  unfold FS.is_file. cbn [files set_files].
  rewrite mem_add, mem_remove.
  assert (E1 : Path.eqb (dcm_in S e) (tags_in S e) = false)
    by (apply eqb_neq; apply dcm_in_not_tags_in).
  rewrite E1, Ht. cbn [negb andb]. rewrite orb_true_r.
  rewrite is_dir_tags_in, parent_tags_in, is_dir_set_files.
  change (dirs (set_files w _)) with (dirs w).
  rewrite Hnt, HT. reflexivity.
Qed.

Lemma transfer_copy_run e w :
  pair_ready S T w e = true -> FS.is_dir w T = true ->
  transfer_pair FS.copy sf tf e w = (Ok tt, set_files w (copy_pair T (files w) e)).
Proof.
  intros Hr HT. destruct (pair_ready_elim _ _ _ _ Hr) as (He & Hd & Ht & Hnd & Hnt).
  unfold transfer_pair. unfold bind. rewrite copy_run.
  rewrite (split_source_dcm _ He), (split_target_dcm _ He).
  unfold FS.is_file. rewrite Hd.
  rewrite is_dir_dcm_in, parent_dcm_in, Hnd, HT. cbn [negb orb].
  rewrite copy_run.
  rewrite (split_source_tags _ He), (split_target_tags _ He).
  unfold FS.is_file. cbn [files set_files].
  rewrite mem_add, Ht. rewrite orb_true_r.
  rewrite is_dir_tags_in, parent_tags_in, is_dir_set_files.
  change (dirs (set_files w _)) with (dirs w).
  rewrite Hnt, HT. reflexivity.
Qed.

Lemma set_files_id w : set_files w (files w) = w.
Proof. destruct w; reflexivity. Qed.

Lemma mem_move_pair_keep f fs e :
  Path.mem f fs = true -> f <> dcm_in S e -> f <> tags_in S e ->
  Path.mem f (move_pair S T fs e) = true.
Proof.
  intros Hm Hd Ht. rewrite mem_move_pair, Hm.
  rewrite (proj2 (eqb_neq (tags_in S e) f)) by (intros E; apply Ht; symmetry; exact E).
  rewrite (proj2 (eqb_neq (dcm_in S e) f)) by (intros E; apply Hd; symmetry; exact E).
  cbn [negb andb]. rewrite !orb_true_r. reflexivity.
Qed.

Lemma pair_ready_after_move e e' w :
  e <> e' -> pair_ready S T w e' = true ->
  pair_ready S T (set_files w (move_pair S T (files w) e)) e' = true.
Proof.
  intros Hne Hr. destruct (pair_ready_elim _ _ _ _ Hr) as (He & Hd & Ht & Hnd & Hnt).
  unfold pair_ready. cbn [files dirs set_files].
  rewrite He, Hnd, Hnt.
  rewrite (mem_move_pair_keep _ _ _ Hd).
  - rewrite (mem_move_pair_keep _ _ _ Ht).
    + reflexivity.
    + intros E. symmetry in E. exact (dcm_in_not_tags_in _ _ _ E).
    + intros E. apply tags_in_inj in E. apply Hne. symmetry. exact E.
  - intros E. apply dcm_in_inj in E. apply Hne. symmetry. exact E.
  - apply dcm_in_not_tags_in.
Qed.

Lemma pair_ready_after_copy e e' w :
  pair_ready S T w e' = true ->
  pair_ready S T (set_files w (copy_pair T (files w) e)) e' = true.
Proof.
  intros Hr. destruct (pair_ready_elim _ _ _ _ Hr) as (He & Hd & Ht & Hnd & Hnt).
  unfold pair_ready. cbn [files dirs set_files].
  rewrite He, Hnd, Hnt. rewrite !mem_copy_pair, Hd, Ht. rewrite !orb_true_r. reflexivity.
Qed.

Lemma forallb_ready_after_move e l w :
  ~ In e l -> forallb (pair_ready S T w) l = true ->
  forallb (pair_ready S T (set_files w (move_pair S T (files w) e))) l = true.
Proof.
  intros Hnin H. rewrite forallb_forall in *. intros e' Hin.
  apply pair_ready_after_move; [|apply H; exact Hin].
  intros ->. apply Hnin. exact Hin.
Qed.

Lemma forallb_ready_after_copy e l w :
  forallb (pair_ready S T w) l = true ->
  forallb (pair_ready S T (set_files w (copy_pair T (files w) e))) l = true.
Proof.
  intros H. rewrite forallb_forall in *. intros e' Hin.
  apply pair_ready_after_copy. apply H. exact Hin.
Qed.

(** push_files with move semantics, when every pair is ready. *)
Lemma push_files_loop_move l w :
  NoDup l -> forallb (pair_ready S T w) l = true -> FS.is_dir w T = true ->
  push_files_loop FS.move sf tf l w =
  (Ok true, set_files w (fold_left (move_pair S T) l (files w))).
Proof.
  revert w. induction l as [|e l IH]; intros w Hnd Hr HT.
  - cbn. rewrite set_files_id. reflexivity.
  - cbn [forallb] in Hr. apply andb_prop in Hr. destruct Hr as [Hre Hr].
    inversion Hnd as [|? ? Hnin Hnd']; subst.
    cbn [push_files_loop fold_left].
    rewrite (bind_ok _ _ _ _ _ (try_ok _ _ _ _ (transfer_move_run e w Hre HT))).
    rewrite IH.
    + reflexivity.
    + exact Hnd'.
    + apply forallb_ready_after_move; assumption.
    + exact HT.
Qed.

(** push_files with copy semantics, when every pair is ready. *)
Lemma push_files_loop_copy l w :
  forallb (pair_ready S T w) l = true -> FS.is_dir w T = true ->
  push_files_loop FS.copy sf tf l w =
  (Ok true, set_files w (fold_left (copy_pair T) l (files w))).
Proof.
  revert w. induction l as [|e l IH]; intros w Hr HT.
  - cbn. rewrite set_files_id. reflexivity.
  - cbn [forallb] in Hr. apply andb_prop in Hr. destruct Hr as [Hre Hr].
    cbn [push_files_loop fold_left].
    rewrite (bind_ok _ _ _ _ _ (try_ok _ _ _ _ (transfer_copy_run e w Hre HT))).
    rewrite IH.
    + reflexivity.
    + apply forallb_ready_after_copy; assumption.
    + exact HT.
Qed.


End Transfer.

(* =================================================================== *)
(** ** One processing rule stages the series *)
(* =================================================================== *)

Lemma wf_fs_elim w p :
  wf_fs w = true -> FS.present w p = true -> p <> [] -> FS.is_dir w (Path.parent p) = true.
Proof.
  unfold wf_fs, FS.present, FS.is_file. intros Hwf Hp Hne.
  rewrite forallb_forall in Hwf. apply Hwf.
  apply orb_prop in Hp. apply in_or_app. destruct Hp as [Hp|Hp].
  - left. unfold Path.mem in Hp. apply existsb_exists in Hp.
    destruct Hp as [q [Hin Hq]]. apply eqb_eq in Hq. subst. exact Hin.
  - right. destruct p as [|a p]; [contradiction|]. cbn [FS.is_dir] in Hp.
    unfold Path.mem in Hp. apply existsb_exists in Hp.
    destruct Hp as [q [Hin Hq]]. apply eqb_eq in Hq. subst. exact Hin.
Qed.

(** Nothing lies inside a folder that does not exist. *)
Lemma fresh_child w (T : Path.t) (x : string) :
  wf_fs w = true -> FS.is_dir w T = false -> FS.present w (T ++ [x])%list = false.
Proof.
  intros Hwf HT. destruct (FS.present w (T ++ [x])%list) eqn:E; [|reflexivity].
  apply (wf_fs_elim _ _ Hwf) in E.
  - rewrite parent_child in E. congruence.
  - intros H. apply app_eq_nil in H. destruct H; discriminate.
Qed.

Lemma present_false w p :
  FS.present w p = false -> Path.mem p (files w) = false /\ FS.is_dir w p = false.
Proof. unfold FS.present, FS.is_file. apply orb_false_elim. Qed.

Lemma mem_snoc_other (p q : Path.t) (l : list Path.t) :
  p <> q -> Path.mem p (l ++ [q]) = Path.mem p l.
Proof.
  intros Hne. rewrite mem_app. unfold Path.mem at 2. cbn [existsb].
  rewrite (proj2 (eqb_neq p q) Hne). rewrite !orb_false_r. reflexivity.
Qed.

Lemma mem_snoc_same (p : Path.t) (l : list Path.t) : Path.mem p (l ++ [p]) = true.
Proof.
  rewrite mem_app. unfold Path.mem at 2. cbn [existsb]. rewrite eqb_refl.
  rewrite orb_true_r. reflexivity.
Qed.

Lemma child_not_self (T : Path.t) (x : string) : (T ++ [x])%list <> T.
Proof.
  intros H. apply (f_equal (@length string)) in H. rewrite length_app in H.
  cbn [length] in H. lia.
Qed.

Lemma split_staging w :
  Path.component (uuid_of ext (uuid_count w)) = true ->
  Path.split (next_processing w) = staging w.
Proof. intros Hc. unfold next_processing, staging. apply split_child. exact Hc. Qed.

Lemma split_incoming_file n :
  Path.component n = true ->
  Path.split ((INCOMING config ++ "/") ++ n) = (incoming_path ++ [n])%list.
Proof. apply split_in_folder. Qed.

Lemma split_staging_file w n :
  Path.component (uuid_of ext (uuid_count w)) = true ->
  Path.component n = true ->
  Path.split (((next_processing w ++ "/") ++ "/") ++ n) = (staging w ++ [n])%list.
Proof.
  intros Hu Hn. rewrite split_in_folder by exact Hn.
  rewrite split_trailing, split_staging by exact Hu. reflexivity.
Qed.

Lemma scope_run {A} lock (body : M A) w r w' :
  body w = (r, w') ->
  FileLock.scope lock body w =
  (r, set_files w' (Path.remove (Path.split lock) (files w'))).
Proof. intros H. unfold FileLock.scope. rewrite H. reflexivity. Qed.

Lemma acquire_run s w :
  FS.present w (Path.split s) = false ->
  FS.is_dir w (Path.parent (Path.split s)) = true ->
  FileLock.acquire s w = (Ok s, set_files w (Path.add (Path.split s) (files w))).
Proof.
  intros Hp Hd. unfold FileLock.acquire. unfold bind at 1. rewrite exists_run, Hp.
  unfold bind. rewrite create_run.
  destruct (present_false _ _ Hp) as [_ Hnd]. rewrite Hnd, Hd. reflexivity.
Qed.

Lemma write_task_run s w :
  FS.is_dir w (Path.split s) = false ->
  FS.is_dir w (Path.parent (Path.split s)) = true ->
  write_task s w = (Ok true, set_files w (Path.add (Path.split s) (files w))).
Proof.
  intros Hnd Hd. unfold write_task. unfold bind, try_. rewrite create_run, Hnd, Hd.
  reflexivity.
Qed.

Lemma free_run s w :
  Path.mem (Path.split s) (files w) = true ->
  FileLock.free s w = (Ok tt, set_files w (Path.remove (Path.split s) (files w))).
Proof.
  intros Hm. unfold FileLock.free. rewrite remove_run. unfold FS.is_file. rewrite Hm.
  reflexivity.
Qed.

(** In a world that has the fresh folder [T] as its newest directory, the
    pairs that were in the incoming folder can be transferred into [T]. *)
Lemma ready_in_fresh_folder w w' T file_list :
  wf_fs w = true -> FS.is_dir w T = false ->
  (forall f, Path.mem f (files w) = true -> Path.mem f (files w') = true) ->
  dirs w' = (dirs w ++ [T])%list ->
  forallb (pair_present w) file_list = true ->
  forallb (pair_ready incoming_path T w') file_list = true.
Proof.
  intros Hwf HT Hfiles Hdirs H. rewrite forallb_forall in *. intros e Hin.
  specialize (H e Hin). unfold pair_present in H.
  apply andb_prop in H. destruct H as [H H3].
  apply andb_prop in H. destruct H as [H1 H2].
  unfold pair_ready. rewrite H1, (Hfiles _ H2), (Hfiles _ H3), Hdirs.
  unfold dcm_in, tags_in. rewrite !mem_snoc_other by apply child_not_self.
  rewrite <- !is_dir_child.
  destruct (present_false _ _ (fresh_child w T (e ++ mercure_names.DCM) Hwf HT)) as [_ ->].
  destruct (present_false _ _ (fresh_child w T (e ++ mercure_names.TAGS) Hwf HT)) as [_ ->].
  reflexivity.
Qed.

Lemma processing_step n r rest triggered_rules file_list uid tags w :
  dict_get n (rules config) = Some r ->
  processes n = true ->
  can_stage 1 w ->
  NoDup file_list ->
  forallb (pair_present w) file_list = true ->
  processing_loop (n :: rest) triggered_rules file_list uid tags w =
  processing_loop rest triggered_rules file_list uid tags
    (processing_staged (negb (Nat.eqb (length triggered_rules) 1)) file_list w n).
Proof.
  intros Hr Hp (Hwf & Hinc & Hproc & _ & Hfresh) Hnd Hpairs.
  destruct (Hfresh 0 (Nat.lt_0_succ 0)) as [Hu Hfree].
  rewrite Nat.add_0_r in Hu, Hfree. fold (staging w) in Hfree.
  destruct (present_false _ _ Hfree) as [HTfile HTdir].
  assert (HST : incoming_path <> staging w) by (intros E; rewrite E in Hinc; congruence).
  cbn [processing_loop].
  rewrite (bind_ok _ _ _ _ _ (rules_get_run _ _ w Hr)).
  rewrite (processes_eq _ _ Hr) in Hp. apply andb_prop in Hp. destruct Hp as [-> ->].
  unfold bind at 1. rewrite uuid1_run.
  fold (next_processing w).
  unfold bind at 1. unfold try_ at 1. rewrite mkdir_run.
  rewrite (split_staging _ Hu).
  change (FS.present (next_uuid w)) with (FS.present w).
  change (FS.is_dir (next_uuid w)) with (FS.is_dir w).
  rewrite Hfree. unfold staging at 1. rewrite parent_child, Hproc. cbn [negb orb].
  unfold bind at 1. rewrite exists_run. rewrite (split_staging _ Hu), present_add_dir.
  cbn [negb].
  set (T := staging w) in *.
  set (w2 := add_dir (next_uuid w) T).
  assert (Hdir2 : forall fs, FS.is_dir (set_files w2 fs) T = true).
  { intros fs. unfold FS.is_dir, w2, T, staging. cbn [dirs set_files add_dir].
    destruct (Path.split (PROCESSING config)); apply mem_snoc_same. }
  assert (Hchild2 : forall fs x, FS.is_dir (set_files w2 fs) (T ++ [x])%list = false).
  { intros fs x. rewrite is_dir_child. cbn [dirs set_files add_dir w2 next_uuid].
    rewrite mem_snoc_other by apply child_not_self.
    rewrite <- is_dir_child.
    destruct (present_false _ _ (fresh_child w T x Hwf HTdir)) as [_ ->]. reflexivity. }
  assert (Hlock : Path.split (next_processing w ++ "/" ++ mercure_names.LOCK)
                  = (T ++ [mercure_names.LOCK])%list).
  { rewrite split_child by reflexivity. rewrite (split_staging _ Hu). reflexivity. }
  assert (Htask : Path.split ((next_processing w ++ "/") ++ mercure_names.TASKFILE)
                  = (T ++ [mercure_names.TASKFILE])%list).
  { rewrite split_in_folder by reflexivity. rewrite (split_staging _ Hu). reflexivity. }
  (* the lock of the folder *)
  assert (Hacq : FileLock.acquire (next_processing w ++ "/" ++ mercure_names.LOCK) w2 =
                 (Ok (next_processing w ++ "/" ++ mercure_names.LOCK),
                  set_files w2 (Path.add (T ++ [mercure_names.LOCK])%list (files w)))).
  { rewrite acquire_run; rewrite Hlock.
    - reflexivity.
    - unfold FS.present, FS.is_file. change (files w2) with (files w).
      destruct (present_false _ _ (fresh_child w T mercure_names.LOCK Hwf HTdir)) as [-> _].
      rewrite <- (set_files_id w2). rewrite Hchild2. reflexivity.
    - rewrite parent_child. rewrite <- (set_files_id w2). apply Hdir2. }
  rewrite (bind_ok _ _ _ _ _ (try_ok _ _ _ _ Hacq)).
  set (fs1 := Path.add (T ++ [mercure_names.LOCK])%list (files w)).
  (* the task file *)
  assert (Hwt : create_series_task_processing (next_processing w ++ "/") n uid tags
                  (set_files w2 fs1) =
                (Ok true, set_files w2 (Path.add (T ++ [mercure_names.TASKFILE])%list fs1))).
  { unfold create_series_task_processing. rewrite write_task_run; rewrite Htask.
    - reflexivity.
    - apply Hchild2.
    - rewrite parent_child. apply Hdir2. }
  set (fs2 := Path.add (T ++ [mercure_names.TASKFILE])%list fs1) in *.
  (* the pairs *)
  assert (Hready : forallb (pair_ready incoming_path T (set_files w2 fs2)) file_list = true).
  { apply (ready_in_fresh_folder w); try assumption.
    - intros f Hf. cbn [files set_files]. unfold fs2, fs1. rewrite !mem_add, Hf.
      rewrite !orb_true_r. reflexivity.
    - reflexivity. }
  assert (Hlockin : forall fs', 
             (forall f, Path.mem f fs2 = true -> in_pairs incoming_path file_list f = false ->
                        Path.mem f fs' = true) ->
             Path.mem (T ++ [mercure_names.LOCK])%list fs' = true).
  { intros fs' H. apply H.
    - unfold fs2, fs1. rewrite !mem_add, eqb_refl. rewrite orb_true_r. reflexivity.
    - destruct (in_pairs incoming_path file_list (T ++ [mercure_names.LOCK])%list) eqn:E;
        [|reflexivity].
      apply in_pairs_parent in E. rewrite parent_child in E. destruct E as [E _].
      exfalso. apply HST. symmetry. exact E. }
  destruct (negb (Nat.eqb (length triggered_rules) 1)) eqn:Ecopy.
  - (* copies *)
    set (fs3 := fold_left (copy_pair T) file_list fs2).
    assert (Hfree3 : FileLock.free (next_processing w ++ "/" ++ mercure_names.LOCK)
                       (set_files w2 fs3) =
                     (Ok tt, set_files w2 (Path.remove (T ++ [mercure_names.LOCK])%list fs3))).
    { rewrite free_run; rewrite Hlock; [reflexivity|].
      cbn [files set_files]. apply Hlockin. intros f Hf _. unfold fs3.
      rewrite mem_copy_all, Hf. apply orb_true_r. }
    unfold bind at 1. erewrite scope_run; cycle 1.
    { rewrite (bind_ok _ _ _ _ _ Hwt). cbn [negb].
      unfold push_files. cbn [negb].
      rewrite (bind_ok _ _ _ _ _
                 (push_files_loop_copy _ _ incoming_path T split_incoming_file
                    (fun n Hn => split_staging_file w n Hu Hn) file_list _ Hready
                    (Hdir2 fs2))).
      cbn [negb].
      change (set_files (set_files w2 fs2) (fold_left (copy_pair T) file_list
                (files (set_files w2 fs2)))) with (set_files w2 fs3).
      rewrite (bind_ok _ _ _ _ _ (try_ok _ _ _ _ Hfree3)).
      rewrite (bind_ok _ _ _ _ _ (trigger_run _ _ tags _ Hr)).
      reflexivity. }
    rewrite Hlock. reflexivity.
  - (* moves *)
    set (fs3 := fold_left (move_pair incoming_path T) file_list fs2).
    assert (Hfree3 : FileLock.free (next_processing w ++ "/" ++ mercure_names.LOCK)
                       (set_files w2 fs3) =
                     (Ok tt, set_files w2 (Path.remove (T ++ [mercure_names.LOCK])%list fs3))).
    { rewrite free_run; rewrite Hlock; [reflexivity|].
      cbn [files set_files]. apply Hlockin. intros f Hf Hnot. unfold fs3.
      rewrite (mem_move_all _ _ _ _ _ HST), Hf, Hnot. apply orb_true_r. }
    unfold bind at 1. erewrite scope_run; cycle 1.
    { rewrite (bind_ok _ _ _ _ _ Hwt). cbn [negb].
      unfold push_files. cbn [negb].
      rewrite (bind_ok _ _ _ _ _
                 (push_files_loop_move _ _ incoming_path T split_incoming_file
                    (fun n Hn => split_staging_file w n Hu Hn) file_list _ Hnd Hready
                    (Hdir2 fs2))).
      cbn [negb].
      change (set_files (set_files w2 fs2) (fold_left (move_pair incoming_path T) file_list
                (files (set_files w2 fs2)))) with (set_files w2 fs3).
      rewrite (bind_ok _ _ _ _ _ (try_ok _ _ _ _ Hfree3)).
      rewrite (bind_ok _ _ _ _ _ (trigger_run _ _ tags _ Hr)).
      reflexivity. }
    rewrite Hlock. reflexivity.
Qed.

(* =================================================================== *)
(** ** What a staged world holds *)
(* =================================================================== *)

Lemma mem_In (p : Path.t) (l : list Path.t) : Path.mem p l = true <-> In p l.
Proof.
  unfold Path.mem. rewrite existsb_exists. split.
  - intros [q [Hin Hq]]. apply eqb_eq in Hq. subst. exact Hin.
  - intros Hin. exists p. split; [exact Hin | apply eqb_refl].
Qed.

Lemma mem_staged copy_files file_list w n f :
  Path.mem f (files (processing_staged copy_files file_list w n)) =
  negb (Path.eqb f (staging w ++ [mercure_names.LOCK])%list)
  && Path.mem f
       (if copy_files
        then fold_left (copy_pair (staging w)) file_list
               (Path.add (staging w ++ [mercure_names.TASKFILE])%list
                  (Path.add (staging w ++ [mercure_names.LOCK])%list (files w)))
        else fold_left (move_pair incoming_path (staging w)) file_list
               (Path.add (staging w ++ [mercure_names.TASKFILE])%list
                  (Path.add (staging w ++ [mercure_names.LOCK])%list (files w)))).
Proof.
  unfold processing_staged. cbn [files]. rewrite !mem_remove.
  rewrite (eqb_sym (staging w ++ [mercure_names.LOCK])%list f).
  destruct (Path.eqb f (staging w ++ [mercure_names.LOCK])%list); reflexivity.
Qed.

Lemma lock_not_in_pairs F l : in_pairs F l (F ++ [mercure_names.LOCK])%list = false.
Proof.
  destruct (in_pairs F l (F ++ [mercure_names.LOCK])%list) eqn:E; [|reflexivity].
  apply in_pairs_true in E. destruct E as [e [_ [E|E]]];
    apply child_inj in E; destruct E as [_ E];
    apply (f_equal last_char) in E; rewrite last_char_append in E by discriminate;
    discriminate.
Qed.

(** With copy semantics the files of the world stay, and the pairs are in
    the new folder as well. *)
Lemma staged_copy_keeps file_list w n f :
  wf_fs w = true -> FS.is_dir w (staging w) = false ->
  Path.mem f (files w) = true ->
  Path.mem f (files (processing_staged true file_list w n)) = true.
Proof.
  intros Hwf HT Hf. rewrite mem_staged, mem_copy_all, !mem_add, Hf.
  rewrite !orb_true_r. rewrite andb_true_r. apply negb_true_iff. apply eqb_neq.
  intros ->.
  destruct (present_false _ _ (fresh_child w (staging w) mercure_names.LOCK Hwf HT))
    as [E _]. congruence.
Qed.

Lemma staged_has_pairs copy_files file_list w n e :
  incoming_path <> staging w ->
  In e file_list ->
  Path.mem (dcm_in (staging w) e) (files (processing_staged copy_files file_list w n)) = true
  /\ Path.mem (tags_in (staging w) e) (files (processing_staged copy_files file_list w n)) = true.
Proof.
  intros HST Hin.
  assert (Hd : in_pairs (staging w) file_list (dcm_in (staging w) e) = true)
    by (apply in_pairs_true; exists e; split; [exact Hin | left; reflexivity]).
  assert (Ht : in_pairs (staging w) file_list (tags_in (staging w) e) = true)
    by (apply in_pairs_true; exists e; split; [exact Hin | right; reflexivity]).
  assert (Hnl : forall f, in_pairs (staging w) file_list f = true ->
                          negb (Path.eqb f (staging w ++ [mercure_names.LOCK])%list) = true).
  { intros f Hf. apply negb_true_iff. apply eqb_neq. intros ->.
    rewrite lock_not_in_pairs in Hf. discriminate. }
  split; rewrite mem_staged; destruct copy_files;
    rewrite ?mem_copy_all, ?(mem_move_all _ _ _ _ _ HST), ?Hd, ?Ht;
    cbn [orb]; rewrite andb_true_r; apply Hnl; assumption.
Qed.

(** Every file of a staged world was there before or lies in the new
    folder; with move semantics the pairs have left the incoming folder. *)
Lemma staged_origin copy_files file_list w n f :
  incoming_path <> staging w ->
  Path.mem f (files (processing_staged copy_files file_list w n)) = true ->
  (Path.mem f (files w) = true
   /\ (copy_files = false -> in_pairs incoming_path file_list f = false))
  \/ Path.parent f = staging w.
Proof.
  intros HST. rewrite mem_staged. intros H.
  apply andb_prop in H. destruct H as [Hnl H]. apply negb_true_iff in Hnl.
  destruct copy_files.
  - rewrite mem_copy_all, !mem_add in H. rewrite Hnl in H. cbn [orb] in H.
    apply orb_prop in H. destruct H as [H|H].
    + right. apply in_pairs_parent in H. apply H.
    + apply orb_prop in H. destruct H as [H|H].
      * right. apply eqb_eq in H. subst. apply parent_child.
      * left. split; [exact H | discriminate].
  - rewrite (mem_move_all _ _ _ _ _ HST), !mem_add in H. rewrite Hnl in H. cbn [orb] in H.
    apply orb_prop in H. destruct H as [H|H].
    + right. apply in_pairs_parent in H. apply H.
    + apply andb_prop in H. destruct H as [H Hns]. apply negb_true_iff in Hns.
      apply orb_prop in H. destruct H as [H|H].
      * right. apply eqb_eq in H. subst. apply parent_child.
      * left. split; [exact H | intros _; exact Hns].
Qed.

Lemma staged_move_keeps file_list w n f :
  wf_fs w = true -> FS.is_dir w (staging w) = false ->
  incoming_path <> staging w ->
  Path.mem f (files w) = true ->
  in_pairs incoming_path file_list f = false ->
  Path.mem f (files (processing_staged false file_list w n)) = true.
Proof.
  intros Hwf HT HST Hf Hns. rewrite mem_staged, (mem_move_all _ _ _ _ _ HST), !mem_add, Hf, Hns.
  rewrite !orb_true_r. rewrite andb_true_r. apply negb_true_iff. apply eqb_neq.
  intros ->.
  destruct (present_false _ _ (fresh_child w (staging w) mercure_names.LOCK Hwf HT))
    as [E _]. congruence.
Qed.

Lemma staged_move_empties file_list w n f :
  incoming_path <> staging w ->
  in_pairs incoming_path file_list f = true ->
  Path.mem f (files (processing_staged false file_list w n)) = false.
Proof.
  intros HST Hs. rewrite mem_staged, (mem_move_all _ _ _ _ _ HST), Hs.
  rewrite (in_pairs_other_folder (staging w) incoming_path file_list file_list f)
    by (try assumption; intros E; apply HST; symmetry; exact E).
  rewrite andb_false_r. apply andb_false_r.
Qed.

Lemma is_dir_staged copy_files file_list w n p :
  FS.is_dir w p = true -> FS.is_dir (processing_staged copy_files file_list w n) p = true.
Proof.
  unfold FS.is_dir, processing_staged. cbn [dirs]. destruct p; [reflexivity|].
  intros H. rewrite mem_app, H. reflexivity.
Qed.

Lemma is_dir_staged_folder copy_files file_list w n :
  FS.is_dir (processing_staged copy_files file_list w n) (staging w) = true.
Proof.
  unfold FS.is_dir, processing_staged, staging. cbn [dirs].
  destruct (Path.split (PROCESSING config)); apply mem_snoc_same.
Qed.

Lemma can_stage_first k w :
  can_stage (S k) w ->
  wf_fs w = true
  /\ FS.is_dir w incoming_path = true
  /\ Path.component (uuid_of ext (uuid_count w)) = true
  /\ FS.is_dir w (staging w) = false
  /\ incoming_path <> staging w
  /\ can_stage 1 w.
Proof.
  intros (Hwf & Hinc & Hproc & Hnd & Hfresh).
  destruct (Hfresh 0 (Nat.lt_0_succ k)) as [Hu Hfree].
  rewrite Nat.add_0_r in Hu, Hfree. fold (staging w) in Hfree.
  destruct (present_false _ _ Hfree) as [_ HTdir].
  repeat split; try assumption.
  - intros E. rewrite E in Hinc. congruence.
  - cbn [seq map] in *. inversion Hnd; subst. constructor; [intros [] | constructor].
  - assert (j = 0) by lia. subst. rewrite Nat.add_0_r. exact Hu.
  - assert (j = 0) by lia. subst. rewrite Nat.add_0_r. exact Hfree.
Qed.

Lemma can_stage_next k w file_list n :
  can_stage (S k) w -> can_stage k (processing_staged true file_list w n).
Proof.
  intros Hcan. destruct (can_stage_first _ _ Hcan) as (Hwf & Hinc & Hu & HTdir & HST & _).
  destruct Hcan as (_ & _ & Hproc & Hnd & Hfresh).
  set (W := processing_staged true file_list w n).
  assert (Hfile : forall f, Path.mem f (files W) = true ->
                            Path.mem f (files w) = true \/ Path.parent f = staging w).
  { intros f Hf. unfold W in Hf.
    destruct (staged_origin _ _ _ _ _ HST Hf) as [[H _]|H]; [left|right]; exact H. }
  split; [|split; [|split; [|split]]].
  - unfold wf_fs. apply forallb_forall. intros p Hin. apply in_app_or in Hin.
    destruct Hin as [Hin|Hin].
    + apply mem_In in Hin. destruct (Hfile p Hin) as [H|H].
      * apply is_dir_staged. destruct p as [|a p]; [reflexivity|].
        apply (wf_fs_elim _ _ Hwf); [|discriminate].
        unfold FS.present, FS.is_file. rewrite H. reflexivity.
      * rewrite H. apply is_dir_staged_folder.
    + unfold W, processing_staged in Hin. cbn [dirs] in Hin. apply in_app_or in Hin.
      destruct Hin as [Hin|[<-|[]]].
      * apply is_dir_staged. destruct p as [|a p]; [reflexivity|].
        apply (wf_fs_elim _ _ Hwf); [|discriminate].
        unfold FS.present. apply mem_In in Hin. cbn [FS.is_dir]. rewrite Hin.
        apply orb_true_r.
      * unfold staging. rewrite parent_child. apply is_dir_staged. exact Hproc.
  - apply is_dir_staged. exact Hinc.
  - apply is_dir_staged. exact Hproc.
  - change (uuid_count W) with (S (uuid_count w)).
    cbn [seq map] in Hnd. inversion Hnd; subst. assumption.
  - intros j Hj. change (uuid_count W) with (S (uuid_count w)).
    replace (S (uuid_count w) + j) with (uuid_count w + S j) by lia.
    destruct (Hfresh (S j) (proj1 (Nat.succ_lt_mono j k) Hj)) as [Hc Hp].
    split; [exact Hc|].
    destruct (present_false _ _ Hp) as [Hpf Hpd].
    unfold FS.present, FS.is_file.
    set (q := (Path.split (PROCESSING config) ++ [uuid_of ext (uuid_count w + S j)])%list) in *.
    destruct (Path.mem q (files W)) eqn:Eq.
    { exfalso. destruct (Hfile q Eq) as [H|H]; [congruence|].
      unfold q, staging in H. rewrite parent_child in H.
      symmetry in H. exact (child_not_self _ _ H). }
    cbn [orb]. unfold q. rewrite is_dir_child. fold q.
    unfold W, processing_staged. cbn [dirs].
    rewrite mem_snoc_other.
    + unfold q. rewrite <- is_dir_child. exact Hpd.
    + unfold q, staging. intros E. apply child_inj in E. destruct E as [_ E].
      cbn [seq map] in Hnd. inversion Hnd as [|? ? Hnotin _]; subst.
      apply Hnotin. rewrite <- E. apply in_map. apply in_seq. lia.
Qed.

Lemma pair_present_staged_copy file_list w n l :
  wf_fs w = true -> FS.is_dir w (staging w) = false ->
  forallb (pair_present w) l = true ->
  forallb (pair_present (processing_staged true file_list w n)) l = true.
Proof.
  intros Hwf HT H. rewrite forallb_forall in *. intros e Hin. specialize (H e Hin).
  unfold pair_present in *.
  apply andb_prop in H. destruct H as [H H3].
  apply andb_prop in H. destruct H as [H1 H2].
  rewrite H1, (staged_copy_keeps _ _ _ _ Hwf HT H2), (staged_copy_keeps _ _ _ _ Hwf HT H3).
  reflexivity.
Qed.

(** Several processing rules: each stages a copy in a folder of its own. *)
Lemma processing_loop_copies rules_left triggered_rules file_list uid tags w :
  Nat.eqb (length triggered_rules) 1 = false ->
  configured rules_left ->
  forallb processes rules_left = true ->
  can_stage (length rules_left) w ->
  NoDup file_list ->
  forallb (pair_present w) file_list = true ->
  processing_loop rules_left triggered_rules file_list uid tags w =
  (Ok true, fold_left (processing_staged true file_list) rules_left w).
Proof.
  intros Hlen. revert w. induction rules_left as [|n rest IH]; intros w Hc Hp Hcan Hnd Hpairs.
  - reflexivity.
  - destruct (configured_cons _ _ Hc) as [[r Hr] Hc'].
    cbn [forallb] in Hp. apply andb_prop in Hp. destruct Hp as [Hpn Hp].
    cbn [length] in Hcan.
    destruct (can_stage_first _ _ Hcan) as (Hwf & _ & _ & HTdir & _ & Hcan1).
    rewrite (processing_step _ _ _ _ _ _ _ _ Hr Hpn Hcan1 Hnd Hpairs).
    rewrite Hlen. cbn [negb fold_left].
    apply IH; try assumption.
    + apply can_stage_next. exact Hcan.
    + apply pair_present_staged_copy; assumption.
Qed.

Lemma staging_at_0 w : staging_at w 0 = staging w.
Proof. unfold staging_at, staging. rewrite Nat.add_0_r. reflexivity. Qed.

Lemma staging_at_next file_list w n k :
  staging_at (processing_staged true file_list w n) k = staging_at w (S k).
Proof.
  unfold staging_at, processing_staged. cbn [uuid_count].
  replace (S (uuid_count w) + k) with (uuid_count w + S k) by lia. reflexivity.
Qed.

(** What the world holds after several processing rules have staged
    copies. *)
Lemma staged_copies_facts rules_left file_list w :
  can_stage (length rules_left) w ->
  let W := fold_left (processing_staged true file_list) rules_left w in
  (forall f, Path.mem f (files w) = true -> Path.mem f (files W) = true)
  /\ (forall k e, k < length rules_left -> In e file_list ->
        Path.mem (dcm_in (staging_at w k) e) (files W) = true
        /\ Path.mem (tags_in (staging_at w k) e) (files W) = true)
  /\ (forall f, Path.mem f (files W) = true ->
        Path.mem f (files w) = true
        \/ exists k, k < length rules_left /\ Path.parent f = staging_at w k)
  /\ trace W = (trace w ++ map webhook_of rules_left)%list.
Proof.
  revert w. induction rules_left as [|n rest IH]; intros w Hcan; cbn [fold_left length].
  - cbv zeta. split; [|split; [|split]].
    + intros f H. exact H.
    + intros k e Hk. lia.
    + intros f H. left. exact H.
    + cbn [map]. rewrite app_nil_r. reflexivity.
  - cbn [length] in Hcan.
    destruct (can_stage_first _ _ Hcan) as (Hwf & _ & _ & HTdir & HST & _).
    pose proof (can_stage_next _ _ file_list n Hcan) as Hcan'.
    destruct (IH _ Hcan') as (Ha & Hb & Hc & Hd). cbv zeta.
    split; [|split; [|split]].
    + intros f Hf. apply Ha. apply staged_copy_keeps; assumption.
    + intros k e Hk Hin. destruct k as [|k].
      * rewrite staging_at_0.
        destruct (staged_has_pairs true file_list w n e HST Hin) as [H1 H2].
        split; apply Ha; assumption.
      * rewrite <- (staging_at_next file_list w n k). apply Hb; [lia | exact Hin].
    + intros f Hf. destruct (Hc f Hf) as [H|[k [Hk H]]].
      * destruct (staged_origin _ _ _ _ _ HST H) as [[H' _]|H'].
        -- left. exact H'.
        -- right. exists 0. split; [lia|]. rewrite staging_at_0. exact H'.
      * right. exists (S k). split; [lia|]. rewrite <- (staging_at_next file_list w n k).
        exact H.
    + rewrite Hd. unfold processing_staged. cbn [trace map]. rewrite <- app_assoc.
      reflexivity.
Qed.

(* =================================================================== *)
(** ** remove_series *)
(* =================================================================== *)

Lemma pair_present_elim w e :
  pair_present w e = true ->
  Path.no_slash e = true
  /\ Path.mem (dcm_in incoming_path e) (files w) = true
  /\ Path.mem (tags_in incoming_path e) (files w) = true.
Proof.
  unfold pair_present. intros H.
  apply andb_prop in H. destruct H as [H H3].
  apply andb_prop in H. destruct H as [H1 H2]. repeat split; assumption.
Qed.

Lemma remove_series_run file_list w :
  NoDup file_list ->
  forallb (pair_present w) file_list = true ->
  remove_series file_list w =
  (Ok tt, set_files w (fold_left (remove_pair incoming_path) file_list (files w))).
Proof.
  revert w. induction file_list as [|e l IH]; intros w Hnd Hp.
  - cbn. rewrite set_files_id. reflexivity.
  - cbn [forallb] in Hp. apply andb_prop in Hp. destruct Hp as [Hpe Hp].
    inversion Hnd as [|? ? Hnin Hnd']; subst.
    destruct (pair_present_elim _ _ Hpe) as (He & Hd & Ht).
    cbn [remove_series fold_left].
    unfold bind at 1. unfold bind at 1. unfold try_ at 1. unfold bind at 1.
    rewrite remove_run.
    rewrite (split_incoming_file (e ++ mercure_names.TAGS))
      by (apply component_with; [exact He | reflexivity]).
    fold (tags_in incoming_path e). unfold FS.is_file at 1. rewrite Ht.
    rewrite remove_run.
    rewrite (split_incoming_file (e ++ mercure_names.DCM))
      by (apply component_with; [exact He | reflexivity]).
    fold (dcm_in incoming_path e). unfold FS.is_file at 1. cbn [files set_files].
    rewrite mem_remove, Hd.
    rewrite (proj2 (eqb_neq (tags_in incoming_path e) (dcm_in incoming_path e)))
      by (intros E; symmetry in E; exact (dcm_in_not_tags_in _ _ _ E)).
    cbn [negb andb ret].
    rewrite IH.
    + reflexivity.
    + exact Hnd'.
    + rewrite forallb_forall in *. intros e' Hin. specialize (Hp e' Hin).
      destruct (pair_present_elim _ _ Hp) as (He' & Hd' & Ht').
      unfold pair_present. cbn [files set_files]. rewrite He', !mem_remove, Hd', Ht'.
      assert (Hne : e <> e') by (intros ->; apply Hnin; exact Hin).
      rewrite (proj2 (eqb_neq (dcm_in incoming_path e) (dcm_in incoming_path e')))
        by (intros E; apply dcm_in_inj in E; contradiction).
      rewrite (proj2 (eqb_neq (tags_in incoming_path e) (dcm_in incoming_path e')))
        by (intros E; symmetry in E; exact (dcm_in_not_tags_in _ _ _ E)).
      rewrite (proj2 (eqb_neq (dcm_in incoming_path e) (tags_in incoming_path e')))
        by apply dcm_in_not_tags_in.
      rewrite (proj2 (eqb_neq (tags_in incoming_path e) (tags_in incoming_path e')))
        by (intros E; apply tags_in_inj in E; contradiction).
      reflexivity.
Qed.

(* =================================================================== *)
(** ** Dispatching a series whose triggered rules are processing rules *)
(* =================================================================== *)

Lemma processes_only n :
  processes n = true ->
  routes n = false
  /\ is_series_rule_with mercure_actions.NOTIFICATION n = false
  /\ is_study_rule n = false.
Proof.
  unfold processes, routes, is_series_rule_with, is_study_rule.
  destruct (dict_get n (rules config)) as [r|]; [|discriminate].
  destruct (String.eqb_spec (get (ACTION_TRIGGER r) mercure_options.SERIES)
                            mercure_options.SERIES) as [Et|Et]; [|discriminate].
  rewrite Et. cbn [andb]. intros H. apply orb_prop in H.
  destruct H as [H|H]; apply String.eqb_eq in H; rewrite H; repeat split; reflexivity.
Qed.

Lemma studylevel_loop_skip rules_left triggered_rules file_list uid tags lock_file w :
  configured rules_left ->
  existsb is_study_rule rules_left = false ->
  studylevel_loop rules_left triggered_rules file_list uid tags lock_file w = (Ok tt, w).
Proof.
  induction rules_left as [|n rest IH]; intros Hc Hnone.
  - reflexivity.
  - destruct (configured_cons _ _ Hc) as [[r Hr] Hc'].
    cbn [existsb] in Hnone. apply orb_false_elim in Hnone. destruct Hnone as [Hn Hnone].
    cbn [studylevel_loop].
    rewrite (bind_ok _ _ _ _ _ (rules_get_run _ _ w Hr)).
    unfold is_study_rule in Hn. rewrite Hr in Hn. rewrite Hn.
    apply IH; assumption.
Qed.

Lemma processes_all_only rules_left :
  forallb processes rules_left = true ->
  filter routes rules_left = []
  /\ find (is_series_rule_with mercure_actions.NOTIFICATION) rules_left = None
  /\ existsb is_study_rule rules_left = false.
Proof.
  induction rules_left as [|n rest IH]; cbn [forallb filter find existsb]; intros H.
  - repeat split; reflexivity.
  - apply andb_prop in H. destruct H as [Hn H].
    destruct (processes_only _ Hn) as (-> & -> & ->).
    destruct (IH H) as (-> & -> & ->). repeat split; reflexivity.
Qed.

Lemma dispatch_processing triggered_rules file_list uid tags w :
  triggered_rules <> [] ->
  configured triggered_rules ->
  forallb processes triggered_rules = true ->
  can_stage (length triggered_rules) w ->
  NoDup file_list ->
  forallb (pair_present w) file_list = true ->
  dispatch triggered_rules file_list uid "" tags w =
  (Ok tt, processed triggered_rules file_list w).
Proof.
  intros Hne Hc Hp Hcan Hnd Hpairs.
  destruct (processes_all_only _ Hp) as (Hroutes & Hnotif & Hstudy).
  unfold dispatch.
  destruct triggered_rules as [|n rest]; [contradiction|].
  cbn [length Nat.eqb PyStr.truthy orb].
  unfold push_series_studylevel.
  rewrite (bind_ok _ _ _ _ _ (studylevel_loop_skip _ _ _ _ _ _ w Hc Hstudy)).
  unfold push_series_serieslevel.
  assert (Hrouting : push_serieslevel_routing (n :: rest) file_list uid tags w = (Ok tt, w)).
  { rewrite (push_serieslevel_routing_run _ _ _ _ _ Hc).
    unfold selection, reception_webhooks. rewrite Hroutes. cbn [fold_left map].
    rewrite with_trace_nil. reflexivity. }
  unfold bind at 1. unfold bind at 1. rewrite Hrouting.
  unfold push_serieslevel_processing, push_serieslevel_notification.
  destruct rest as [|m rest].
  - (* one rule: the pairs are moved *)
    destruct (configured_cons _ _ Hc) as [[r Hr] _].
    cbn [forallb] in Hp. apply andb_prop in Hp. destruct Hp as [Hpn _].
    unfold bind at 1.
    rewrite (processing_step n r [] [n] file_list uid tags w Hr Hpn Hcan Hnd Hpairs).
    cbn [length Nat.eqb negb processing_loop ret].
    unfold bind at 1. rewrite (notification_loop_first _ _ _ _ _ _ Hc), Hnotif.
    reflexivity.
  - (* several rules: copies, then the originals are removed *)
    unfold bind at 1.
    rewrite (processing_loop_copies (n :: m :: rest) (n :: m :: rest) file_list uid tags w
               eq_refl Hc Hp Hcan Hnd Hpairs).
    unfold bind at 1. rewrite (notification_loop_first _ _ _ _ _ _ Hc), Hnotif.
    cbn [ret length Nat.ltb Nat.leb].
    destruct (staged_copies_facts (n :: m :: rest) file_list w Hcan) as (Hkeep & _).
    cbv zeta in Hkeep.
    rewrite remove_series_run.
    + reflexivity.
    + exact Hnd.
    + rewrite forallb_forall in *. intros e Hin.
      destruct (pair_present_elim _ _ (Hpairs e Hin)) as (He & Hd & Ht).
      unfold pair_present. rewrite He, (Hkeep _ Hd), (Hkeep _ Ht). reflexivity.
Qed.

(* =================================================================== *)
(** ** route_series up to its decision *)
(* =================================================================== *)

Lemma split_series_lock uid :
  Path.no_slash uid = true ->
  Path.split (INCOMING config ++ "/" ++ uid ++ mercure_names.LOCK) = series_lock uid.
Proof.
  intros Hu. unfold series_lock, incoming_path. apply split_child.
  apply component_with; [exact Hu | reflexivity].
Qed.

Lemma scandir_run w :
  FS.is_dir w incoming_path = true ->
  FS.scandir (INCOMING config) w =
  (Ok (FS.children incoming_path false (files w)
       ++ FS.children incoming_path true (dirs w))%list, w).
Proof.
  intros Hd. unfold FS.scandir, bind, get_world. fold incoming_path. rewrite Hd.
  reflexivity.
Qed.

Lemma parse_ascconv_try uid first w :
  Path.no_slash first = true ->
  try_ (sequence_data <- parse_ascconv (INCOMING config ++ "/" ++ first ++ mercure_names.DCM) ;;
        emit (send_series_sequence_data uid sequence_data)) (locked w uid)
  = (Ok (if Path.mem (dcm_in incoming_path first) (files (locked w uid))
         then match ascconv ext (dcm_in incoming_path first) with
              | Some _ => inr tt
              | None => inl OtherException
              end
         else inl OSError),
     with_trace (locked w uid) (sequence_report w uid first)).
Proof.
  intros Hf. unfold parse_ascconv, try_, bind, get_world, sequence_report. cbv beta.
  rewrite split_child by (apply component_with; [exact Hf | reflexivity]).
  fold incoming_path. fold (dcm_in incoming_path first). unfold FS.is_file.
  destruct (Path.mem (dcm_in incoming_path first) (files (locked w uid))).
  - destruct (ascconv ext (dcm_in incoming_path first)).
    + reflexivity.
    + cbn [raise]. rewrite with_trace_nil. reflexivity.
  - cbn [raise]. rewrite with_trace_nil. reflexivity.
Qed.

(** route_series on a series with files and a readable tag document: the
    lock is taken, the series is registered, the rules are evaluated, and
    the decision is taken in the world [registered]; when the dispatch
    returns and the lock is still there, the lock is released. *)
Lemma route_series_run uid w first rest tags W :
  NoDup (map fst (rules config)) ->
  Path.no_slash uid = true ->
  FS.is_dir w incoming_path = true ->
  FS.present w (series_lock uid) = false ->
  series_files w uid = first :: rest ->
  pair_present w first = true ->
  json_load ext (tags_in incoming_path first) = Some tags ->
  dispatch (triggered_set tags) (series_files w uid) uid (discard_override tags) tags
           (registered w uid first tags) = (Ok tt, W) ->
  Path.mem (series_lock uid) (files W) = true ->
  route_series uid w = (Ok tt, unlocked W uid).
Proof.
  intros Hnd Hu Hinc Hfree Hscan Hfirst Hjson Hdisp Hlock.
  destruct (pair_present_elim _ _ Hfirst) as (Hf & Hd & Ht).
  unfold route_series.
  unfold bind at 1. rewrite exists_run. rewrite (split_series_lock _ Hu), Hfree.
  assert (Hacq : FileLock.acquire (INCOMING config ++ "/" ++ uid ++ mercure_names.LOCK) w
                 = (Ok (INCOMING config ++ "/" ++ uid ++ mercure_names.LOCK), locked w uid)).
  { rewrite acquire_run; rewrite (split_series_lock _ Hu).
    - reflexivity.
    - exact Hfree.
    - unfold series_lock. rewrite parent_child. exact Hinc. }
  rewrite (bind_ok _ _ _ _ _ (try_ok _ _ _ _ Hacq)).
  erewrite scope_run; cycle 1.
  { rewrite (bind_ok _ _ _ _ _ (scandir_run (locked w uid) Hinc)).
    change (dirs (locked w uid)) with (dirs w).
    fold (series_files w uid). rewrite Hscan.
    unfold bind at 1. cbn [index0 ret].
    rewrite (bind_ok _ _ _ _ _ (parse_ascconv_try uid first w Hf)).
    unfold bind at 1. cbn [index0 ret].
    unfold bind at 1. rewrite exists_run.
    rewrite split_child by (apply component_with; [exact Hf | reflexivity]).
    fold incoming_path. fold (tags_in incoming_path first).
    assert (Hpres : FS.present (with_trace (locked w uid) (sequence_report w uid first))
                               (tags_in incoming_path first) = true).
    { unfold FS.present, FS.is_file, locked. cbn [files with_trace set_files].
      rewrite mem_add, Ht. rewrite orb_true_r. reflexivity. }
    rewrite Hpres. cbn [negb]. rewrite Hjson.
    unfold bind at 1. rewrite emit_run.
    unfold bind at 1. rewrite emit_run.
    unfold bind at 1. rewrite (get_triggered_rules_run _ _ Hnd).
    cbn [fst snd]. rewrite !with_trace_app.
    rewrite <- Hscan.
    change (with_trace (locked w uid) _) with (registered w uid first tags).
    rewrite (bind_ok _ _ _ _ _ Hdisp).
    assert (Hrel : FileLock.free (INCOMING config ++ "/" ++ uid ++ mercure_names.LOCK) W
                   = (Ok tt, set_files W (Path.remove (series_lock uid) (files W)))).
    { rewrite free_run; rewrite (split_series_lock _ Hu); [reflexivity | exact Hlock]. }
    rewrite (bind_ok _ _ _ _ _ (try_ok _ _ _ _ Hrel)).
    reflexivity. }
  rewrite (split_series_lock _ Hu). reflexivity.
Qed.

Lemma processes_configured rules_left :
  forallb processes rules_left = true -> configured rules_left.
Proof.
  intros H n Hin. rewrite forallb_forall in H. specialize (H n Hin).
  unfold processes, is_series_rule_with in H.
  destruct (dict_get n (rules config)); [discriminate | discriminate].
Qed.

Lemma series_lock_not_in_pairs uid l : in_pairs incoming_path l (series_lock uid) = false.
Proof.
  destruct (in_pairs incoming_path l (series_lock uid)) eqn:E; [|reflexivity].
  apply in_pairs_true in E. destruct E as [e [_ [E|E]]];
    apply child_inj in E; destruct E as [_ E];
    apply (f_equal last_char) in E; rewrite !last_char_append in E by discriminate;
    discriminate.
Qed.

Lemma mem_unlocked W uid f :
  Path.mem f (files (unlocked W uid)) =
  negb (Path.eqb f (series_lock uid)) && Path.mem f (files W).
Proof.
  unfold unlocked. cbn [files set_files]. rewrite !mem_remove.
  rewrite (eqb_sym (series_lock uid) f).
  destruct (Path.eqb f (series_lock uid)); reflexivity.
Qed.

Lemma mem_locked w uid f :
  Path.mem f (files (locked w uid)) = Path.eqb f (series_lock uid) || Path.mem f (files w).
Proof. unfold locked. cbn [files set_files]. apply mem_add. Qed.

(** What the incoming folder and the staging folders hold after a series
    whose triggered rules are processing rules has been dispatched. *)
Lemma processed_facts triggered_rules file_list w :
  triggered_rules <> [] ->
  can_stage (length triggered_rules) w ->
  let W := processed triggered_rules file_list w in
  (forall f, in_pairs incoming_path file_list f = true -> Path.mem f (files W) = false)
  /\ (forall f, Path.mem f (files w) = true -> in_pairs incoming_path file_list f = false ->
        Path.mem f (files W) = true)
  /\ (forall k e, k < length triggered_rules -> In e file_list ->
        Path.mem (dcm_in (staging_at w k) e) (files W) = true
        /\ Path.mem (tags_in (staging_at w k) e) (files W) = true)
  /\ (forall f, Path.mem f (files W) = true ->
        Path.mem f (files w) = true
        \/ exists k, k < length triggered_rules /\ Path.parent f = staging_at w k).
Proof.
  intros Hne Hcan.
  destruct triggered_rules as [|n [|m rest]]; [contradiction | |].
  - (* one rule *)
    cbn [processed length] in *.
    destruct (can_stage_first _ _ Hcan) as (Hwf & _ & _ & HTdir & HST & _).
    split; [|split; [|split]].
    + intros f Hf. apply staged_move_empties; assumption.
    + intros f Hf Hns. apply staged_move_keeps; assumption.
    + intros k e Hk Hin. assert (k = 0) by lia. subst. rewrite staging_at_0.
      apply staged_has_pairs; assumption.
    + intros f Hf. destruct (staged_origin _ _ _ _ _ HST Hf) as [[H _]|H].
      * left. exact H.
      * right. exists 0. split; [lia|]. rewrite staging_at_0. exact H.
  - (* several rules *)
    set (tr := n :: m :: rest) in *.
    assert (Hp : processed tr file_list w =
                 let W := fold_left (processing_staged true file_list) tr w in
                 set_files W (fold_left (remove_pair incoming_path) file_list (files W)))
      by reflexivity.
    rewrite Hp. cbv zeta.
    destruct (staged_copies_facts tr file_list w Hcan) as (Ha & Hb & Hc & _).
    cbv zeta in Ha, Hb, Hc. cbn [files set_files].
    assert (Hother : forall k f, k < length tr -> Path.parent f = staging_at w k -> f <> [] ->
                                 in_pairs incoming_path file_list f = false).
    { intros k f Hk Hpar Hnil.
      destruct (in_pairs incoming_path file_list f) eqn:E; [|reflexivity].
      apply in_pairs_parent in E. destruct E as [E _]. exfalso.
      destruct Hcan as (_ & Hinc & _ & _ & Hfresh).
      destruct (Hfresh k Hk) as [_ Hpres]. fold (staging_at w k) in Hpres.
      destruct (present_false _ _ Hpres) as [_ Hnd].
      rewrite <- Hpar, E in Hnd. congruence. }
    split; [|split; [|split]].
    + intros f Hf. rewrite mem_remove_all, Hf. apply andb_false_r.
    + intros f Hf Hns. rewrite mem_remove_all, (Ha f Hf), Hns. reflexivity.
    + intros k e Hk Hin. destruct (Hb k e Hk Hin) as [H1 H2].
      rewrite !mem_remove_all, H1, H2.
      rewrite (Hother k (dcm_in (staging_at w k) e) Hk (parent_dcm_in _ _))
        by (unfold dcm_in; intros E; apply app_eq_nil in E; destruct E; discriminate).
      rewrite (Hother k (tags_in (staging_at w k) e) Hk (parent_tags_in _ _))
        by (unfold tags_in; intros E; apply app_eq_nil in E; destruct E; discriminate).
      split; reflexivity.
    + intros f Hf. rewrite mem_remove_all in Hf. apply andb_prop in Hf.
      destruct Hf as [Hf _]. apply Hc. exact Hf.
Qed.

(** The run of route_series on a series whose triggered rules are all
    processing rules, when the scan puts [first] in front. *)
Lemma route_series_processing_run uid w first rest tags :
  NoDup (map fst (rules config)) ->
  Path.no_slash uid = true ->
  FS.present w (series_lock uid) = false ->
  series_files w uid = first :: rest ->
  NoDup (series_files w uid) ->
  forallb (pair_present w) (series_files w uid) = true ->
  json_load ext (tags_in incoming_path first) = Some tags ->
  triggered_set tags <> [] ->
  discard_override tags = "" ->
  forallb processes (triggered_set tags) = true ->
  can_stage (length (triggered_set tags)) (locked w uid) ->
  let file_list := series_files w uid in
  let triggered_rules := triggered_set tags in
  let w' := snd (route_series uid w) in
  route_series uid w =
    (Ok tt, unlocked (processed triggered_rules file_list (registered w uid first tags)) uid)
  /\ (forall e, In e file_list ->
        Path.mem (dcm_in incoming_path e) (files w') = false
        /\ Path.mem (tags_in incoming_path e) (files w') = false)
  /\ (forall k e, k < length triggered_rules -> In e file_list ->
        Path.mem (dcm_in (staging_at w k) e) (files w') = true
        /\ Path.mem (tags_in (staging_at w k) e) (files w') = true)
  /\ (forall f, Path.mem f (files w') = true ->
        Path.mem f (files w) = true
        \/ exists k, k < length triggered_rules /\ Path.parent f = staging_at w k).
Proof.
  intros Hnd Hu Hfree Hscan Hndf Hpairs Hjson Hne Hdis Hproc Hcan file_list triggered_rules.
  set (w1 := registered w uid first tags).
  set (W := processed triggered_rules file_list w1).
  assert (Hcan1 : can_stage (length triggered_rules) w1) by exact Hcan.
  assert (Hinc : FS.is_dir w incoming_path = true) by (destruct Hcan as (_ & H & _); exact H).
  assert (Hpairs1 : forallb (pair_present w1) file_list = true).
  { rewrite forallb_forall in *. intros e Hin.
    destruct (pair_present_elim _ _ (Hpairs e Hin)) as (He & Hd & Ht).
    unfold pair_present, w1, registered. cbn [files with_trace].
    rewrite He, !mem_locked, Hd, Ht. rewrite !orb_true_r. reflexivity. }
  assert (Hfirst : pair_present w first = true).
  { rewrite forallb_forall in Hpairs. apply Hpairs. fold file_list.
    unfold file_list. rewrite Hscan. left. reflexivity. }
  destruct (processed_facts triggered_rules file_list w1 Hne Hcan1)
    as (Hgone & Hkeep & Hdest & Horigin).
  fold W in Hgone, Hkeep, Hdest, Horigin. cbv zeta in Hgone, Hkeep, Hdest, Horigin.
  assert (Hlock : Path.mem (series_lock uid) (files W) = true).
  { apply Hkeep.
    - unfold w1, registered. cbn [files with_trace]. rewrite mem_locked, eqb_refl.
      reflexivity.
    - apply series_lock_not_in_pairs. }
  assert (Hrun : route_series uid w = (Ok tt, unlocked W uid)).
  { apply (route_series_run uid w first rest tags W); try assumption.
    fold triggered_rules. fold file_list. fold w1. rewrite Hdis.
    apply dispatch_processing; try assumption.
    apply processes_configured. exact Hproc. }
  intros w'. unfold w'. rewrite Hrun. cbn [snd].
  split; [reflexivity|]. split; [|split].
  - intros e Hin. rewrite !mem_unlocked.
    rewrite (Hgone (dcm_in incoming_path e))
      by (apply in_pairs_true; exists e; split; [exact Hin | left; reflexivity]).
    rewrite (Hgone (tags_in incoming_path e))
      by (apply in_pairs_true; exists e; split; [exact Hin | right; reflexivity]).
    rewrite !andb_false_r. split; reflexivity.
  - intros k e Hk Hin. rewrite !mem_unlocked.
    destruct (Hdest k e Hk Hin) as [H1 H2].
    change (staging_at w1 k) with (staging_at w k) in H1, H2.
    rewrite H1, H2, !andb_true_r.
    destruct Hcan as (_ & _ & _ & _ & Hfresh).
    destruct (Hfresh k Hk) as [_ Hpres].
    change (uuid_count (locked w uid)) with (uuid_count w) in Hpres.
    fold (staging_at w k) in Hpres.
    destruct (present_false _ _ Hpres) as [_ Hndir].
    assert (Hpar : incoming_path <> staging_at w k)
      by (intros E; rewrite <- E in Hndir;
          change (FS.is_dir (locked w uid) incoming_path) with (FS.is_dir w incoming_path)
            in Hndir; congruence).
    split; apply negb_true_iff; apply eqb_neq; unfold series_lock, dcm_in, tags_in;
      intros E; apply child_inj in E; destruct E as [E _]; apply Hpar; symmetry; exact E.
  - intros f Hf. rewrite mem_unlocked in Hf. apply andb_prop in Hf.
    destruct Hf as [Hnl Hf]. apply negb_true_iff in Hnl.
    destruct (Horigin f Hf) as [H|H].
    + left. unfold w1, registered in H. cbn [files with_trace] in H.
      rewrite mem_locked, Hnl in H. exact H.
    + right. exact H.
Qed.

(** X27 (route_series, push_serieslevel_processing, push_files and
    remove_series).  For a series with a non-empty file list whose pairs
    are all in the incoming folder and whose tag files all hold the
    document [tags], whose triggered set is non-empty, has no
    discard-override and consists of series-level rules with action
    process or both, and whose staging folders can be created:
    route_series returns, and the world it leaves is the one in which, for
    a single triggered rule, every pair has been moved into the staging
    folder of that rule, and for several triggered rules every rule's
    staging folder has received a copy of every pair and the originals
    have been removed at the end ([first] being the entry the scan puts in
    front, whichever it is).  In both cases no pair is left in the
    incoming folder, every pair is in each staging folder (the one folder,
    for a single rule), and no file has appeared anywhere else. *)
Theorem processing_moves_for_one_rule_and_copies_for_several uid w tags :
  NoDup (map fst (rules config)) ->
  Path.no_slash uid = true ->
  FS.present w (series_lock uid) = false ->
  series_files w uid <> [] ->
  NoDup (series_files w uid) ->
  forallb (pair_present w) (series_files w uid) = true ->
  (forall e, In e (series_files w uid) ->
     json_load ext (tags_in incoming_path e) = Some tags) ->
  triggered_set tags <> [] ->
  discard_override tags = "" ->
  forallb processes (triggered_set tags) = true ->
  can_stage (length (triggered_set tags)) (locked w uid) ->
  let file_list := series_files w uid in
  let triggered_rules := triggered_set tags in
  let w' := snd (route_series uid w) in
  (exists first, In first file_list
     /\ route_series uid w =
        (Ok tt, unlocked (processed triggered_rules file_list (registered w uid first tags))
                         uid))
  /\ (forall e, In e file_list ->
        Path.mem (dcm_in incoming_path e) (files w') = false
        /\ Path.mem (tags_in incoming_path e) (files w') = false)
  /\ (forall k e, k < length triggered_rules -> In e file_list ->
        Path.mem (dcm_in (staging_at w k) e) (files w') = true
        /\ Path.mem (tags_in (staging_at w k) e) (files w') = true)
  /\ (forall f, Path.mem f (files w') = true ->
        Path.mem f (files w) = true
        \/ exists k, k < length triggered_rules /\ Path.parent f = staging_at w k).
Proof.
  intros Hnd Hu Hfree Hne Hndf Hpairs Hjson Hrules Hdis Hproc Hcan.
  destruct (series_files w uid) as [|first rest] eqn:Hscan; [congruence|].
  rewrite <- Hscan in *.
  pose proof (route_series_processing_run uid w first rest tags Hnd Hu Hfree Hscan Hndf
                Hpairs (Hjson first ltac:(rewrite Hscan; left; reflexivity))
                Hrules Hdis Hproc Hcan) as H.
  cbv zeta in *. destruct H as (Hrun & Hgone & Hdest & Horigin).
  split; [|split; [exact Hgone | split; [exact Hdest | exact Horigin]]].
  exists first. split; [rewrite Hscan; left; reflexivity | exact Hrun].
Qed.

(* =================================================================== *)
(** ** Computations that stay within a frame *)
(* =================================================================== *)



















Lemma within_weaken {A} (D D' F F' : Path.t -> Prop) (m : M A) :
  (forall p, D p -> D' p) -> (forall f, F f -> F' f) -> within D F m -> within D' F' m.
Proof.
  intros HD HF Hm w. destruct (Hm w) as (Ht & Hu & Hd & Hf).
  split; [exact Ht | split; [exact Hu | split]].
  - intros p Hp. destruct (Hd p Hp) as [H|H]; [left; exact H | right; apply HD; exact H].
  - intros f Hp. destruct (Hf f Hp) as [H|H]; [left; exact H | right; apply HF; exact H].
Qed.

(* =================================================================== *)
(** ** push_series_discard stays in its folder *)
(* =================================================================== *)






(* =================================================================== *)
(** ** route_series when the matcher asks for a discard *)
(* =================================================================== *)










Lemma substring_0_append (a b : string) : substring 0 (String.length a) (a ++ b) = a.
Proof.
  induction a as [|c a IH]; cbn [String.length String.append substring].
  - destruct b; reflexivity.
  - rewrite IH. reflexivity.
Qed.

Lemma substring_skip_append (a b : string) :
  substring (String.length a) (String.length b) (a ++ b) = b.
Proof.
  induction a as [|c a IH]; cbn [String.length String.append substring].
  - pose proof (substring_0_append b "") as H. rewrite append_nil_r in H. exact H.
  - exact IH.
Qed.

Lemma substring_split (n : nat) (s : string) :
  n <= String.length s ->
  substring 0 n s ++ substring n (String.length s - n) s = s.
Proof.
  revert s. induction n as [|n IH]; intros s Hn.
  - rewrite Nat.sub_0_r.
    pose proof (substring_0_append s "") as H. rewrite append_nil_r in H.
    destruct s; cbn [substring String.append]; [reflexivity|].
    cbn [String.append]. exact H.
  - destruct s as [|c s]; cbn [String.length] in Hn; [lia|].
    cbn [String.length substring String.append Nat.sub]. rewrite IH by lia. reflexivity.
Qed.

(** [name[:-len(suf)] + suf == name] for a name that ends in [suf]. *)
Lemma endswith_drop_last (s suf : string) :
  PyStr.endswith s suf = true -> PyStr.drop_last (String.length suf) s ++ suf = s.
Proof.
  unfold PyStr.endswith, PyStr.drop_last. intros H. apply andb_prop in H.
  destruct H as [Hlen Hsuf]. apply Nat.leb_le in Hlen. apply String.eqb_eq in Hsuf.
  pose proof (substring_split (String.length s - String.length suf) s) as Hs.
  replace (String.length s - (String.length s - String.length suf))
    with (String.length suf) in Hs by lia.
  rewrite Hsuf in Hs. apply Hs. lia.
Qed.

Lemma endswith_append (stem suf : string) : PyStr.endswith (stem ++ suf) suf = true.
Proof.
  unfold PyStr.endswith. rewrite length_append.
  replace (String.length stem + String.length suf - String.length suf)
    with (String.length stem) by lia.
  rewrite substring_skip_append, String.eqb_refl.
  replace (Nat.leb (String.length suf) (String.length stem + String.length suf)) with true
    by (symmetry; apply Nat.leb_le; lia).
  reflexivity.
Qed.

Lemma drop_last_append (stem suf : string) :
  PyStr.drop_last (String.length suf) (stem ++ suf) = stem.
Proof.
  unfold PyStr.drop_last. rewrite length_append.
  replace (String.length stem + String.length suf - String.length suf)
    with (String.length stem) by lia.
  apply substring_0_append.
Qed.





(* =================================================================== *)
(** ** push_series_discard moves every pair *)
(* =================================================================== *)

Lemma split_discard w :
  Path.component (uuid_of ext (uuid_count w)) = true ->
  Path.split (next_discard w) = discard_staging w.
Proof. intros Hc. unfold next_discard, discard_staging. apply split_child. exact Hc. Qed.

Lemma split_discard_file w n :
  Path.component (uuid_of ext (uuid_count w)) = true ->
  Path.component n = true ->
  Path.split ((next_discard w ++ "/") ++ n) = (discard_staging w ++ [n])%list.
Proof.
  intros Hu Hn. rewrite split_in_folder by exact Hn.
  rewrite split_discard by exact Hu. reflexivity.
Qed.





(** C7, as amended.  push_files transfers the pairs in list order and stops
    at the first pair whose transfer raises: the problem is reported, the
    result is [False], and the world is the one in which the failing
    transfer stopped, whatever pairs remain in the list: none of them is
    transferred. *)
Theorem push_files_stops_at_the_first_failure
        done entry remaining target_path copy_files w w1 e w2 :
  push_files done target_path copy_files w = (Ok true, w1) ->
  transfer_pair (if negb copy_files then FS.move else FS.copy)
                (INCOMING config ++ "/") (target_path ++ "/") entry w1 = (Raise e, w2) ->
  push_files (done ++ entry :: remaining) target_path copy_files w
  = (Ok false, with_trace w2 [push_problem entry]).
Proof.
  unfold push_files. intros Hdone Hfail.
  apply (push_files_loop_stops _ _ _ _ _ _ _ _ _ _ Hdone Hfail).
Qed.

(* =================================================================== *)
(** ** push_files and remove_series on arbitrary lists *)
(* =================================================================== *)

Lemma transfer_pair_keeps (copy_files : bool) sf tf e w :
  let r := transfer_pair (if negb copy_files then FS.move else FS.copy) sf tf e w in
  dirs (snd r) = dirs w /\ trace (snd r) = trace w /\ uuid_count (snd r) = uuid_count w
  /\ (copy_files = true ->
      forall f, Path.mem f (files w) = true -> Path.mem f (files (snd r)) = true).
Proof.
  destruct copy_files; cbn [negb]; unfold transfer_pair, bind.
  - rewrite copy_run.
    match goal with |- context [if ?c then _ else _] => destruct c end.
    + cbn. repeat split; auto.
    + rewrite copy_run.
      match goal with |- context [if ?c then _ else _] => destruct c end;
        cbn [fst snd set_files dirs trace uuid_count files];
        repeat split; auto; intros _ f Hf; rewrite ?mem_add, Hf, ?orb_true_r; reflexivity.
  - rewrite move_run.
    match goal with |- context [if ?c then _ else _] => destruct c end.
    + cbn. repeat split; auto.
    + rewrite move_run.
      match goal with |- context [if ?c then _ else _] => destruct c end;
        cbn [fst snd set_files dirs trace uuid_count files];
        repeat split; auto; discriminate.
Qed.

Lemma push_files_loop_cons operation sf tf e l w :
  push_files_loop operation sf tf (e :: l) w =
  match transfer_pair operation sf tf e w with
  | (Ok _, w1) => push_files_loop operation sf tf l w1
  | (Raise _, w1) => (Ok false, with_trace w1 [push_problem e])
  end.
Proof.
  cbn [push_files_loop]. unfold bind at 1. unfold try_.
  destruct (transfer_pair operation sf tf e w) as [[a|ex] w1]; [reflexivity|].
  unfold bind. rewrite emit_run. reflexivity.
Qed.

Lemma push_files_outcome file_list target_path copy_files w :
  let r := push_files file_list target_path copy_files w in
  dirs (snd r) = dirs w
  /\ uuid_count (snd r) = uuid_count w
  /\ ((fst r = Ok true /\ trace (snd r) = trace w)
      \/ exists entry, In entry file_list /\ fst r = Ok false
                       /\ trace (snd r) = (trace w ++ [push_problem entry])%list)
  /\ (copy_files = true ->
      forall f, Path.mem f (files w) = true -> Path.mem f (files (snd r)) = true).
Proof.
  unfold push_files. revert w.
  induction file_list as [|e l IH]; intros w.
  - cbn. repeat split; auto.
  - pose proof (transfer_pair_keeps copy_files (INCOMING config ++ "/")
                                    (target_path ++ "/") e w) as K.
    cbv zeta in K. rewrite push_files_loop_cons.
    destruct (transfer_pair (if negb copy_files then FS.move else FS.copy)
                            (INCOMING config ++ "/") (target_path ++ "/") e w)
      as [[[]|ex] w1] eqn:Ht; cbn [fst snd] in K;
      destruct K as (Kd & Kt & Ku & Kf).
    + specialize (IH w1). cbv zeta in IH. destruct IH as (Id & Iu & It & If).
      cbv zeta.
      split; [congruence|]. split; [congruence|]. split.
      * destruct It as [(Hr & Htr)|(x & Hx & Hr & Htr)].
        -- left. split; [exact Hr|congruence].
        -- right. exists x. split; [right; exact Hx|]. split; [exact Hr|congruence].
      * intros Hc f Hf. apply If; [exact Hc|]. apply Kf; assumption.
    + cbv zeta. cbn [fst snd with_trace dirs trace uuid_count files].
      split; [exact Kd|]. split; [exact Ku|]. split.
      * right. exists e. split; [left; reflexivity|]. split; [reflexivity|].
        rewrite Kt. reflexivity.
      * exact Kf.
Qed.

(** X1 (push_files, lines 452-476).  push_files never raises and does not
    touch the uuid source.  Either it returns True and has sent nothing, or
    it returns False and has sent exactly one report, which names a stem of
    the list.  When it copies, the directories are what they were and no
    file that was there before is lost, whatever the outcome. *)
Theorem push_files_reports_its_failure file_list target_path copy_files w :
  let r := push_files file_list target_path copy_files w in
  uuid_count (snd r) = uuid_count w
  /\ ((fst r = Ok true /\ trace (snd r) = trace w)
      \/ exists entry, In entry file_list /\ fst r = Ok false
                       /\ trace (snd r) = (trace w ++ [push_problem entry])%list)
  /\ (copy_files = true ->
      dirs (snd r) = dirs w
      /\ forall f, Path.mem f (files w) = true -> Path.mem f (files (snd r)) = true).
Proof.
  destruct (push_files_outcome file_list target_path copy_files w) as (Hd & Hu & Ht & Hc).
  cbv zeta. split; [exact Hu | split; [exact Ht |]].
  intros E. split; [exact Hd | exact (Hc E)].
Qed.

Lemma split_target_file (target_path n : string) :
  Path.component n = true ->
  Path.split ((target_path ++ "/") ++ n) = (Path.split target_path ++ [n])%list.
Proof. apply split_in_folder. Qed.

(** X2 (push_files, lines 452-476, move semantics).  When the stems are
    distinct, every pair lies in the incoming folder, and the target is an
    existing directory other than the incoming folder in which no
    directory bears the name of a file to come, push_files with
    copy_files = False returns True without a report; afterwards a file
    exists exactly when it is a pair file in the target folder, or was
    there before and is not a pair file of the incoming folder. *)
Theorem push_files_moves_every_pair file_list target_path w :
  NoDup file_list ->
  forallb (pair_ready incoming_path (Path.split target_path) w) file_list = true ->
  FS.is_dir w (Path.split target_path) = true ->
  incoming_path <> Path.split target_path ->
  exists w',
    push_files file_list target_path false w = (Ok true, w')
    /\ dirs w' = dirs w /\ trace w' = trace w
    /\ forall f, Path.mem f (files w') =
                 in_pairs (Path.split target_path) file_list f
                 || (Path.mem f (files w) && negb (in_pairs incoming_path file_list f)).
Proof.
  intros Hnd Hready Hdir Hne.
  exists (set_files w (fold_left (move_pair incoming_path (Path.split target_path))
                                 file_list (files w))).
  split.
  - unfold push_files. cbn [negb].
    apply (push_files_loop_move (INCOMING config ++ "/") (target_path ++ "/")
             incoming_path (Path.split target_path)
             split_incoming_file (split_target_file target_path)); assumption.
  - cbn [set_files dirs trace files]. split; [reflexivity|]. split; [reflexivity|].
    intros f. apply mem_move_all. exact Hne.
Qed.

(** X3 (push_files, lines 452-476, copy semantics).  When every pair lies in
    the incoming folder and the target is an existing directory other than
    the incoming folder in which no directory bears the name of a file to
    come, push_files with copy_files = True returns True without a report;
    afterwards a file exists exactly when it is a pair file in the target
    folder or was there before: the originals stay. *)
Theorem push_files_copies_every_pair file_list target_path w :
  forallb (pair_ready incoming_path (Path.split target_path) w) file_list = true ->
  FS.is_dir w (Path.split target_path) = true ->
  incoming_path <> Path.split target_path ->
  exists w',
    push_files file_list target_path true w = (Ok true, w')
    /\ dirs w' = dirs w /\ trace w' = trace w
    /\ forall f, Path.mem f (files w') =
                 in_pairs (Path.split target_path) file_list f || Path.mem f (files w).
Proof.
  intros Hready Hdir _.
  exists (set_files w (fold_left (copy_pair (Path.split target_path)) file_list (files w))).
  split.
  - unfold push_files. cbn [negb].
    apply (push_files_loop_copy (INCOMING config ++ "/") (target_path ++ "/")
             incoming_path (Path.split target_path)
             split_incoming_file (split_target_file target_path)); assumption.
  - cbn [set_files dirs trace files]. split; [reflexivity|]. split; [reflexivity|].
    intros f. apply mem_copy_all.
Qed.

Lemma try_then {A B} (m : M A) (k : exn + A -> M B) w :
  bind (try_ m) k w =
  match m w with
  | (Ok a, w1) => k (inr a) w1
  | (Raise e, w1) => k (inl e) w1
  end.
Proof. unfold bind, try_. destruct (m w) as [[a|e] w1]; reflexivity. Qed.

(** The [try] block of remove_series for one stem. *)
Lemma remove_series_cons e l w :
  remove_series (e :: l) w =
  match (FS.remove ((INCOMING config ++ "/") ++ e ++ mercure_names.TAGS) ;;
         FS.remove ((INCOMING config ++ "/") ++ e ++ mercure_names.DCM)) w with
  | (Ok _, w1) => remove_series l w1
  | (Raise _, w1) => remove_series l (with_trace w1 [remove_problem e])
  end.
Proof.
  cbn [remove_series]. rewrite try_then.
  destruct ((FS.remove ((INCOMING config ++ "/") ++ e ++ mercure_names.TAGS) ;;
             FS.remove ((INCOMING config ++ "/") ++ e ++ mercure_names.DCM)) w)
    as [[a|ex] w1]; unfold bind; [reflexivity|].
  rewrite emit_run. reflexivity.
Qed.

Lemma remove_block_run s1 s2 w :
  (FS.remove s1 ;; FS.remove s2) w =
  if FS.is_file w (Path.split s1)
  then if Path.mem (Path.split s2) (Path.remove (Path.split s1) (files w))
       then (Ok tt, set_files w (Path.remove (Path.split s2)
                                   (Path.remove (Path.split s1) (files w))))
       else (Raise OSError, set_files w (Path.remove (Path.split s1) (files w)))
  else (Raise OSError, w).
Proof.
  unfold bind. rewrite remove_run.
  destruct (FS.is_file w (Path.split s1)); [|reflexivity].
  rewrite remove_run. unfold FS.is_file. cbn [set_files files].
  destruct (Path.mem (Path.split s2) (Path.remove (Path.split s1) (files w)));
    reflexivity.
Qed.

Lemma remove_series_outcome file_list w :
  let r := remove_series file_list w in
  fst r = Ok tt
  /\ dirs (snd r) = dirs w
  /\ uuid_count (snd r) = uuid_count w
  /\ (forall f, Path.mem f (files (snd r)) = true -> Path.mem f (files w) = true)
  /\ (forall f, Path.mem f (files w) = true ->
        (forall e, In e file_list ->
           f <> Path.split ((INCOMING config ++ "/") ++ e ++ mercure_names.TAGS)
           /\ f <> Path.split ((INCOMING config ++ "/") ++ e ++ mercure_names.DCM)) ->
        Path.mem f (files (snd r)) = true)
  /\ exists failed,
       trace (snd r) = (trace w ++ map remove_problem failed)%list
       /\ incl failed file_list.
Proof.
  revert w. induction file_list as [|e l IH]; intros w.
  - cbn. repeat split; auto. exists []. rewrite app_nil_r. split; [reflexivity|].
    apply incl_refl.
  - cbv zeta. rewrite remove_series_cons, remove_block_run.
    set (t := Path.split ((INCOMING config ++ "/") ++ e ++ mercure_names.TAGS)).
    set (d := Path.split ((INCOMING config ++ "/") ++ e ++ mercure_names.DCM)).
    destruct (FS.is_file w t) eqn:Ht;
      [destruct (Path.mem d (Path.remove t (files w))) eqn:Hd|].
    + specialize (IH (set_files w (Path.remove d (Path.remove t (files w))))).
      cbv zeta in IH. destruct IH as (I1 & I2 & I3 & I4 & I5 & failed & I6 & I7).
      cbn [set_files dirs uuid_count files trace] in *.
      split; [exact I1|]. split; [exact I2|]. split; [exact I3|]. split; [|split].
      * intros f Hf. apply I4 in Hf. rewrite !mem_remove in Hf.
        apply andb_prop in Hf. destruct Hf as [_ Hf].
        apply andb_prop in Hf. apply Hf.
      * intros f Hf Hne. apply I5.
        -- rewrite !mem_remove, Hf.
           destruct (Hne e (or_introl eq_refl)) as [Ht' Hd'].
           fold t in Ht'. fold d in Hd'.
           assert (E1 : Path.eqb d f = false) by (apply eqb_neq; congruence).
           assert (E2 : Path.eqb t f = false) by (apply eqb_neq; congruence).
           rewrite E1, E2. reflexivity.
        -- intros e' He'. apply Hne. right. exact He'.
      * exists failed. split; [exact I6|]. apply incl_tl. exact I7.
    + specialize (IH (with_trace (set_files w (Path.remove t (files w))) [remove_problem e])).
      cbv zeta in IH. destruct IH as (I1 & I2 & I3 & I4 & I5 & failed & I6 & I7).
      cbn [with_trace set_files dirs uuid_count files trace] in *.
      split; [exact I1|]. split; [exact I2|]. split; [exact I3|]. split; [|split].
      * intros f Hf. apply I4 in Hf. rewrite mem_remove in Hf.
        apply andb_prop in Hf. apply Hf.
      * intros f Hf Hne. apply I5.
        -- rewrite mem_remove, Hf.
           destruct (Hne e (or_introl eq_refl)) as [Ht' _]. fold t in Ht'.
           assert (E2 : Path.eqb t f = false) by (apply eqb_neq; congruence).
           rewrite E2. reflexivity.
        -- intros e' He'. apply Hne. right. exact He'.
      * exists (e :: failed). split.
        -- rewrite I6. rewrite <- app_assoc. reflexivity.
        -- intros x [Hx|Hx]; [left; exact Hx|right; apply I7; exact Hx].
    + specialize (IH (with_trace w [remove_problem e])).
      cbv zeta in IH. destruct IH as (I1 & I2 & I3 & I4 & I5 & failed & I6 & I7).
      cbn [with_trace set_files dirs uuid_count files trace] in *.
      split; [exact I1|]. split; [exact I2|]. split; [exact I3|]. split; [|split].
      * exact I4.
      * intros f Hf Hne. apply I5; [exact Hf|].
        intros e' He'. apply Hne. right. exact He'.
      * exists (e :: failed). split.
        -- rewrite I6. rewrite <- app_assoc. reflexivity.
        -- intros x [Hx|Hx]; [left; exact Hx|right; apply I7; exact Hx].
Qed.

(** X4 (remove_series, lines 479-488).  remove_series never raises: every
    failure is caught and reported with the stem it concerns, and the loop
    goes on.  It touches no directory, creates no file, and removes nothing
    but the [.tags] and [.dcm] files of the stems it was given. *)
Theorem remove_series_only_removes_the_pairs file_list w :
  let r := remove_series file_list w in
  fst r = Ok tt
  /\ dirs (snd r) = dirs w
  /\ (forall f, Path.mem f (files (snd r)) = true -> Path.mem f (files w) = true)
  /\ (forall f, Path.mem f (files w) = true ->
        (forall e, In e file_list ->
           f <> Path.split ((INCOMING config ++ "/") ++ e ++ mercure_names.TAGS)
           /\ f <> Path.split ((INCOMING config ++ "/") ++ e ++ mercure_names.DCM)) ->
        Path.mem f (files (snd r)) = true)
  /\ exists failed,
       trace (snd r) = (trace w ++ map remove_problem failed)%list
       /\ incl failed file_list.
Proof.
  pose proof (remove_series_outcome file_list w) as H. cbv zeta in H.
  destruct H as (H1 & H2 & _ & H4 & H5 & H6).
  cbv zeta. repeat split; assumption.
Qed.

(** X5 (remove_series, lines 479-488).  When the stems are distinct and every
    pair lies in the incoming folder, remove_series reports nothing and
    leaves exactly the files that are not a pair file of the incoming
    folder. *)
Theorem remove_series_removes_every_pair file_list w :
  NoDup file_list ->
  forallb (pair_present w) file_list = true ->
  exists w',
    remove_series file_list w = (Ok tt, w')
    /\ dirs w' = dirs w /\ trace w' = trace w
    /\ forall f, Path.mem f (files w') =
                 Path.mem f (files w) && negb (in_pairs incoming_path file_list f).
Proof.
  intros Hnd Hp.
  exists (set_files w (fold_left (remove_pair incoming_path) file_list (files w))).
  split; [apply remove_series_run; assumption|].
  cbn [set_files dirs trace files]. split; [reflexivity|]. split; [reflexivity|].
  intros f. apply mem_remove_all.
Qed.

Lemma split_incoming_tags e :
  Path.no_slash e = true ->
  Path.split ((INCOMING config ++ "/") ++ e ++ mercure_names.TAGS) = tags_in incoming_path e.
Proof. apply (split_source_tags (INCOMING config ++ "/") incoming_path split_incoming_file). Qed.

Lemma split_incoming_dcm e :
  Path.no_slash e = true ->
  Path.split ((INCOMING config ++ "/") ++ e ++ mercure_names.DCM) = dcm_in incoming_path e.
Proof. apply (split_source_dcm (INCOMING config ++ "/") incoming_path split_incoming_file). Qed.

(** X6 (remove_series, lines 482-488).  The sidecar is removed first and the
    [try] block is left at the first failure: a stem whose [.tags] file is
    missing is reported, and its payload stays in the incoming folder even
    though the stem was handed to remove_series. *)
Theorem remove_series_keeps_a_payload_without_sidecar file_list e w :
  forallb Path.no_slash file_list = true ->
  In e file_list ->
  Path.mem (tags_in incoming_path e) (files w) = false ->
  Path.mem (dcm_in incoming_path e) (files w) = true ->
  let r := remove_series file_list w in
  Path.mem (dcm_in incoming_path e) (files (snd r)) = true
  /\ In (remove_problem e) (trace (snd r)).
Proof.
  intros Hns Hin Ht Hd. cbv zeta.
  enough (H : Path.mem (dcm_in incoming_path e) (files (snd (remove_series file_list w))) = true
              /\ (In e file_list ->
                  In (remove_problem e) (trace (snd (remove_series file_list w)))))
    by (split; [apply H|apply H; exact Hin]).
  clear Hin. revert w Ht Hd.
  induction file_list as [|e' l IH]; intros w Ht Hd.
  - cbn. split; [exact Hd|intros []].
  - cbn [forallb] in Hns. apply andb_prop in Hns. destruct Hns as [He' Hl].
    specialize (IH Hl).
    rewrite remove_series_cons, remove_block_run.
    rewrite (split_incoming_tags e' He'), (split_incoming_dcm e' He').
    unfold FS.is_file.
    assert (Hdt : Path.eqb (tags_in incoming_path e') (dcm_in incoming_path e) = false).
    { apply eqb_neq. intros E. symmetry in E. exact (dcm_in_not_tags_in _ _ _ E). }
    destruct (Path.mem (tags_in incoming_path e') (files w)) eqn:Ht'.
    + assert (Hne : e' <> e) by (intros E; subst e'; congruence).
      assert (Hdd : Path.eqb (dcm_in incoming_path e') (dcm_in incoming_path e) = false).
      { apply eqb_neq. intros E. apply dcm_in_inj in E. contradiction. }
      destruct (Path.mem (dcm_in incoming_path e')
                  (Path.remove (tags_in incoming_path e') (files w))) eqn:Hd'.
      * destruct (IH (set_files w (Path.remove (dcm_in incoming_path e')
                                     (Path.remove (tags_in incoming_path e') (files w)))))
          as [I1 I2].
        -- cbn [set_files files]. rewrite !mem_remove, Ht, !andb_false_r. reflexivity.
        -- cbn [set_files files]. rewrite !mem_remove, Hd, Hdd, Hdt. reflexivity.
        -- split; [exact I1|]. intros [E|Hin]; [contradiction|]. apply I2. exact Hin.
      * destruct (IH (with_trace (set_files w (Path.remove (tags_in incoming_path e') (files w)))
                                 [remove_problem e']))
          as [I1 I2].
        -- cbn [with_trace set_files files]. rewrite mem_remove, Ht, andb_false_r. reflexivity.
        -- cbn [with_trace set_files files]. rewrite mem_remove, Hd, Hdt. reflexivity.
        -- split; [exact I1|]. intros [E|Hin]; [contradiction|]. apply I2. exact Hin.
    + destruct (IH (with_trace w [remove_problem e'])) as [I1 I2]; [exact Ht|exact Hd|].
      split; [exact I1|]. intros [E|Hin]; [|apply I2; exact Hin]. subst e'.
      pose proof (remove_series_outcome l (with_trace w [remove_problem e])) as O.
      cbv zeta in O. destruct O as (_ & _ & _ & _ & _ & failed & O & _).
      rewrite O. cbn [with_trace trace]. apply in_or_app. left.
      apply in_or_app. right. left. reflexivity.
Qed.

(* =================================================================== *)
(** ** Computations that never raise *)
(* =================================================================== *)

Lemma never_raises_ret {A} (a : A) : never_raises (ret a).
Proof. intros w. exists a. reflexivity. Qed.

Lemma never_raises_bind {A B} (m : M A) (k : A -> M B) :
  never_raises m -> (forall a, never_raises (k a)) -> never_raises (bind m k).
Proof.
  intros Hm Hk w. unfold bind. destruct (Hm w) as [a Ha].
  destruct (m w) as [[a'|e] w1]; cbn [fst] in Ha; [|discriminate].
  apply Hk.
Qed.

Lemma never_raises_try {A} (m : M A) : never_raises (try_ m).
Proof.
  intros w. unfold try_. destruct (m w) as [[a|e] w1];
    [exists (inr a)|exists (inl e)]; reflexivity.
Qed.

Lemma never_raises_emit e : never_raises (emit e).
Proof. intros w. exists tt. reflexivity. Qed.

Lemma never_raises_exists s : never_raises (FS.exists_ s).
Proof. intros w. rewrite exists_run. eexists. reflexivity. Qed.

Lemma never_raises_uuid1 : never_raises uuid1.
Proof. intros w. rewrite uuid1_run. eexists. reflexivity. Qed.

Lemma never_raises_scope {A} lock (m : M A) :
  never_raises m -> never_raises (FileLock.scope lock m).
Proof.
  intros Hm w. unfold FileLock.scope. destruct (Hm w) as [a Ha].
  destruct (m w) as [r w1]. cbn [fst] in *. exists a. exact Ha.
Qed.

Lemma never_raises_rules_get n :
  dict_get n (rules config) <> None -> never_raises (rules_get n).
Proof.
  intros Hn w. unfold rules_get.
  destruct (dict_get n (rules config)) as [r|]; [|contradiction].
  exists r. reflexivity.
Qed.

Lemma never_raises_trigger n tags :
  dict_get n (rules config) <> None ->
  never_raises (trigger_serieslevel_notification_reception n tags).
Proof.
  intros Hn. unfold trigger_serieslevel_notification_reception.
  apply never_raises_bind; [apply never_raises_rules_get; exact Hn|]. intros r1.
  apply never_raises_bind; [apply never_raises_rules_get; exact Hn|]. intros r2.
  apply never_raises_emit.
Qed.

Lemma never_raises_write_task s : never_raises (write_task s).
Proof.
  unfold write_task. apply never_raises_bind; [apply never_raises_try|].
  intros [e|[]]; [|apply never_raises_ret].
  apply never_raises_bind; [apply never_raises_emit|]. intros _. apply never_raises_ret.
Qed.

Lemma never_raises_push_files file_list target_path copy_files :
  never_raises (push_files file_list target_path copy_files).
Proof.
  unfold push_files.
  induction file_list as [|e l IH]; cbn [push_files_loop]; [apply never_raises_ret|].
  apply never_raises_bind; [apply never_raises_try|].
  intros [ex|[]]; [|exact IH].
  apply never_raises_bind; [apply never_raises_emit|]. intros _. apply never_raises_ret.
Qed.

Lemma never_raises_discard_loop sf tf file_list :
  never_raises (discard_loop sf tf file_list).
Proof.
  induction file_list as [|e l IH]; cbn [discard_loop]; [apply never_raises_ret|].
  apply never_raises_bind; [apply never_raises_try|]. intros r.
  apply never_raises_bind; [|intros _; exact IH].
  destruct r as [ex|[]]; [apply never_raises_emit|apply never_raises_ret].
Qed.

Lemma never_raises_free_reported lock msg :
  never_raises (r <- try_ (FileLock.free lock) ;;
                match r with
                | inl _ => emit (send_event msg)
                | inr _ => ret tt
                end).
Proof.
  apply never_raises_bind; [apply never_raises_try|].
  intros [ex|[]]; [apply never_raises_emit|apply never_raises_ret].
Qed.

(** X7 (push_series_discard, lines 177-231).  push_series_discard never
    raises, whatever the state of the folders and whatever the file list:
    every failure of a file system operation is caught inside it. *)
Theorem push_series_discard_never_raises fileList series_UID discard_series w :
  fst (push_series_discard fileList series_UID discard_series w) = Ok tt.
Proof.
  assert (H : never_raises (push_series_discard fileList series_UID discard_series)).
  { unfold push_series_discard.
    apply never_raises_bind; [apply never_raises_uuid1|]. intros u.
    apply never_raises_bind; [apply never_raises_try|].
    intros [ex|[]]; [apply never_raises_emit|].
    apply never_raises_bind; [apply never_raises_exists|].
    intros [|]; cbn [negb]; [|apply never_raises_emit].
    apply never_raises_bind; [apply never_raises_try|].
    intros [ex|lock]; [apply never_raises_emit|].
    apply never_raises_scope.
    apply never_raises_bind; [apply never_raises_emit|]. intros _.
    apply never_raises_bind; [apply never_raises_discard_loop|]. intros _.
    apply never_raises_bind; [apply never_raises_emit|]. intros _.
    apply never_raises_free_reported. }
  destruct (H w) as [[] Ha]. exact Ha.
Qed.

(* =================================================================== *)
(** ** The matcher on arbitrary rule tables *)
(* =================================================================== *)

Lemma keys_add_In k d x : In x (keys_add k d) <-> x = k \/ In x d.
Proof.
  induction d as [|k' d IH]; cbn [keys_add].
  - cbn. intuition.
  - destruct (String.eqb k k') eqn:E.
    + apply String.eqb_eq in E. subst k'. cbn. intuition.
    + cbn. rewrite IH. intuition.
Qed.

Lemma keys_add_NoDup k d : NoDup d -> NoDup (keys_add k d).
Proof.
  induction d as [|k' d IH]; intros Hd; cbn [keys_add].
  - constructor; [intros []|constructor].
  - destruct (String.eqb k k') eqn:E; [exact Hd|].
    inversion Hd as [|? ? Hnin Hd']; subst.
    constructor; [|apply IH; exact Hd'].
    rewrite keys_add_In. intros [Hx|Hx]; [|contradiction].
    subst k'. rewrite String.eqb_refl in E. discriminate.
Qed.

Lemma get_triggered_rules_loop_invariant tagList names acc :
  (forall n, In n acc -> dict_get n (rules config) <> None) ->
  NoDup acc ->
  exists triggered_rules discard_rule evs,
    (forall w, get_triggered_rules_loop names tagList acc w
               = (Ok (triggered_rules, discard_rule), with_trace w evs))
    /\ (forall n, In n triggered_rules -> dict_get n (rules config) <> None)
    /\ NoDup triggered_rules
    /\ (discard_rule <> "" -> In discard_rule triggered_rules)
    /\ forallb is_report evs = true.
Proof.
  revert acc. induction names as [|n rest IH]; intros acc Hacc Hnd.
  - exists acc, "", []. split; [|split; [|split; [|split]]]; auto.
    + intros w. cbn. rewrite with_trace_nil. reflexivity.
    + intros H. contradiction.
  - cbn [get_triggered_rules_loop].
    assert (Hreport : forall msg,
      exists triggered_rules discard_rule evs,
        (forall w, (emit (send_event msg) ;;
                    get_triggered_rules_loop rest tagList acc) w
                   = (Ok (triggered_rules, discard_rule), with_trace w evs))
        /\ (forall n, In n triggered_rules -> dict_get n (rules config) <> None)
        /\ NoDup triggered_rules
        /\ (discard_rule <> "" -> In discard_rule triggered_rules)
        /\ forallb is_report evs = true).
    { intros msg. destruct (IH acc Hacc Hnd) as (tr & d & evs & Hrun & H1 & H2 & H3 & H4).
      exists tr, d, (send_event msg :: evs). split; [|split; [|split; [|split]]]; auto.
      intros w. unfold bind. rewrite emit_run, Hrun, with_trace_app. reflexivity. }
    destruct (dict_get n (rules config)) as [r|] eqn:Hr; [|apply Hreport].
    destruct (String.eqb (get (DISABLED r) "False") "True"); [apply IH; assumption|].
    destruct (parse_rule ext (get (RULE r) "False") tagList) as [[|]|];
      [|apply IH; assumption|apply Hreport].
    assert (Hacc' : forall x, In x (keys_add n acc) -> dict_get x (rules config) <> None).
    { intros x Hx. apply keys_add_In in Hx. destruct Hx as [Hx|Hx];
        [subst x; congruence|apply Hacc; exact Hx]. }
    destruct (String.eqb (get (ACTION r) "") mercure_actions.DISCARD).
    + exists (keys_add n acc), n, []. split; [|split; [|split; [|split]]]; auto.
      * intros w. cbn. rewrite with_trace_nil. reflexivity.
      * apply keys_add_NoDup. exact Hnd.
      * intros _. apply keys_add_In. left. reflexivity.
    + apply IH; [exact Hacc'|apply keys_add_NoDup; exact Hnd].
Qed.

(** X8 (get_triggered_rules, lines 151-174).  On every rule table and every
    tag document get_triggered_rules returns normally, and its result does
    not depend on the state of the folders: the same triggered rules, the
    same discard rule and the same reports in every world, every report an
    error event.  The triggered rules are distinct keys of the rules table,
    and a non-empty discard rule is one of them. *)
Theorem get_triggered_rules_yields_configured_rules tagList :
  exists triggered_rules discard_rule evs,
    (forall w, get_triggered_rules tagList w
               = (Ok (triggered_rules, discard_rule), with_trace w evs))
    /\ configured triggered_rules
    /\ NoDup triggered_rules
    /\ (discard_rule <> "" -> In discard_rule triggered_rules)
    /\ forallb is_report evs = true.
Proof.
  unfold get_triggered_rules, configured.
  apply get_triggered_rules_loop_invariant; [intros n []|constructor].
Qed.

(* =================================================================== *)
(** ** The selected targets *)
(* =================================================================== *)

Lemma dict_get_set_same {V} k (v : V) d : dict_get k (dict_set k v d) = Some v.
Proof.
  induction d as [|[k' v'] d IH]; cbn [dict_set dict_get].
  - rewrite String.eqb_refl. reflexivity.
  - destruct (String.eqb k k') eqn:E; cbn [dict_get].
    + rewrite String.eqb_refl. reflexivity.
    + rewrite E. exact IH.
Qed.

Lemma dict_get_set_other {V} k k' (v : V) d :
  k' <> k -> dict_get k' (dict_set k v d) = dict_get k' d.
Proof.
  intros Hne. induction d as [|[k0 v0] d IH]; cbn [dict_set dict_get].
  - destruct (String.eqb k' k) eqn:E; [|reflexivity].
    apply String.eqb_eq in E. contradiction.
  - destruct (String.eqb k k0) eqn:E; cbn [dict_get].
    + apply String.eqb_eq in E. subst k0.
      destruct (String.eqb k' k) eqn:E'; [|reflexivity].
      apply String.eqb_eq in E'. contradiction.
    + rewrite IH. reflexivity.
Qed.

Lemma dict_set_keys {V} k (v : V) d x :
  In x (map fst (dict_set k v d)) <-> x = k \/ In x (map fst d).
Proof.
  induction d as [|[k' v'] d IH]; cbn [dict_set map fst In].
  - intuition.
  - destruct (String.eqb k k') eqn:E; cbn [map fst In].
    + apply String.eqb_eq in E. subst k'. intuition.
    + rewrite IH. intuition.
Qed.

Lemma dict_set_NoDup {V} k (v : V) d :
  NoDup (map fst d) -> NoDup (map fst (dict_set k v d)).
Proof.
  induction d as [|[k' v'] d IH]; intros Hd; cbn [dict_set map fst].
  - constructor; [intros []|constructor].
  - cbn [map fst] in Hd. inversion Hd as [|? ? Hnin Hd']; subst.
    destruct (String.eqb k k') eqn:E; cbn [map fst].
    + apply String.eqb_eq in E. subst k'. constructor; assumption.
    + constructor; [|apply IH; exact Hd'].
      rewrite dict_set_keys. intros [Hx|Hx]; [|contradiction].
      subst k'. rewrite String.eqb_refl in E. discriminate.
Qed.

Lemma fold_select_NoDup rules_left selected :
  NoDup (map fst selected) -> NoDup (map fst (fold_left select rules_left selected)).
Proof.
  revert selected. induction rules_left as [|n l IH]; intros selected Hs; [exact Hs|].
  cbn [fold_left]. apply IH. unfold select.
  destruct (PyStr.truthy (target_of n)); [apply dict_set_NoDup|]; exact Hs.
Qed.

Lemma fold_select_keeps rules_left selected t n :
  dict_get t selected = Some n ->
  (forall m, In m rules_left -> target_of m <> t) ->
  dict_get t (fold_left select rules_left selected) = Some n.
Proof.
  revert selected. induction rules_left as [|m l IH]; intros selected Hs Hne; [exact Hs|].
  cbn [fold_left]. apply IH.
  - unfold select. destruct (PyStr.truthy (target_of m)); [|exact Hs].
    rewrite dict_get_set_other; [exact Hs|].
    intros E. apply (Hne m (or_introl eq_refl)). symmetry. exact E.
  - intros m' Hm'. apply Hne. right. exact Hm'.
Qed.

(** X9 (push_serieslevel_routing, lines 286-298).  The targets collected
    from the triggered rules are a dictionary keyed by target: no target is
    selected twice, however many route rules name it, and a target is
    attributed to the last triggered series-level route rule that names
    it. *)
Theorem routing_selects_each_target_once triggered_rules tags_list w :
  configured triggered_rules ->
  exists selected_targets w',
    routing_collect triggered_rules tags_list [] w = (Ok selected_targets, w')
    /\ NoDup (map fst selected_targets)
    /\ forall pre n post,
         triggered_rules = (pre ++ n :: post)%list ->
         routes n = true ->
         PyStr.truthy (target_of n) = true ->
         (forall m, In m post -> routes m = true -> target_of m <> target_of n) ->
         dict_get (target_of n) selected_targets = Some n.
Proof.
  intros Hc. eexists. eexists. split; [apply routing_collect_run; exact Hc|]. split.
  - apply fold_select_NoDup. constructor.
  - intros pre n post -> Hn Ht Hpost.
    rewrite filter_app. cbn [filter]. rewrite Hn.
    rewrite fold_left_app. cbn [fold_left].
    apply fold_select_keeps.
    + unfold select at 1. rewrite Ht. apply dict_get_set_same.
    + intros m Hm. apply filter_In in Hm. destruct Hm as [Hm Hr].
      apply Hpost; assumption.
Qed.

(* =================================================================== *)
(** ** The staging steps in general *)
(* =================================================================== *)

(** X10 (push_serieslevel_outgoing, lines 371-449).  For the first selected
    target that is a key of the targets table, push_serieslevel_outgoing
    creates the folder the next uuid names and then raises
    UnboundLocalError: the lock path is built by dividing two strings, and
    the handler of that block formats the never-bound [lock_file].  Only
    the invalid targets in front of it are reported; no task file is
    written, no ROUTE event is sent, no file is moved or copied, and the
    targets behind it are not looked at. *)
Theorem push_serieslevel_outgoing_stops_at_a_configured_target
        triggered_rules file_list series_UID tags_list selected_targets w :
  existsb known_target selected_targets = true ->
  cannot_mkdir w (next_outgoing w) = false ->
  push_serieslevel_outgoing triggered_rules file_list series_UID tags_list
                            selected_targets w
  = (Raise UnboundLocalError,
     add_dir (next_uuid (with_trace w (map invalid_target (unknown_prefix selected_targets))))
             (Path.split (next_outgoing w))).
Proof.
  intros Hk Hm. unfold push_serieslevel_outgoing.
  rewrite outgoing_loop_run. cbv zeta. rewrite Hk, Hm. reflexivity.
Qed.

(** X11 (push_series_studylevel, lines 234-270).  Rules that do not act on
    the study level are passed over: when none of the triggered rules has
    the action trigger [study], push_series_studylevel returns without any
    effect. *)
Theorem push_series_studylevel_passes_over_series_rules
        triggered_rules file_list series_UID tags_list w :
  configured triggered_rules ->
  existsb is_study_rule triggered_rules = false ->
  push_series_studylevel triggered_rules file_list series_UID tags_list w = (Ok tt, w).
Proof.
  intros Hc Hs. unfold push_series_studylevel.
  apply studylevel_loop_skip; assumption.
Qed.

(** X12 (push_series_studylevel, lines 234-270).  Whatever the triggered
    rules, the file list and the state of the folders, and whatever the
    outcome, push_series_studylevel leaves the regular files as they were:
    it writes no task file and transfers no pair. *)
Theorem push_series_studylevel_transfers_nothing
        triggered_rules file_list series_UID tags_list w :
  files (snd (push_series_studylevel triggered_rules file_list series_UID tags_list w))
  = files w.
Proof. unfold push_series_studylevel. apply studylevel_loop_files. Qed.

(** X13 (push_serieslevel_notification, lines 358-368).  With configured
    triggered rules, push_serieslevel_notification sends the webhook of the
    first series-level notification rule and then raises TypeError at
    [len(triggered_rules==1)], whatever the number of triggered rules; the
    later rules are not reached and nothing is removed.  Without such a
    rule it returns True and has no effect. *)
Theorem push_serieslevel_notification_stops_at_the_first_rule
        triggered_rules file_list series_UID tags_list w :
  configured triggered_rules ->
  push_serieslevel_notification triggered_rules file_list series_UID tags_list w =
  match find (is_series_rule_with mercure_actions.NOTIFICATION) triggered_rules with
  | Some n => (Raise TypeError, with_trace w [webhook_of n])
  | None => (Ok true, w)
  end.
Proof.
  intros Hc. unfold push_serieslevel_notification.
  apply notification_loop_first. exact Hc.
Qed.

(** X14 (route_error_files, lines 491-525).  route_error_files changes
    nothing in any world.  Without an incoming directory the scan raises;
    with a regular file whose name ends in [.error] the lock path is built
    by dividing two strings and TypeError is raised before anything is
    moved; otherwise (directories named [*.error] do not count) it returns
    without sending an alert. *)
Theorem route_error_files_changes_nothing w :
  route_error_files w =
  if FS.is_dir w (Path.split (INCOMING config))
  then if existsb is_error_entry
            (FS.children (Path.split (INCOMING config)) false (files w)
             ++ FS.children (Path.split (INCOMING config)) true (dirs w))%list
       then (Raise TypeError, w)
       else (Ok tt, w)
  else (Raise OSError, w).
Proof.
  destruct (FS.is_dir w (Path.split (INCOMING config))) eqn:Hd.
  - pose proof (scandir_run w Hd) as Hs. fold incoming_path.
    destruct (existsb is_error_entry
                (FS.children incoming_path false (files w)
                 ++ FS.children incoming_path true (dirs w))%list) eqn:He.
    + apply (route_error_files_marker w _ Hs He).
    + apply (route_error_files_clean w _ Hs He).
  - unfold route_error_files, bind, FS.scandir, bind, get_world. rewrite Hd. reflexivity.
Qed.


(* =================================================================== *)
(** ** route_series on a tag file that cannot be read *)
(* =================================================================== *)

Lemma remove_fresh (p : Path.t) (l : list Path.t) :
  Path.mem p l = false -> Path.remove p l = l.
Proof.
  unfold Path.mem, Path.remove. induction l as [|q l IH]; intros H; [reflexivity|].
  cbn [existsb] in H. apply orb_false_elim in H. destruct H as [Hq Hl].
  cbn [filter]. rewrite Hq. cbn [negb]. rewrite IH by exact Hl. reflexivity.
Qed.

Lemma remove_add_fresh (p : Path.t) (l : list Path.t) :
  Path.mem p l = false -> Path.remove p (Path.add p l) = l.
Proof.
  intros H. unfold Path.add. rewrite H. unfold Path.remove.
  rewrite filter_app. cbn [filter]. rewrite eqb_refl. cbn [negb].
  rewrite app_nil_r. apply remove_fresh. exact H.
Qed.

Lemma rev_head_last {A} (l : list A) (d : A) :
  l <> [] -> exists rest, rev l = (last l d :: rest)%list.
Proof.
  intros Hl. destruct (rev l) as [|a rest] eqn:E.
  - exfalso. apply Hl. rewrite <- (rev_involutive l), E. reflexivity.
  - exists rest. f_equal.
    rewrite <- (rev_involutive l), E. cbn [rev]. rewrite last_last. reflexivity.
Qed.

(** The entries route_series scans: the incoming folder with the lock of
    the series in it. *)
Lemma series_files_scan w uid :
  series_files w uid =
  collect_series (uid ++ "#")
    (FS.children incoming_path false (files (locked w uid))
     ++ FS.children incoming_path true (dirs w))%list.
Proof. reflexivity. Qed.

(** The run of route_series when the scan puts [first] in front and the
    tag file of [first] cannot be decoded. *)
Lemma route_series_unreadable_run uid w first rest :
  Path.no_slash uid = true ->
  FS.is_dir w incoming_path = true ->
  FS.present w (series_lock uid) = false ->
  series_files w uid = (first :: rest)%list ->
  Path.no_slash first = true ->
  Path.mem (tags_in incoming_path first) (files w) = true ->
  json_load ext (tags_in incoming_path first) = None ->
  let entry := fst (last (FS.children incoming_path false (files (locked w uid))
                          ++ FS.children incoming_path true (dirs w))%list ("", false)) in
  route_series uid w =
  (Ok tt, with_trace w (sequence_report w uid first
                        ++ [send_series_event ERROR entry 0 "" "Invalid tag information";
                            send_event ("Invalid tag for series " ++ uid)])%list).
Proof.
  intros Hu Hinc Hfree Hscan Hf Ht Hjson. cbv zeta.
  unfold route_series.
  unfold bind at 1. rewrite exists_run. rewrite (split_series_lock _ Hu), Hfree.
  assert (Hacq : FileLock.acquire (INCOMING config ++ "/" ++ uid ++ mercure_names.LOCK) w
                 = (Ok (INCOMING config ++ "/" ++ uid ++ mercure_names.LOCK), locked w uid)).
  { rewrite acquire_run; rewrite (split_series_lock _ Hu).
    - reflexivity.
    - exact Hfree.
    - unfold series_lock. rewrite parent_child. exact Hinc. }
  rewrite (bind_ok _ _ _ _ _ (try_ok _ _ _ _ Hacq)).
  rewrite series_files_scan in Hscan.
  set (entries := (FS.children incoming_path false (files (locked w uid))
                   ++ FS.children incoming_path true (dirs w))%list) in *.
  assert (Hne : entries <> []).
  { intros E. rewrite E in Hscan. cbn in Hscan. discriminate. }
  destruct (rev_head_last entries ("", false) Hne) as [others Hrev].
  erewrite scope_run; cycle 1.
  { rewrite (bind_ok _ _ _ _ _ (scandir_run (locked w uid) Hinc)).
    change (dirs (locked w uid)) with (dirs w).
    fold entries. rewrite Hscan.
    unfold bind at 1. cbn [index0 ret].
    rewrite (bind_ok _ _ _ _ _ (parse_ascconv_try uid first w Hf)).
    unfold bind at 1. cbn [index0 ret].
    unfold bind at 1. rewrite exists_run.
    rewrite split_child by (apply component_with; [exact Hf | reflexivity]).
    fold incoming_path. fold (tags_in incoming_path first).
    assert (Hpres : FS.present (with_trace (locked w uid) (sequence_report w uid first))
                               (tags_in incoming_path first) = true).
    { unfold FS.present, FS.is_file, locked. cbn [files with_trace set_files].
      rewrite mem_add, Ht. rewrite orb_true_r. reflexivity. }
    rewrite Hpres. cbn [negb]. rewrite Hjson. rewrite Hrev.
    unfold bind at 1. cbn [ret].
    unfold bind at 1. rewrite emit_run. rewrite emit_run.
    rewrite !with_trace_app. reflexivity. }
  rewrite (split_series_lock _ Hu).
  unfold locked, set_files, with_trace. cbn [files dirs trace uuid_count].
  rewrite remove_add_fresh.
  - reflexivity.
  - apply orb_false_elim in Hfree. apply Hfree.
Qed.

Lemma last_is_member {A} (l : list A) (d : A) : l <> [] -> In (last l d) l.
Proof.
  intros H. destruct (exists_last H) as (l' & a & ->). rewrite last_last.
  apply in_or_app. right. left. reflexivity.
Qed.

(** X16 (route_series, lines 84-121).  When no tag file of the series can
    be decoded, route_series registers nothing, evaluates no rule and
    dispatches nothing: after the attempt to read the vendor header of the
    slice the scan put first, it sends the ERROR event and the error
    report, and the files and directories are as before, the lock of the
    series released.  The ERROR event does not carry the series UID but
    [entry], the variable of the scan loop: the name of some entry of the
    incoming folder, which need not belong to the series. *)
Theorem route_series_drops_out_on_an_unreadable_tag_file uid w :
  Path.no_slash uid = true ->
  FS.is_dir w incoming_path = true ->
  FS.present w (series_lock uid) = false ->
  series_files w uid <> [] ->
  (forall e, In e (series_files w uid) ->
     Path.no_slash e = true
     /\ Path.mem (tags_in incoming_path e) (files w) = true
     /\ json_load ext (tags_in incoming_path e) = None) ->
  exists first entry,
    In first (series_files w uid)
    /\ In entry (map fst (FS.children incoming_path false (files (locked w uid))
                          ++ FS.children incoming_path true (dirs w))%list)
    /\ route_series uid w =
       (Ok tt, with_trace w (sequence_report w uid first
                             ++ [send_series_event ERROR entry 0 "" "Invalid tag information";
                                 send_event ("Invalid tag for series " ++ uid)])%list).
Proof.
  intros Hu Hinc Hfree Hne Hall.
  destruct (series_files w uid) as [|first rest] eqn:Hscan; [congruence|].
  destruct (Hall first (or_introl eq_refl)) as (Hf & Ht & Hjson).
  exists first.
  exists (fst (last (FS.children incoming_path false (files (locked w uid))
                     ++ FS.children incoming_path true (dirs w))%list ("", false))).
  split; [left; reflexivity|]. split.
  - apply in_map. apply last_is_member. intros E.
    rewrite series_files_scan, E in Hscan. discriminate.
  - exact (route_series_unreadable_run uid w first rest Hu Hinc Hfree Hscan Hf Ht Hjson).
Qed.

(* =================================================================== *)
(** ** The scan of route_series *)
(* =================================================================== *)

Lemma collect_series_app prefix l1 l2 :
  collect_series prefix (l1 ++ l2) = (collect_series prefix l1 ++ collect_series prefix l2)%list.
Proof.
  induction l1 as [|[name d] l1 IH]; cbn [collect_series app]; [reflexivity|].
  destruct (PyStr.endswith name mercure_names.TAGS && PyStr.startswith name prefix && negb d);
    rewrite IH; reflexivity.
Qed.

Lemma collect_series_dirs prefix d l :
  collect_series prefix (FS.children d true l) = [].
Proof.
  unfold FS.children.
  induction (filter (fun p => match p with
                              | [] => false
                              | _ => Path.eqb (Path.parent p) d
                              end) l) as [|p ps IH]; cbn [map collect_series];
    [reflexivity|].
  rewrite andb_false_r. exact IH.
Qed.

(** A path is its parent followed by its name. *)
Lemma parent_name (p : Path.t) : p <> [] -> p = (Path.parent p ++ [Path.name p])%list.
Proof. intros Hp. apply app_removelast_last. exact Hp. Qed.

Lemma name_child (d : Path.t) (n : string) : Path.name (d ++ [n])%list = n.
Proof. unfold Path.name. apply last_last. Qed.

Lemma collect_series_files_cons prefix d p l :
  collect_series prefix (FS.children d false (p :: l)) =
  if match p with [] => false | _ => Path.eqb (Path.parent p) d end
     && (PyStr.endswith (Path.name p) mercure_names.TAGS
         && PyStr.startswith (Path.name p) prefix)
  then (PyStr.drop_last 5 (Path.name p) :: collect_series prefix (FS.children d false l))%list
  else collect_series prefix (FS.children d false l).
Proof.
  unfold FS.children. cbn [filter].
  destruct (match p with [] => false | _ => Path.eqb (Path.parent p) d end);
    cbn [andb map collect_series]; [|reflexivity].
  rewrite andb_true_r. reflexivity.
Qed.

Lemma collect_series_files_In prefix d l stem :
  In stem (collect_series prefix (FS.children d false l)) <->
  In (d ++ [(stem ++ mercure_names.TAGS)%string])%list l
  /\ PyStr.startswith (stem ++ mercure_names.TAGS) prefix = true.
Proof.
  induction l as [|p l IH].
  - cbn. intuition.
  - rewrite collect_series_files_cons.
    destruct (match p with [] => false | _ => Path.eqb (Path.parent p) d end) eqn:Hp;
      cbn [andb].
    + assert (Hpd : p = (d ++ [Path.name p])%list).
      { destruct p as [|c p']; [discriminate|]. apply eqb_eq in Hp.
        rewrite <- Hp. apply parent_name. discriminate. }
      destruct (PyStr.endswith (Path.name p) mercure_names.TAGS) eqn:He; cbn [andb].
      * pose proof (endswith_drop_last _ _ He) as Hrt.
        change (String.length mercure_names.TAGS) with 5 in Hrt.
        destruct (PyStr.startswith (Path.name p) prefix) eqn:Hs.
        -- cbn [In]. rewrite IH. split.
           ++ intros [E|[H1 H2]].
              ** subst stem. rewrite Hrt. split; [left; exact Hpd|exact Hs].
              ** split; [right; exact H1|exact H2].
           ++ intros [[E|H1] H2].
              ** left. rewrite E, name_child.
                 apply (drop_last_append stem mercure_names.TAGS).
              ** right. split; assumption.
        -- rewrite IH. split.
           ++ intros [H1 H2]. split; [right; exact H1|exact H2].
           ++ intros [[E|H1] H2]; [|split; assumption].
              rewrite E, name_child in Hs. congruence.
      * rewrite IH. split.
        -- intros [H1 H2]. split; [right; exact H1|exact H2].
        -- intros [[E|H1] H2]; [|split; assumption].
           rewrite E, name_child, endswith_append in He. discriminate.
    + rewrite IH. split.
      * intros [H1 H2]. split; [right; exact H1|exact H2].
      * intros [[E|H1] H2]; [|split; assumption].
        subst p. exfalso.
        destruct (d ++ [(stem ++ mercure_names.TAGS)%string])%list eqn:E.
        -- destruct d; discriminate.
        -- rewrite <- E, parent_child, eqb_refl in Hp. discriminate.
Qed.

Lemma collect_series_files_NoDup prefix d l :
  NoDup l -> NoDup (collect_series prefix (FS.children d false l)).
Proof.
  induction l as [|p l IH]; intros Hl.
  - constructor.
  - inversion Hl as [|? ? Hnin Hl']; subst. specialize (IH Hl').
    rewrite collect_series_files_cons.
    destruct (match p with [] => false | _ => Path.eqb (Path.parent p) d end) eqn:Hp;
      cbn [andb]; [|exact IH].
    destruct (PyStr.endswith (Path.name p) mercure_names.TAGS) eqn:He; cbn [andb];
      [|exact IH].
    destruct (PyStr.startswith (Path.name p) prefix) eqn:Hs; [|exact IH].
    constructor; [|exact IH].
    intros Hin. apply collect_series_files_In in Hin. destruct Hin as [Hin _].
    pose proof (endswith_drop_last _ _ He) as Hrt.
    change (String.length mercure_names.TAGS) with 5 in Hrt. rewrite Hrt in Hin.
    assert (Hpd : p = (d ++ [Path.name p])%list).
    { destruct p as [|c p']; [discriminate|]. apply eqb_eq in Hp.
      rewrite <- Hp. apply parent_name. discriminate. }
    rewrite <- Hpd in Hin. contradiction.
Qed.

Lemma add_NoDup (p : Path.t) (l : list Path.t) : NoDup l -> NoDup (Path.add p l).
Proof.
  intros Hl. unfold Path.add. destruct (Path.mem p l) eqn:E; [exact Hl|].
  apply NoDup_app; [exact Hl|constructor; [intros []|constructor]|].
  intros x Hx [Hp|[]]. subst x. apply mem_In in Hx. congruence.
Qed.

Lemma tags_name_not_lock (stem uid : string) :
  stem ++ mercure_names.TAGS <> uid ++ mercure_names.LOCK.
Proof.
  intros E. apply (f_equal last_char) in E.
  rewrite !last_char_append in E by discriminate. discriminate.
Qed.

(** X17 (route_series, lines 85-92).  The file list of the scan holds
    exactly the stems whose tag file is a regular file of the incoming
    folder and whose name begins with the series prefix: the slice
    [name[:-5]] undoes the suffix [.tags], directories are left out, and the
    lock of the series, which is in the folder during the scan, is not
    taken for a slice.  Over a folder without repeated entries the stems
    are distinct. *)
Theorem scan_collects_the_sidecars_of_the_series w uid :
  (forall stem,
      In stem (series_files w uid) <->
      Path.mem (tags_in incoming_path stem) (files w) = true
      /\ PyStr.startswith (stem ++ mercure_names.TAGS) (uid ++ "#") = true)
  /\ (NoDup (files w) -> NoDup (series_files w uid)).
Proof.
  unfold series_files. split.
  - intros stem. rewrite collect_series_app, collect_series_dirs, app_nil_r.
    rewrite collect_series_files_In. fold (tags_in incoming_path stem).
    rewrite <- mem_In, mem_locked.
    assert (E : Path.eqb (tags_in incoming_path stem) (series_lock uid) = false).
    { apply eqb_neq. unfold tags_in, series_lock. intros E. apply child_inj in E.
      destruct E as [_ E]. exact (tags_name_not_lock _ _ E). }
    rewrite E. cbn [orb]. reflexivity.
  - intros Hnd. rewrite collect_series_app, collect_series_dirs, app_nil_r.
    apply collect_series_files_NoDup. unfold locked. cbn [set_files files].
    apply add_NoDup. exact Hnd.
Qed.

(* =================================================================== *)
(** ** What series-level processing sends *)
(* =================================================================== *)

Lemma silent_try {A} (m : M A) : silent m -> silent (try_ m).
Proof.
  intros H w. specialize (H w). unfold try_. destruct (m w) as [[a|e] w1]; exact H.
Qed.

Lemma silent_uuid1 : silent uuid1.
Proof. intros w. reflexivity. Qed.

Lemma silent_exists s : silent (FS.exists_ s).
Proof. intros w. reflexivity. Qed.

Lemma silent_mkdir s : silent (FS.mkdir s).
Proof.
  intros w. rewrite mkdir_run.
  match goal with |- context [if ?c then _ else _] => destruct c end; reflexivity.
Qed.

Lemma silent_create s : silent (FS.create s).
Proof.
  intros w. rewrite create_run.
  match goal with |- context [if ?c then _ else _] => destruct c end; reflexivity.
Qed.

Lemma silent_remove s : silent (FS.remove s).
Proof.
  intros w. rewrite remove_run.
  match goal with |- context [if ?c then _ else _] => destruct c end; reflexivity.
Qed.

Lemma silent_acquire s : silent (FileLock.acquire s).
Proof.
  intros w. unfold FileLock.acquire. unfold bind at 1. rewrite exists_run.
  destruct (FS.present w (Path.split s)); [reflexivity|].
  unfold bind. pose proof (silent_create s w) as H.
  destruct (FS.create s w) as [[a|e] w1]; exact H.
Qed.

Lemma scope_fst_trace {A} lock (m : M A) w :
  fst (FileLock.scope lock m w) = fst (m w)
  /\ trace (snd (FileLock.scope lock m w)) = trace (snd (m w)).
Proof. unfold FileLock.scope. destruct (m w) as [r w1]. split; reflexivity. Qed.

(** The outcome of a step that may raise and sends nothing. *)
Lemma try_silent_cases {A} (m : M A) w :
  silent m ->
  exists r w1, try_ m w = (Ok r, w1) /\ trace w1 = trace w.
Proof.
  intros H. specialize (H w). unfold try_.
  destruct (m w) as [[a|e] w1]; eexists; eexists; (split; [reflexivity|exact H]).
Qed.

Lemma write_task_outcome s w :
  exists made w1,
    write_task s w = (Ok made, w1)
    /\ if made then trace w1 = trace w
       else exists reports, trace w1 = (trace w ++ reports)%list
                            /\ forallb is_report reports = true.
Proof.
  unfold write_task.
  destruct (try_silent_cases (FS.create s) w (silent_create s)) as (r & w1 & Hr & Ht).
  rewrite (bind_ok _ _ _ _ _ Hr). destruct r as [e|[]].
  - unfold bind. rewrite emit_run. cbn [ret]. eexists. eexists.
    split; [reflexivity|]. cbn [with_trace trace]. eexists. rewrite Ht.
    split; reflexivity.
  - cbn [ret]. eexists. eexists. split; [reflexivity|exact Ht].
Qed.

Lemma push_files_outcome_run file_list target_path copy_files w :
  exists pushed w1,
    push_files file_list target_path copy_files w = (Ok pushed, w1)
    /\ if pushed then trace w1 = trace w
       else exists reports, trace w1 = (trace w ++ reports)%list
                            /\ forallb is_report reports = true.
Proof.
  pose proof (push_files_outcome file_list target_path copy_files w) as Hp.
  cbv zeta in Hp. destruct Hp as (_ & _ & Hp & _).
  destruct (push_files file_list target_path copy_files w) as [[pushed|e] w1];
    cbn [fst snd] in Hp.
  - exists pushed, w1. split; [reflexivity|].
    destruct Hp as [[Hp Ht]|(x & _ & Hp & Ht)]; injection Hp as ->.
    + exact Ht.
    + eexists. split; [exact Ht|reflexivity].
  - destruct Hp as [[Hp _]|(x & _ & Hp & _)]; discriminate.
Qed.

(** What happens under the lock of a staging folder. *)
Lemma processing_body_outcome n r target_folder lock lock_file copy_files
      file_list uid tags w0 :
  dict_get n (rules config) = Some r ->
  exists go_on w',
    (made <- create_series_task_processing target_folder n uid tags ;;
     if negb made then ret false
     else
       pushed <- push_files file_list target_folder copy_files ;;
       if negb pushed
       then
         emit (send_event ("Unable to push files into processing folder "
                             ++ target_folder)) ;;
         ret false
       else
         r <- try_ (FileLock.free lock) ;;
         match r with
         | inl _ =>
             emit (send_event ("Unable to remove lock file " ++ lock_file)) ;;
             ret false
         | inr _ =>
             trigger_serieslevel_notification_reception n tags ;;
             ret true
         end) w0 = (Ok go_on, w')
    /\ if go_on then trace w' = (trace w0 ++ [webhook_of n])%list
       else exists reports, trace w' = (trace w0 ++ reports)%list
                            /\ forallb is_report reports = true.
Proof.
  intros Hr. unfold create_series_task_processing.
  destruct (write_task_outcome (target_folder ++ mercure_names.TASKFILE) w0)
    as (made & w1 & Hw & Ht1).
  rewrite (bind_ok _ _ _ _ _ Hw). destruct made; cbn [negb].
  2:{ exists false, w1. split; [reflexivity|exact Ht1]. }
  destruct (push_files_outcome_run file_list target_folder copy_files w1)
    as (pushed & w2 & Hp & Ht2).
  rewrite (bind_ok _ _ _ _ _ Hp). destruct pushed; cbn [negb].
  2:{ unfold bind. rewrite emit_run. cbn [ret]. eexists. eexists.
      split; [reflexivity|]. cbn [with_trace trace].
      destruct Ht2 as (reports & Ht2 & Hrep). eexists.
      rewrite Ht2, Ht1, <- app_assoc. split; [reflexivity|].
      rewrite forallb_app, Hrep. reflexivity. }
  destruct (try_silent_cases (FileLock.free lock) w2 (silent_remove lock))
    as (rf & w3 & Hf & Ht3).
  rewrite (bind_ok _ _ _ _ _ Hf). destruct rf as [e|[]].
  - unfold bind. rewrite emit_run. cbn [ret]. eexists. eexists.
    split; [reflexivity|]. cbn [with_trace trace]. eexists.
    rewrite Ht3, Ht2, Ht1. split; reflexivity.
  - rewrite (bind_ok _ _ _ _ _ (trigger_run _ _ tags w3 Hr)).
    cbn [ret]. eexists. eexists. split; [reflexivity|].
    cbn [with_trace trace]. rewrite Ht3, Ht2, Ht1. reflexivity.
Qed.

(** One processing rule: either its webhook is the only thing sent and the
    loop goes on, or the function returns False after error reports. *)
Lemma processing_loop_head_cases (P : result bool * World -> Prop)
      n r rest triggered_rules file_list uid tags w :
  dict_get n (rules config) = Some r ->
  processes n = true ->
  (forall w1, trace w1 = (trace w ++ [webhook_of n])%list ->
              P (processing_loop rest triggered_rules file_list uid tags w1)) ->
  (forall w1 reports, trace w1 = (trace w ++ reports)%list ->
                      forallb is_report reports = true -> P (Ok false, w1)) ->
  P (processing_loop (n :: rest) triggered_rules file_list uid tags w).
Proof.
  intros Hr Hp Hgo Hstop. cbn [processing_loop].
  rewrite (bind_ok _ _ _ _ _ (rules_get_run _ _ w Hr)).
  rewrite (processes_eq _ _ Hr) in Hp. apply andb_prop in Hp. destruct Hp as [-> ->].
  unfold bind at 1. rewrite uuid1_run.
  set (folder_name := PROCESSING config ++ "/" ++ uuid_of ext (uuid_count w)).
  destruct (try_silent_cases (FS.mkdir folder_name) (next_uuid w) (silent_mkdir _))
    as (rm & w2 & Hm & Ht2).
  rewrite (bind_ok _ _ _ _ _ Hm). change (trace (next_uuid w)) with (trace w) in Ht2.
  destruct rm as [e|[]].
  { unfold bind. rewrite emit_run. cbn [ret].
    apply (Hstop _ [send_event ("Unable to create processing folder " ++ folder_name)]);
      [cbn [with_trace trace]; rewrite Ht2; reflexivity|reflexivity]. }
  unfold bind at 1. rewrite exists_run.
  destruct (FS.present w2 (Path.split folder_name)); cbn [negb].
  2:{ unfold bind. rewrite emit_run. cbn [ret].
      apply (Hstop _ [send_event ("Creating folder not possible " ++ folder_name)]);
        [cbn [with_trace trace]; rewrite Ht2; reflexivity|reflexivity]. }
  destruct (try_silent_cases (FileLock.acquire (folder_name ++ "/" ++ mercure_names.LOCK))
                             w2 (silent_acquire _))
    as (ra & w3 & Ha & Ht3).
  rewrite (bind_ok _ _ _ _ _ Ha). destruct ra as [e|lock].
  { unfold bind. rewrite emit_run. cbn [ret].
    apply (Hstop _ [send_event ("Unable to create lock file "
                                  ++ folder_name ++ "/" ++ mercure_names.LOCK)]);
      [cbn [with_trace trace]; rewrite Ht3, Ht2; reflexivity|reflexivity]. }
  destruct (processing_body_outcome n r (folder_name ++ "/") lock
              (folder_name ++ "/" ++ mercure_names.LOCK)
              (negb (Nat.eqb (length triggered_rules) 1)) file_list uid tags w3 Hr)
    as (go_on & w4 & Hb & Ht4).
  rewrite (bind_ok _ _ _ _ _ (scope_run _ _ _ _ _ Hb)).
  destruct go_on.
  - apply Hgo. cbn [set_files trace]. rewrite Ht4, Ht3, Ht2. reflexivity.
  - destruct Ht4 as (reports & Ht4 & Hrep). cbn [ret].
    apply (Hstop _ reports); [|exact Hrep].
    cbn [set_files trace]. rewrite Ht4, Ht3, Ht2. reflexivity.
Qed.

Lemma processing_loop_pass n r rest triggered_rules file_list uid tags w :
  dict_get n (rules config) = Some r ->
  processes n = false ->
  processing_loop (n :: rest) triggered_rules file_list uid tags w
  = processing_loop rest triggered_rules file_list uid tags w.
Proof.
  intros Hr Hp. cbn [processing_loop].
  rewrite (bind_ok _ _ _ _ _ (rules_get_run _ _ w Hr)).
  rewrite (processes_eq _ _ Hr) in Hp.
  destruct (String.eqb (get (ACTION_TRIGGER r) mercure_options.SERIES)
                       mercure_options.SERIES); [|reflexivity].
  cbn [andb] in Hp. rewrite Hp. reflexivity.
Qed.

Lemma processing_loop_outcome rules_left triggered_rules file_list uid tags w :
  configured rules_left ->
  exists b staged reports w',
    processing_loop rules_left triggered_rules file_list uid tags w = (Ok b, w')
    /\ trace w' = (trace w ++ map webhook_of staged ++ reports)%list
    /\ forallb is_report reports = true
    /\ if b then staged = filter processes rules_left /\ reports = []
       else exists n later, filter processes rules_left = (staged ++ n :: later)%list.
Proof.
  revert w. induction rules_left as [|n rest IH]; intros w Hc.
  - exists true, [], [], w. cbn. rewrite app_nil_r. auto.
  - apply configured_cons in Hc. destruct Hc as [[r Hr] Hc].
    cbn [filter]. destruct (processes n) eqn:Hp.
    + apply (processing_loop_head_cases
               (fun out => exists b staged reports w',
                    out = (Ok b, w')
                    /\ trace w' = (trace w ++ map webhook_of staged ++ reports)%list
                    /\ forallb is_report reports = true
                    /\ if b then staged = (n :: filter processes rest)%list /\ reports = []
                       else exists m later,
                           (n :: filter processes rest)%list = (staged ++ m :: later)%list)
               n r rest triggered_rules file_list uid tags w Hr Hp).
      * intros w1 Ht.
        destruct (IH w1 Hc) as (b & staged & reports & w' & Hrun' & Ht' & Hrep & Hb).
        exists b, (n :: staged)%list, reports, w'.
        split; [exact Hrun'|]. split.
        { rewrite Ht', Ht. cbn [map]. rewrite <- !app_assoc. reflexivity. }
        split; [exact Hrep|].
        destruct b.
        -- destruct Hb as [-> ->]. split; reflexivity.
        -- destruct Hb as (m & later & Hb). exists m, later. rewrite Hb. reflexivity.
      * intros w1 reports Ht Hrep.
        exists false, [], reports, w1.
        split; [reflexivity|]. split; [exact Ht|]. split; [exact Hrep|].
        exists n, (filter processes rest). reflexivity.
    + rewrite (processing_loop_pass n r rest _ _ _ _ w Hr Hp). apply IH. exact Hc.
Qed.

(** X18 (push_serieslevel_processing, lines 301-355).  What
    push_serieslevel_processing sends, for configured triggered rules: it
    returns a boolean, and its telemetry is the reception webhooks of an
    initial segment of the processing rules, in rule order, followed by
    error reports only.  When it returns True the segment is all the
    processing rules and there is no error report; when it returns False
    the segment ends in front of some processing rule: the webhook of that
    rule and those of the rules behind it are not sent. *)
Theorem push_serieslevel_processing_sends_webhooks_in_rule_order
        triggered_rules file_list series_UID tags_list w :
  configured triggered_rules ->
  exists b notified reports w',
    push_serieslevel_processing triggered_rules file_list series_UID tags_list w
    = (Ok b, w')
    /\ trace w' = (trace w ++ map webhook_of notified ++ reports)%list
    /\ forallb is_report reports = true
    /\ if b then notified = filter processes triggered_rules /\ reports = []
       else exists n later,
           filter processes triggered_rules = (notified ++ n :: later)%list.
Proof.
  intros Hc. unfold push_serieslevel_processing.
  apply processing_loop_outcome. exact Hc.
Qed.

(* =================================================================== *)
(** ** Discarding a series of which some files are missing *)
(* =================================================================== *)

Lemma in_pairs_dcm_notin F l e : ~ In e l -> in_pairs F l (dcm_in F e) = false.
Proof.
  intros Hn. destruct (in_pairs F l (dcm_in F e)) eqn:E; [|reflexivity].
  apply in_pairs_true in E. destruct E as (e' & He' & [E|E]).
  - apply dcm_in_inj in E. subst e'. contradiction.
  - exfalso. exact (dcm_in_not_tags_in _ _ _ E).
Qed.

Lemma in_pairs_tags_notin F l e : ~ In e l -> in_pairs F l (tags_in F e) = false.
Proof.
  intros Hn. destruct (in_pairs F l (tags_in F e)) eqn:E; [|reflexivity].
  apply in_pairs_true in E. destruct E as (e' & He' & [E|E]).
  - exfalso. symmetry in E. exact (dcm_in_not_tags_in _ _ _ E).
  - apply tags_in_inj in E. subst e'. contradiction.
Qed.

Lemma in_pairs_dcm_other F G l e : F <> G -> in_pairs F l (dcm_in G e) = false.
Proof.
  intros Hne. destruct (in_pairs F l (dcm_in G e)) eqn:E; [|reflexivity].
  apply in_pairs_parent in E. rewrite parent_dcm_in in E. destruct E as [E _].
  exfalso. apply Hne. symmetry. exact E.
Qed.

Lemma in_pairs_tags_other F G l e : F <> G -> in_pairs F l (tags_in G e) = false.
Proof.
  intros Hne. destruct (in_pairs F l (tags_in G e)) eqn:E; [|reflexivity].
  apply in_pairs_parent in E. rewrite parent_tags_in in E. destruct E as [E _].
  exfalso. apply Hne. symmetry. exact E.
Qed.

Lemma in_pairs_one F e f :
  in_pairs F [e] f = false ->
  Path.eqb f (dcm_in F e) = false /\ Path.eqb f (tags_in F e) = false.
Proof.
  rewrite in_pairs_cons. cbn [in_pairs existsb]. rewrite orb_false_r.
  intros H. apply orb_false_elim in H. exact H.
Qed.

Lemma discard_loop_cons sf tf e l w :
  discard_loop sf tf (e :: l) w =
  match transfer_pair FS.move sf tf e w with
  | (Ok _, w1) => discard_loop sf tf l w1
  | (Raise _, w1) => discard_loop sf tf l (with_trace w1 [discard_problem e])
  end.
Proof.
  cbn [discard_loop]. rewrite try_then.
  destruct (transfer_pair FS.move sf tf e w) as [[a|ex] w1]; unfold bind;
    [reflexivity|].
  rewrite emit_run. reflexivity.
Qed.

Section DiscardLoop.

Variables (sf tf : string) (S T : Path.t).
Hypothesis Hsf : forall n, Path.component n = true -> Path.split (sf ++ n) = (S ++ [n])%list.
Hypothesis Htf : forall n, Path.component n = true -> Path.split (tf ++ n) = (T ++ [n])%list.
Hypothesis HST : S <> T.

(** The three outcomes of moving one pair into a folder without
    subdirectories. *)
Lemma transfer_move_cases e w :
  Path.no_slash e = true ->
  FS.is_dir w T = true ->
  (forall x, Path.mem (T ++ [x])%list (dirs w) = false) ->
  transfer_pair FS.move sf tf e w =
  if Path.mem (dcm_in S e) (files w)
  then if Path.mem (tags_in S e) (files w)
       then (Ok tt, set_files w (move_pair S T (files w) e))
       else (Raise OSError,
             set_files w (Path.add (dcm_in T e) (Path.remove (dcm_in S e) (files w))))
  else (Raise OSError, w).
Proof.
  intros He HT Hno.
  unfold transfer_pair. unfold bind. rewrite move_run.
  rewrite (split_source_dcm sf S Hsf _ He), (split_source_dcm tf T Htf _ He).
  unfold FS.is_file.
  destruct (Path.mem (dcm_in S e) (files w)) eqn:Hd; [|reflexivity].
  rewrite is_dir_dcm_in, parent_dcm_in, HT. unfold dcm_in at 1. rewrite Hno.
  cbn [negb orb].
  rewrite move_run.
  rewrite (split_source_tags sf S Hsf _ He), (split_source_tags tf T Htf _ He).
  unfold FS.is_file. cbn [files set_files].
  rewrite mem_add, mem_remove.
  assert (E1 : Path.eqb (dcm_in S e) (tags_in S e) = false)
    by (apply eqb_neq; apply dcm_in_not_tags_in).
  assert (E2 : Path.eqb (tags_in S e) (dcm_in T e) = false).
  { apply eqb_neq. intros E. unfold tags_in, dcm_in in E. apply child_inj in E.
    destruct E as [E _]. contradiction. }
  rewrite E1, E2. cbn [negb andb orb].
  destruct (Path.mem (tags_in S e) (files w)) eqn:Ht; [|reflexivity].
  rewrite is_dir_tags_in, parent_tags_in, is_dir_set_files.
  change (dirs (set_files w _)) with (dirs w).
  unfold tags_in at 1. rewrite Hno, HT. reflexivity.
Qed.

(** Moving the pair of [e], with or without success, leaves every file that
    is not one of its four alone. *)
Lemma discard_step_frame e w f :
  Path.no_slash e = true ->
  FS.is_dir w T = true ->
  (forall x, Path.mem (T ++ [x])%list (dirs w) = false) ->
  in_pairs S [e] f = false ->
  in_pairs T [e] f = false ->
  Path.mem f (files (snd (transfer_pair FS.move sf tf e w))) = Path.mem f (files w).
Proof.
  intros He HT Hno HS HT'. rewrite (transfer_move_cases e w He HT Hno).
  apply in_pairs_one in HS. apply in_pairs_one in HT'.
  destruct HS as [S1 S2]. destruct HT' as [T1 T2].
  rewrite eqb_sym in S1. rewrite eqb_sym in S2.
  destruct (Path.mem (dcm_in S e) (files w)); [|reflexivity].
  destruct (Path.mem (tags_in S e) (files w)); cbn [snd set_files files].
  - rewrite mem_move_pair, T1, T2, S1, S2. reflexivity.
  - rewrite mem_add, mem_remove, T1, S1. reflexivity.
Qed.

Lemma discard_step_dirs e w :
  dirs (snd (transfer_pair FS.move sf tf e w)) = dirs w
  /\ trace (snd (transfer_pair FS.move sf tf e w)) = trace w.
Proof.
  pose proof (transfer_pair_keeps false sf tf e w) as K. cbv zeta in K. cbn [negb] in K.
  destruct K as (K1 & K2 & _). split; assumption.
Qed.

Lemma discard_loop_robust l w :
  NoDup l ->
  forallb Path.no_slash l = true ->
  FS.is_dir w T = true ->
  (forall x, Path.mem (T ++ [x])%list (dirs w) = false) ->
  exists w',
    discard_loop sf tf l w = (Ok tt, w')
    /\ dirs w' = dirs w
    /\ (forall f, in_pairs S l f = false -> in_pairs T l f = false ->
                  Path.mem f (files w') = Path.mem f (files w))
    /\ (forall e, In e l ->
          Path.mem (dcm_in S e) (files w) = true ->
          Path.mem (tags_in S e) (files w) = true ->
          Path.mem (dcm_in T e) (files w') = true
          /\ Path.mem (tags_in T e) (files w') = true
          /\ Path.mem (dcm_in S e) (files w') = false
          /\ Path.mem (tags_in S e) (files w') = false)
    /\ (forall e, In e l ->
          Path.mem (dcm_in S e) (files w) && Path.mem (tags_in S e) (files w) = false ->
          In (discard_problem e) (trace w'))
    /\ exists evs, trace w' = (trace w ++ evs)%list.
Proof.
  revert w. induction l as [|e0 l IH]; intros w Hnd Hns HT Hno.
  - exists w. split; [reflexivity|]. split; [reflexivity|]. split; [reflexivity|].
    split; [intros e []|]. split; [intros e []|].
    exists []. rewrite app_nil_r. reflexivity.
  - inversion Hnd as [|? ? Hnin Hnd']; subst.
    cbn [forallb] in Hns. apply andb_prop in Hns. destruct Hns as [He0 Hns].
    rewrite discard_loop_cons.
    pose proof (discard_step_dirs e0 w) as [Kd Kt].
    pose proof (fun f => discard_step_frame e0 w f He0 HT Hno) as Kf.
    pose proof (transfer_move_cases e0 w He0 HT Hno) as Kc.
    destruct (transfer_pair FS.move sf tf e0 w) as [[[]|ex] w1] eqn:Hstep;
      cbn [snd] in Kd, Kt, Kf.
    + (* the pair of [e0] has been moved *)
      assert (Hboth : Path.mem (dcm_in S e0) (files w) = true
                      /\ Path.mem (tags_in S e0) (files w) = true
                      /\ w1 = set_files w (move_pair S T (files w) e0)).
      { destruct (Path.mem (dcm_in S e0) (files w)); [|discriminate].
        destruct (Path.mem (tags_in S e0) (files w)); [|discriminate].
        injection Kc as <-. auto. }
      destruct Hboth as (Hd0 & Ht0 & Hw1).
      destruct (IH w1 Hnd' Hns) as (w' & Hrun & Hdirs & Hframe & Hmoved & Hrep & evs & Htr).
      { unfold FS.is_dir in *. rewrite Kd. exact HT. }
      { intros x. rewrite Kd. apply Hno. }
      exists w'. split; [exact Hrun|]. split; [congruence|]. split; [|split; [|split]].
      * intros f HS HT'. rewrite in_pairs_cons in HS, HT'.
        apply orb_false_elim in HS. apply orb_false_elim in HT'.
        destruct HS as [HS1 HS2]. destruct HT' as [HT1 HT2].
        rewrite (Hframe f HS2 HT2). apply Kf.
        -- rewrite in_pairs_cons. cbn [in_pairs existsb]. rewrite HS1. reflexivity.
        -- rewrite in_pairs_cons. cbn [in_pairs existsb]. rewrite HT1. reflexivity.
      * intros e [E|Hin] Hd Ht.
        -- subst e.
           rewrite (Hframe (dcm_in T e0)), (Hframe (tags_in T e0)),
                   (Hframe (dcm_in S e0)), (Hframe (tags_in S e0));
             try (apply in_pairs_dcm_notin; exact Hnin);
             try (apply in_pairs_tags_notin; exact Hnin);
             try (apply in_pairs_dcm_other; congruence);
             try (apply in_pairs_tags_other; congruence).
           rewrite Hw1. cbn [set_files files]. rewrite !mem_move_pair.
           rewrite !eqb_refl.
           assert (E1 : Path.eqb (dcm_in T e0) (tags_in T e0) = false)
             by (apply eqb_neq; apply dcm_in_not_tags_in).
           assert (E2 : Path.eqb (tags_in S e0) (dcm_in T e0) = false).
           { apply eqb_neq. intros E. unfold tags_in, dcm_in in E. apply child_inj in E.
             destruct E as [E _]. contradiction. }
           assert (E3 : Path.eqb (dcm_in S e0) (tags_in T e0) = false).
           { apply eqb_neq. intros E. unfold tags_in, dcm_in in E. apply child_inj in E.
             destruct E as [E _]. contradiction. }
           assert (E4 : Path.eqb (dcm_in S e0) (dcm_in T e0) = false).
           { apply eqb_neq. intros E. unfold dcm_in in E. apply child_inj in E.
             destruct E as [E _]. contradiction. }
           assert (E5 : Path.eqb (tags_in S e0) (tags_in T e0) = false).
           { apply eqb_neq. intros E. unfold tags_in in E. apply child_inj in E.
             destruct E as [E _]. contradiction. }
           assert (E6 : Path.eqb (tags_in S e0) (dcm_in S e0) = false).
           { apply eqb_neq. intros E. symmetry in E. exact (dcm_in_not_tags_in _ _ _ E). }
           rewrite E1, E2, E3, E4, E5, E6. cbn. auto.
        -- assert (Hne : e <> e0) by (intros E; subst e; contradiction).
           apply Hmoved; [exact Hin| |].
           ++ rewrite Kf; [exact Hd| |].
              ** apply in_pairs_dcm_notin. intros [E|[]]. congruence.
              ** apply in_pairs_dcm_other. congruence.
           ++ rewrite Kf; [exact Ht| |].
              ** apply in_pairs_tags_notin. intros [E|[]]. congruence.
              ** apply in_pairs_tags_other. congruence.
      * intros e [E|Hin] Hmiss.
        -- subst e. rewrite Hd0, Ht0 in Hmiss. discriminate.
        -- assert (Hne : e <> e0) by (intros E; subst e; contradiction).
           apply Hrep; [exact Hin|].
           rewrite !Kf; [exact Hmiss| | | |];
             try (apply in_pairs_dcm_notin; intros [E|[]]; congruence);
             try (apply in_pairs_tags_notin; intros [E|[]]; congruence);
             try (apply in_pairs_dcm_other; congruence);
             try (apply in_pairs_tags_other; congruence).
      * exists evs. rewrite Htr, Kt. reflexivity.
    + (* the pair of [e0] could not be moved *)
      assert (Hmiss0 : Path.mem (dcm_in S e0) (files w)
                       && Path.mem (tags_in S e0) (files w) = false).
      { destruct (Path.mem (dcm_in S e0) (files w)); [|reflexivity].
        destruct (Path.mem (tags_in S e0) (files w)); [discriminate|reflexivity]. }
      destruct (IH (with_trace w1 [discard_problem e0]) Hnd' Hns)
        as (w' & Hrun & Hdirs & Hframe & Hmoved & Hrep & evs & Htr).
      { unfold FS.is_dir in *. cbn [with_trace dirs]. rewrite Kd. exact HT. }
      { intros x. cbn [with_trace dirs]. rewrite Kd. apply Hno. }
      cbn [with_trace files dirs trace] in *.
      exists w'. split; [exact Hrun|]. split; [congruence|]. split; [|split; [|split]].
      * intros f HS HT'. rewrite in_pairs_cons in HS, HT'.
        apply orb_false_elim in HS. apply orb_false_elim in HT'.
        destruct HS as [HS1 HS2]. destruct HT' as [HT1 HT2].
        rewrite (Hframe f HS2 HT2). apply Kf.
        -- rewrite in_pairs_cons. cbn [in_pairs existsb]. rewrite HS1. reflexivity.
        -- rewrite in_pairs_cons. cbn [in_pairs existsb]. rewrite HT1. reflexivity.
      * intros e [E|Hin] Hd Ht.
        -- subst e. rewrite Hd, Ht in Hmiss0. discriminate.
        -- assert (Hne : e <> e0) by (intros E; subst e; contradiction).
           apply Hmoved; [exact Hin| |].
           ++ rewrite Kf; [exact Hd| |].
              ** apply in_pairs_dcm_notin. intros [E|[]]. congruence.
              ** apply in_pairs_dcm_other. congruence.
           ++ rewrite Kf; [exact Ht| |].
              ** apply in_pairs_tags_notin. intros [E|[]]. congruence.
              ** apply in_pairs_tags_other. congruence.
      * intros e [E|Hin] Hmiss.
        -- subst e. rewrite Htr, Kt. apply in_or_app. left. apply in_or_app.
           right. left. reflexivity.
        -- assert (Hne : e <> e0) by (intros E; subst e; contradiction).
           apply Hrep; [exact Hin|].
           rewrite !Kf; [exact Hmiss| | | |];
             try (apply in_pairs_dcm_notin; intros [E|[]]; congruence);
             try (apply in_pairs_tags_notin; intros [E|[]]; congruence);
             try (apply in_pairs_dcm_other; congruence);
             try (apply in_pairs_tags_other; congruence).
      * exists (discard_problem e0 :: evs)%list. rewrite Htr, Kt, <- app_assoc. reflexivity.
Qed.

End DiscardLoop.

Lemma dcm_name_not_lock (stem uid : string) :
  stem ++ mercure_names.DCM <> uid ++ mercure_names.LOCK.
Proof.
  intros E. apply (f_equal last_char) in E.
  rewrite !last_char_append in E by discriminate. discriminate.
Qed.

(** push_series_discard around its loop: the folder, the lock and the
    DISCARD event in front of it; the MOVE event and the release of the
    lock behind it. *)
Lemma push_series_discard_around_loop fileList uid discard_series w w4 :
  can_discard w ->
  discard_loop (INCOMING config ++ "/") (next_discard w ++ "/") fileList
    (with_trace
       (set_files (add_dir (next_uuid w) (discard_staging w))
                  (Path.add (discard_staging w ++ [mercure_names.LOCK])%list (files w)))
       [send_series_event DISCARD uid (length fileList) ""
          (if PyStr.truthy discard_series
           then "Discard by rule " ++ discard_series else "")])
  = (Ok tt, w4) ->
  exists W,
    push_series_discard fileList uid discard_series w = (Ok tt, W)
    /\ dirs W = dirs w4
    /\ (forall f, Path.mem f (files W) =
                  negb (Path.eqb f (discard_staging w ++ [mercure_names.LOCK])%list)
                  && Path.mem f (files w4))
    /\ exists evs, trace W = (trace w4 ++ evs)%list.
Proof.
  intros (Hwf & Hinc & Hdisc & Hu & Hfree) Hloop.
  destruct (present_false _ _ Hfree) as [HTfile HTdir].
  unfold push_series_discard.
  unfold bind at 1. rewrite uuid1_run. fold (next_discard w).
  unfold bind at 1. unfold try_ at 1. rewrite mkdir_run.
  rewrite (split_discard _ Hu).
  change (FS.present (next_uuid w)) with (FS.present w).
  change (FS.is_dir (next_uuid w)) with (FS.is_dir w).
  rewrite Hfree. unfold discard_staging at 1. rewrite parent_child, Hdisc. cbn [negb orb].
  unfold bind at 1. rewrite exists_run. rewrite (split_discard _ Hu), present_add_dir.
  cbn [negb].
  set (T := discard_staging w) in *.
  set (w2 := add_dir (next_uuid w) T) in *.
  assert (Hdir2 : forall fs, FS.is_dir (set_files w2 fs) T = true).
  { intros fs. unfold FS.is_dir, w2, T, discard_staging. cbn [dirs set_files add_dir].
    destruct (Path.split (DISCARD_FOLDER config)); apply mem_snoc_same. }
  assert (Hchild2 : forall fs x, FS.is_dir (set_files w2 fs) (T ++ [x])%list = false).
  { intros fs x. rewrite is_dir_child. cbn [dirs set_files add_dir w2 next_uuid].
    rewrite mem_snoc_other by apply child_not_self.
    rewrite <- is_dir_child.
    destruct (present_false _ _ (fresh_child w T x Hwf HTdir)) as [_ ->]. reflexivity. }
  assert (Hlock : Path.split (next_discard w ++ "/" ++ mercure_names.LOCK)
                  = (T ++ [mercure_names.LOCK])%list).
  { rewrite split_child by reflexivity. rewrite (split_discard _ Hu). reflexivity. }
  assert (Hacq : FileLock.acquire (next_discard w ++ "/" ++ mercure_names.LOCK) w2 =
                 (Ok (next_discard w ++ "/" ++ mercure_names.LOCK),
                  set_files w2 (Path.add (T ++ [mercure_names.LOCK])%list (files w)))).
  { rewrite acquire_run; rewrite Hlock.
    - reflexivity.
    - unfold FS.present, FS.is_file. change (files w2) with (files w).
      destruct (present_false _ _ (fresh_child w T mercure_names.LOCK Hwf HTdir)) as [-> _].
      rewrite <- (set_files_id w2). rewrite Hchild2. reflexivity.
    - rewrite parent_child. rewrite <- (set_files_id w2). apply Hdir2. }
  rewrite (bind_ok _ _ _ _ _ (try_ok _ _ _ _ Hacq)).
  set (lockp := (T ++ [mercure_names.LOCK])%list) in *.
  set (w5 := with_trace w4 [send_series_event MOVE uid (length fileList) (next_discard w) ""]).
  assert (Hbody : exists W0,
    (emit (send_series_event DISCARD uid (length fileList) ""
             (if PyStr.truthy discard_series
              then "Discard by rule " ++ discard_series else "")) ;;
     discard_loop (INCOMING config ++ "/") (next_discard w ++ "/") fileList ;;
     emit (send_series_event MOVE uid (length fileList) (next_discard w) "") ;;
     r <- try_ (FileLock.free (next_discard w ++ "/" ++ mercure_names.LOCK)) ;;
     match r with
     | inl _ => emit (send_event ("Unable to remove lock file "
                                    ++ next_discard w ++ "/" ++ mercure_names.LOCK))
     | inr _ => ret tt
     end) (set_files w2 (Path.add lockp (files w))) = (Ok tt, W0)
    /\ dirs W0 = dirs w4
    /\ (forall f, Path.mem f (Path.remove lockp (files W0)) =
                  negb (Path.eqb f lockp) && Path.mem f (files w4))
    /\ exists evs, trace W0 = (trace w4 ++ evs)%list).
  { unfold bind at 1. rewrite emit_run.
    rewrite (bind_ok _ _ _ _ _ Hloop).
    unfold bind at 1. rewrite emit_run. fold w5.
    unfold bind at 1. unfold try_ at 1. unfold FileLock.free. rewrite remove_run, Hlock.
    unfold FS.is_file. change (files w5) with (files w4).
    destruct (Path.mem lockp (files w4)) eqn:Hl.
    - cbn [ret]. eexists. split; [reflexivity|]. split; [reflexivity|]. split.
      + intros f. cbn [set_files files]. rewrite !mem_remove, (eqb_sym lockp f).
        destruct (Path.eqb f lockp); reflexivity.
      + eexists. reflexivity.
    - rewrite emit_run. eexists. split; [reflexivity|]. split; [reflexivity|]. split.
      + intros f. cbn [with_trace files]. change (files w5) with (files w4).
        rewrite mem_remove, (eqb_sym lockp f). reflexivity.
      + eexists. unfold w5. cbn [with_trace trace]. rewrite <- app_assoc. reflexivity. }
  destruct Hbody as (W0 & Hb & Hd0 & Hf0 & Ht0).
  rewrite (scope_run _ _ _ _ _ Hb). rewrite Hlock.
  eexists. split; [reflexivity|]. cbn [set_files dirs files trace].
  split; [exact Hd0|]. split; [exact Hf0|exact Ht0].
Qed.

(** X19 (push_series_discard, lines 213-223).  A pair that cannot be moved
    does not hold up the others: when the discard folder can be created,
    every stem of the list whose two files are in the incoming folder ends
    up in the discard folder and is gone from the incoming folder, and every
    stem of which a file is missing (neither name of the pair being that of
    a directory) is reported. *)
Theorem push_series_discard_moves_every_complete_pair
        fileList series_UID discard_series w :
  can_discard w ->
  NoDup fileList ->
  forallb Path.no_slash fileList = true ->
  let w' := snd (push_series_discard fileList series_UID discard_series w) in
  (forall e, In e fileList -> pair_present w e = true ->
     Path.mem (dcm_in (discard_staging w) e) (files w') = true
     /\ Path.mem (tags_in (discard_staging w) e) (files w') = true
     /\ Path.mem (dcm_in incoming_path e) (files w') = false
     /\ Path.mem (tags_in incoming_path e) (files w') = false)
  /\ (forall e, In e fileList -> pair_present w e = false ->
        Path.mem (dcm_in incoming_path e) (dirs w) = false ->
        Path.mem (tags_in incoming_path e) (dirs w) = false ->
        In (discard_problem e) (trace w')).
Proof.
  intros Hcan Hnd Hns. cbv zeta.
  pose proof Hcan as (Hwf & Hinc & Hdisc & Hu & Hfree).
  destruct (present_false _ _ Hfree) as [HTfile HTdir].
  assert (HST : incoming_path <> discard_staging w)
    by (intros E; rewrite E in Hinc; congruence).
  set (T := discard_staging w) in *.
  set (lockp := (T ++ [mercure_names.LOCK])%list).
  set (w3 := with_trace
               (set_files (add_dir (next_uuid w) T) (Path.add lockp (files w)))
               [send_series_event DISCARD series_UID (length fileList) ""
                  (if PyStr.truthy discard_series
                   then "Discard by rule " ++ discard_series else "")]).
  assert (Hin3 : forall f, Path.parent f = incoming_path ->
                           Path.mem f (files w3) = Path.mem f (files w)).
  { intros f Hf. unfold w3. cbn [with_trace set_files files]. rewrite mem_add.
    assert (E : Path.eqb f lockp = false).
    { apply eqb_neq. intros E. subst f. unfold lockp in Hf. rewrite parent_child in Hf.
      apply HST. symmetry. exact Hf. }
    rewrite E. reflexivity. }
  destruct (discard_loop_robust (INCOMING config ++ "/") (next_discard w ++ "/")
              incoming_path T split_incoming_file
              (fun n Hn => split_discard_file w n Hu Hn) HST fileList w3 Hnd Hns)
    as (w4 & Hloop & Hdirs & Hframe & Hmoved & Hrep & evs & Htr).
  { unfold FS.is_dir, w3, T, discard_staging. cbn [with_trace set_files add_dir dirs].
    destruct (Path.split (DISCARD_FOLDER config)); apply mem_snoc_same. }
  { intros x. unfold w3. cbn [with_trace set_files add_dir next_uuid dirs].
    rewrite mem_snoc_other by apply child_not_self.
    rewrite <- is_dir_child.
    destruct (present_false _ _ (fresh_child w T x Hwf HTdir)) as [_ ->]. reflexivity. }
  destruct (push_series_discard_around_loop fileList series_UID discard_series w w4
              Hcan Hloop) as (W & HW & HWd & HWf & evs' & HWt).
  rewrite HW. cbn [snd]. split.
  - intros e Hin Hp. destruct (pair_present_elim _ _ Hp) as (He & Hd & Ht).
    destruct (Hmoved e Hin) as (M1 & M2 & M3 & M4).
    { rewrite Hin3; [exact Hd|apply parent_dcm_in]. }
    { rewrite Hin3; [exact Ht|apply parent_tags_in]. }
    rewrite !HWf, M1, M2, M3, M4, !andb_false_r.
    fold T. fold lockp.
    assert (E1 : Path.eqb (dcm_in T e) lockp = false).
    { apply eqb_neq. unfold dcm_in, lockp. intros E. apply child_inj in E.
      destruct E as [_ E]. exact (dcm_name_not_lock e "" E). }
    assert (E2 : Path.eqb (tags_in T e) lockp = false).
    { apply eqb_neq. unfold tags_in, lockp. intros E. apply child_inj in E.
      destruct E as [_ E]. exact (tags_name_not_lock e "" E). }
    rewrite E1, E2. auto.
  - intros e Hin Hp _ _. rewrite HWt. apply in_or_app. left.
    apply (Hrep e Hin).
    rewrite !Hin3 by (apply parent_dcm_in || apply parent_tags_in).
    unfold pair_present in Hp.
    rewrite forallb_forall in Hns. rewrite (Hns e Hin) in Hp. cbn [andb] in Hp.
    exact Hp.
Qed.

(** X26 (push_series_serieslevel, lines 273-277, with push_serieslevel_routing,
    lines 286-298).  The three series-level steps run one after the other
    and the first one is not guarded: when a triggered route rule selects a
    configured target whose folder can be created, push_series_serieslevel
    raises UnboundLocalError out of the routing step, after the reception
    webhooks of the route rules.  The processing and the notification step
    are not reached, so triggered processing rules stage nothing, and no
    file is touched. *)
Theorem a_configured_route_target_stops_the_series_level_steps
        triggered_rules file_list series_UID tags_list w :
  configured triggered_rules ->
  existsb known_target (selection triggered_rules) = true ->
  cannot_mkdir w (next_outgoing w) = false ->
  push_series_serieslevel triggered_rules file_list series_UID tags_list w
  = (Raise UnboundLocalError,
     add_dir (next_uuid (with_trace w
                (reception_webhooks triggered_rules
                 ++ map invalid_target (unknown_prefix (selection triggered_rules)))%list))
             (Path.split (next_outgoing w))).
Proof.
  intros Hc Hk Hm. unfold push_series_serieslevel.
  apply bind_raise.
  rewrite (push_serieslevel_routing_run _ _ _ _ _ Hc).
  unfold push_serieslevel_outgoing. rewrite outgoing_loop_run. cbv zeta.
  rewrite Hk.
  change (cannot_mkdir (with_trace w (reception_webhooks triggered_rules))
            (next_outgoing (with_trace w (reception_webhooks triggered_rules))))
    with (cannot_mkdir w (next_outgoing w)).
  rewrite Hm. rewrite with_trace_app. reflexivity.
Qed.

End RouteSeries.

(** C9, at a spool with one marker: route_error_files is meant to move the
    marker [T#a.dcm.error] and its payload [T#a.dcm] into the error folder
    and to report once.  It raises [TypeError] instead, with both files
    still in the incoming folder and nothing reported. *)
Theorem route_error_files_moves_nothing :
  route_error_files (Scenario.installation []) Scenario.spool_with_error
  = (Raise TypeError, Scenario.spool_with_error).
Proof. vm_compute. reflexivity. Qed.

(* ===================================================================== *)
(** ** The engine at the concrete installation *)
(* ===================================================================== *)

(** C4, at a series whose only triggered rule is a notification rule:
    push_serieslevel_notification is meant to fire the webhook and, the
    triggered set having size 1, to remove the originals.  It fires the
    webhook and raises [TypeError] on [len(triggered_rules==1)]; the four
    files of the series are still in the incoming folder. *)
Theorem notification_only_rule_removes_nothing :
  push_serieslevel_notification (Scenario.installation Scenario.notify_only)
    ["N"] ["S#a"; "S#b"] "S" Scenario.tags Scenario.spool
  = (Raise TypeError,
     with_trace Scenario.spool [send_webhook "http://hook" "received"]).
Proof. vm_compute. reflexivity. Qed.

(** C5, at a series identifier without files in the incoming folder:
    route_series is meant to get past the scan.  It raises [IndexError] at
    [fileList[0]]; nothing has been reported, and the lock it had taken is
    gone again. *)
Theorem route_series_fails_on_an_empty_scan :
  route_series (Scenario.installation []) Scenario.collaborators "T" Scenario.spool
  = (Raise IndexError, Scenario.spool).
Proof. vm_compute. reflexivity. Qed.

(** C6, at a series whose only triggered rule acts on the study level:
    push_series_studylevel is meant to stage the series in the folder
    [Y#R] inside the studies parent, with the study task descriptor.  It
    creates a folder [Y#R] in the working directory, not inside any
    configured folder, and then raises [UnboundLocalError]: the expression
    for the path of the lock file fails and its handler uses the unbound
    [lock_file].  No descriptor is written and no file is transferred. *)
Theorem study_rule_stages_nothing :
  push_series_studylevel (Scenario.installation Scenario.study_rule)
    ["R"] ["S#a"; "S#b"] "S" Scenario.tags Scenario.spool
  = (Raise UnboundLocalError, add_dir Scenario.spool ["Y#R"]).
Proof. vm_compute. reflexivity. Qed.

(** C7 fails as stated: the payload of the first slice is missing, so the
    transfer of the pair [S#a] raises; push_files reports it and returns
    [False], and the pair [S#b] behind it is not transferred: it is still
    in the incoming folder and not in the target folder. *)
Lemma push_files_leaves_the_rest_of_the_batch :
  let w := Scenario.spool_missing_payload in
  let r := push_files (Scenario.installation []) ["S#a"; "S#b"]
                      "/data/processing/stage" true w in
  fst (transfer_pair FS.copy "/data/incoming/" "/data/processing/stage/" "S#a" w)
    = Raise OSError
  /\ fst r = Ok false
  /\ trace (snd r) = [push_problem "S#a"]
  /\ Path.mem ["data"; "processing"; "stage"; "S#b.dcm"] (files (snd r)) = false
  /\ Path.mem ["data"; "processing"; "stage"; "S#b.tags"] (files (snd r)) = false
  /\ Path.mem ["data"; "incoming"; "S#b.dcm"] (files (snd r)) = true
  /\ Path.mem ["data"; "incoming"; "S#b.tags"] (files (snd r)) = true.
Proof. vm_compute. repeat split; reflexivity. Qed.

(** C7 as amended, at that batch. *)
Lemma push_files_stops_witness :
  let cfg := Scenario.installation [] in
  let w := Scenario.spool_missing_payload in
  push_files cfg [] "/data/processing/stage" true w = (Ok true, w)
  /\ transfer_pair FS.copy (INCOMING cfg ++ "/") ("/data/processing/stage" ++ "/") "S#a" w
     = (Raise OSError, w)
  /\ push_files cfg ([] ++ "S#a" :: ["S#b"]) "/data/processing/stage" true w
     = (Ok false, with_trace w [push_problem "S#a"]).
Proof.
  cbv zeta.
  assert (H1 : push_files (Scenario.installation []) [] "/data/processing/stage" true
                 Scenario.spool_missing_payload = (Ok true, Scenario.spool_missing_payload))
    by reflexivity.
  assert (H2 : transfer_pair (if negb true then FS.move else FS.copy)
                 (INCOMING (Scenario.installation []) ++ "/")
                 ("/data/processing/stage" ++ "/") "S#a" Scenario.spool_missing_payload
               = (Raise OSError, Scenario.spool_missing_payload))
    by (vm_compute; reflexivity).
  split; [exact H1 | split; [exact H2 |]].
  exact (push_files_stops_at_the_first_failure (Scenario.installation []) [] "S#a" ["S#b"]
           "/data/processing/stage" true _ _ _ _ H1 H2).
Defined.

(** C1 fails in the code.  Exactly one rule triggers for series S, a route
    rule whose target [X] is configured; the file list is not empty and
    there is no discard-override.  route_series registers the series,
    fires the webhook of the rule and creates the outgoing folder; then
    the statement that names the lock of that folder divides a string by
    a string, and the handler around it reads the name it was to bind:
    the invocation ends in an UnboundLocalError.  No pair has been moved:
    the files of the spool are what they were, and the new folder is
    empty. *)
Theorem route_rule_with_configured_target_transfers_nothing :
  let cfg := Scenario.installation Cases.route_to_known in
  series_files cfg Scenario.spool "S" = ["S#a"; "S#b"]
  /\ triggered_set cfg Scenario.collaborators Scenario.tags = ["R"]
  /\ discard_override cfg Scenario.collaborators Scenario.tags = ""
  /\ route_series cfg Scenario.collaborators "S" Scenario.spool
     = (Raise UnboundLocalError,
        mkWorld (files Scenario.spool)
                (dirs Scenario.spool ++ [ ["data"; "outgoing"; "uuid-0"] ])
                [ send_register_series Scenario.tags;
                  send_series_event REGISTERED "S" 2 "" "";
                  send_webhook "http://hook" "received" ]
                1).
Proof. vm_compute. repeat split; reflexivity. Qed.

(** C8 fails in the code.  Two route rules trigger for series S: the
    target [Z] of the first is not in the targets table, the target [X]
    of the second is.  route_series fires both webhooks and reports the
    unknown target; for the remaining target it creates the outgoing
    folder, and the statement that names the lock of that folder ends the
    invocation in an UnboundLocalError.  The remaining target is not
    staged: no ROUTE event is sent, the new folder is empty and every pair
    is still in the incoming folder. *)
Theorem target_behind_an_unknown_one_is_not_staged :
  let cfg := Scenario.installation Cases.route_unknown_then_known in
  triggered_set cfg Scenario.collaborators Scenario.tags = ["RZ"; "RX"]
  /\ targets cfg = ["X"]
  /\ route_series cfg Scenario.collaborators "S" Scenario.spool
     = (Raise UnboundLocalError,
        mkWorld (files Scenario.spool)
                (dirs Scenario.spool ++ [ ["data"; "outgoing"; "uuid-0"] ])
                [ send_register_series Scenario.tags;
                  send_series_event REGISTERED "S" 2 "" "";
                  send_webhook "http://hook" "received";
                  send_webhook "http://hook" "received";
                  send_event "Invalid target selected Z" ]
                1).
Proof. vm_compute. repeat split; reflexivity. Qed.

(** C3 at a rules table with a disabled rule, a rule whose predicate
    raises, a processing rule, a discard rule and two rules behind it. *)
Lemma get_triggered_rules_witness :
  let cfg := Scenario.installation Scenario.mixed_rules in
  NoDup (map fst (rules cfg))
  /\ get_triggered_rules cfg Scenario.collaborators Scenario.tags Scenario.spool
     = (Ok (["C"; "D"], "D"), with_trace Scenario.spool [send_event "Invalid rule: B"]).
Proof.
  cbv zeta.
  assert (Hnd : NoDup (map fst (rules (Scenario.installation Scenario.mixed_rules)))).
  { cbn. repeat (constructor; [cbn; intuition discriminate|]). constructor. }
  split; [exact Hnd|].
  exact (proj1 (get_triggered_rules_matches (Scenario.installation Scenario.mixed_rules)
                  Scenario.collaborators Scenario.tags Scenario.spool Hnd)).
Defined.

(** C10 at a triggered set with a route rule without target, a route rule
    to the unknown target [Z] and a processing rule. *)
Lemma route_webhooks_witness :
  let cfg := Scenario.installation Scenario.route_rules in
  configured cfg ["R1"; "R2"; "R3"]
  /\ push_serieslevel_routing cfg Scenario.collaborators ["R1"; "R2"; "R3"]
       ["S#a"; "S#b"] "S" Scenario.tags Scenario.spool
     = (Ok tt, with_trace Scenario.spool
                 [send_webhook "http://hook" "received";
                  send_webhook "http://hook" "received";
                  send_event "Invalid target selected Z"]).
Proof.
  cbv zeta.
  assert (Hc : configured (Scenario.installation Scenario.route_rules) ["R1"; "R2"; "R3"]).
  { intros n [<-|[<-|[<-|[]]]]; discriminate. }
  split; [exact Hc|].
  destruct (route_webhooks_precede_target_validation
              (Scenario.installation Scenario.route_rules) Scenario.collaborators
              ["R1"; "R2"; "R3"] ["S#a"; "S#b"] "S" Scenario.tags Scenario.spool Hc)
    as (_ & _ & _ & H & _).
  exact (H eq_refl).
Defined.

(** X28 at a selection that begins with the unknown target [Z], and at an
    installation whose outgoing folder is missing. *)
Lemma serieslevel_failures_witness :
  let cfg := Scenario.installation Scenario.route_rules in
  (known_target cfg ("Z", "R2") = false
   /\ push_serieslevel_outgoing cfg Scenario.collaborators ["R2"] ["S#a"; "S#b"] "S"
        Scenario.tags [("Z", "R2"); ("X", "R1")] Scenario.spool
      = push_serieslevel_outgoing cfg Scenario.collaborators ["R2"] ["S#a"; "S#b"] "S"
          Scenario.tags [("X", "R1")]
          (with_trace Scenario.spool [invalid_target ("Z", "R2")]))
  /\ (known_target cfg ("X", "R1") = true
      /\ cannot_mkdir Scenario.spool_without_outgoing
           (next_outgoing cfg Scenario.collaborators Scenario.spool_without_outgoing) = true
      /\ push_serieslevel_outgoing cfg Scenario.collaborators ["R2"] ["S#a"; "S#b"] "S"
           Scenario.tags [("X", "R1")] Scenario.spool_without_outgoing
         = (Ok tt, with_trace (next_uuid Scenario.spool_without_outgoing)
                     [send_event "Unable to create outgoing folder /data/outgoing/uuid-0"])).
Proof.
  cbv zeta.
  destruct (serieslevel_failures_stay_local (Scenario.installation Scenario.route_rules)
              Scenario.collaborators ["R2"] ["S#a"; "S#b"] "S" Scenario.tags)
    as (HA & HB & _).
  split.
  - split; [reflexivity|]. apply HA. reflexivity.
  - split; [reflexivity|]. split; [reflexivity|].
    exact (HB ("X", "R1") [] Scenario.spool_without_outgoing eq_refl eq_refl).
Defined.


(** X27 at a series for which two processing rules trigger: both staging
    folders receive the pairs, and the incoming folder is emptied of
    them. *)
Lemma processing_witness :
  let cfg := Scenario.installation Scenario.two_processing_rules in
  let w' := snd (route_series cfg Scenario.collaborators "S" Scenario.spool) in
  series_files cfg Scenario.spool "S" = ["S#a"; "S#b"]
  /\ triggered_set cfg Scenario.collaborators Scenario.tags = ["P1"; "P2"]
  /\ discard_override cfg Scenario.collaborators Scenario.tags = ""
  /\ can_stage cfg Scenario.collaborators 2 (locked cfg Scenario.spool "S")
  /\ fst (route_series cfg Scenario.collaborators "S" Scenario.spool) = Ok tt
  /\ (forall e, In e ["S#a"; "S#b"] ->
        Path.mem (dcm_in (incoming_path cfg) e) (files w') = false
        /\ Path.mem (tags_in (incoming_path cfg) e) (files w') = false)
  /\ (forall k e, k < 2 -> In e ["S#a"; "S#b"] ->
        Path.mem (dcm_in (staging_at cfg Scenario.collaborators Scenario.spool k) e)
                 (files w') = true
        /\ Path.mem (tags_in (staging_at cfg Scenario.collaborators Scenario.spool k) e)
                    (files w') = true).
Proof.
  cbv zeta.
  assert (Hnd : NoDup (map fst (rules (Scenario.installation Scenario.two_processing_rules)))).
  { cbn. repeat (constructor; [cbn; intuition discriminate|]). constructor. }
  assert (Hndf : NoDup (series_files (Scenario.installation Scenario.two_processing_rules)
                          Scenario.spool "S")).
  { change (NoDup ["S#a"; "S#b"]).
    repeat (constructor; [cbn; intuition discriminate|]). constructor. }
  assert (Hne : triggered_set (Scenario.installation Scenario.two_processing_rules)
                  Scenario.collaborators Scenario.tags <> [])
    by (change (["P1"; "P2"] <> []); discriminate).
  assert (Hcan : can_stage (Scenario.installation Scenario.two_processing_rules)
                   Scenario.collaborators 2
                   (locked (Scenario.installation Scenario.two_processing_rules)
                           Scenario.spool "S")).
  { split; [reflexivity | split; [reflexivity | split; [reflexivity | split]]].
    - cbn. repeat (constructor; [cbn; intuition discriminate|]). constructor.
    - intros j Hj. destruct j as [|[|j]]; [split; reflexivity | split; reflexivity | lia]. }
  assert (Hfl : series_files (Scenario.installation Scenario.two_processing_rules)
                  Scenario.spool "S" <> [])
    by (change (["S#a"; "S#b"] <> []); discriminate).
  pose proof (processing_moves_for_one_rule_and_copies_for_several
                (Scenario.installation Scenario.two_processing_rules)
                Scenario.collaborators "S" Scenario.spool Scenario.tags
                Hnd eq_refl eq_refl Hfl Hndf eq_refl (fun e _ => eq_refl) Hne eq_refl
                eq_refl Hcan)
    as H.
  cbv zeta in H. destruct H as ((first & _ & Hrun) & Hgone & Hdest & _).
  split; [reflexivity | split; [reflexivity | split; [reflexivity | split; [exact Hcan|]]]].
  split; [rewrite Hrun; reflexivity | split; [exact Hgone | exact Hdest]].
Defined.

(* ===================================================================== *)
(** ** The vendor header: get_ascconv *)
(* ===================================================================== *)

Lemma substring_skip (a b : string) (n : nat) :
  substring (String.length a) n (a ++ b) = substring 0 n b.
Proof. induction a as [|c a IH]; [reflexivity|exact IH]. Qed.

Lemma substring_0_prefix (b c : string) :
  substring 0 (String.length b) (b ++ c) = b.
Proof. apply substring_0_append. Qed.

Lemma substring_0_all (s : string) : substring 0 (String.length s) s = s.
Proof.
  pose proof (substring_0_append s "") as H. rewrite append_nil_r in H. exact H.
Qed.

Lemma rest_from_append (a b : string) : Ascconv.rest_from (a ++ b) (String.length a) = b.
Proof.
  unfold Ascconv.rest_from. rewrite length_append.
  replace (String.length a + String.length b - String.length a) with (String.length b)
    by lia.
  rewrite substring_skip. apply substring_0_all.
Qed.

Lemma occurs_at_middle (sub a b : string) :
  Ascconv.occurs_at sub (a ++ sub ++ b) (String.length a).
Proof.
  unfold Ascconv.occurs_at. rewrite substring_skip. apply substring_0_prefix.
Qed.

(** The first occurrence is what [find] returns. *)
Lemma index_first (sub s : string) (i : nat) :
  sub <> "" ->
  Ascconv.occurs_at sub s i ->
  (forall p, p < i -> ~ Ascconv.occurs_at sub s p) ->
  String.index 0 sub s = Some i.
Proof.
  intros Hne Hi Hmin. destruct (String.index 0 sub s) as [m|] eqn:E.
  - f_equal. destruct (Nat.lt_trichotomy m i) as [Hlt|[Heq|Hgt]].
    + exfalso. apply (Hmin m Hlt). exact (index_correct1 _ _ _ _ E).
    + exact Heq.
    + exfalso. apply (index_correct2 _ _ _ _ E i); [lia|exact Hgt|exact Hi].
  - exfalso. apply (index_correct3 0 i _ _ E Hne); [lia|exact Hi].
Qed.

Lemma index_none (sub s : string) :
  (forall p, ~ Ascconv.occurs_at sub s p) -> String.index 0 sub s = None.
Proof.
  intros H. destruct (String.index 0 sub s) as [m|] eqn:E; [|reflexivity].
  exfalso. apply (H m). exact (index_correct1 _ _ _ _ E).
Qed.

Lemma index_some_occurs (sub s : string) (p : nat) :
  sub <> "" ->
  Ascconv.occurs_at sub s p ->
  exists i, String.index 0 sub s = Some i /\ i <= p.
Proof.
  intros Hne Hp. destruct (String.index 0 sub s) as [m|] eqn:E.
  - exists m. split; [reflexivity|].
    destruct (Nat.le_gt_cases m p) as [Hle|Hgt]; [exact Hle|].
    exfalso. apply (index_correct2 _ _ _ _ E p); [lia|exact Hgt|exact Hp].
  - exfalso. apply (index_correct3 0 p _ _ E Hne); [lia|exact Hp].
Qed.

Lemma no_newline_append (a b : string) :
  Ascconv.no_newline (a ++ b) = Ascconv.no_newline a && Ascconv.no_newline b.
Proof.
  induction a as [|c a IH]; [reflexivity|].
  cbn [String.append Ascconv.no_newline]. rewrite IH. apply andb_assoc.
Qed.

Lemma line_at_newline (x y : string) :
  Ascconv.no_newline x = true ->
  Ascconv.line_at (x ++ String Ascconv.LF y) = x ++ String Ascconv.LF "".
Proof.
  intros Hx. induction x as [|c x IH].
  - cbn [String.append Ascconv.line_at]. rewrite Ascii.eqb_refl. reflexivity.
  - cbn [Ascconv.no_newline] in Hx. apply andb_prop in Hx. destruct Hx as [Hc Hx].
    cbn [String.append Ascconv.line_at].
    destruct (Ascii.eqb c Ascconv.LF); [discriminate|].
    rewrite IH by exact Hx. reflexivity.
Qed.

(** X20 (get_ascconv, lines 24-38).  For a payload in which the BEGIN marker
    first occurs at the end of [pre], followed by the rest of its line, a
    line feed, the ASCII text [body] and the first occurrence of the END
    marker, get_ascconv returns exactly [body]: the line of the BEGIN
    marker is skipped, and nothing from the END marker on is read. *)
Theorem get_ascconv_returns_the_text_between_the_markers (pre rest body post : string) :
  let content := pre ++ Ascconv.BEGIN ++ rest
                     ++ String Ascconv.LF (body ++ Ascconv.END ++ post) in
  (forall p, p < String.length pre -> ~ Ascconv.occurs_at Ascconv.BEGIN content p) ->
  (forall p, p < String.length pre + String.length Ascconv.BEGIN + String.length rest
                 + 1 + String.length body ->
             ~ Ascconv.occurs_at Ascconv.END content p) ->
  Ascconv.no_newline rest = true ->
  Ascconv.all_ascii body = true ->
  Ascconv.get_ascconv content = inr body.
Proof.
  intros content Hb He Hrest Hbody.
  set (line := Ascconv.BEGIN ++ rest ++ String Ascconv.LF "").
  assert (Hc1 : content = pre ++ line ++ body ++ Ascconv.END ++ post).
  { unfold content, line. rewrite !append_assoc. reflexivity. }
  assert (Hc2 : content = (pre ++ line ++ body) ++ Ascconv.END ++ post).
  { rewrite Hc1. rewrite !append_assoc. reflexivity. }
  assert (Hc3 : content = (pre ++ line) ++ body ++ Ascconv.END ++ post).
  { rewrite Hc1. rewrite !append_assoc. reflexivity. }
  assert (Hlen : String.length (pre ++ line ++ body)
                 = String.length pre + String.length Ascconv.BEGIN + String.length rest
                   + 1 + String.length body).
  { unfold line. rewrite !length_append. cbn [String.length]. lia. }
  assert (Hfb : String.index 0 Ascconv.BEGIN content = Some (String.length pre)).
  { apply index_first; [discriminate| |exact Hb].
    unfold content. apply occurs_at_middle. }
  assert (Hfe : String.index 0 Ascconv.END content
                = Some (String.length (pre ++ line ++ body))).
  { apply index_first; [discriminate| |rewrite Hlen; exact He].
    rewrite Hc2. apply occurs_at_middle. }
  unfold Ascconv.get_ascconv.
  destruct content as [|c0 content'] eqn:Econtent.
  { apply (f_equal String.length) in Hc1. rewrite !length_append in Hc1.
    unfold line in Hc1. rewrite !length_append in Hc1. cbn in Hc1. lia. }
  rewrite <- Econtent in *. clear Econtent c0 content'.
  unfold Ascconv.find. rewrite Hfb, Hfe. cbv zeta.
  assert (Hneg : forall n, (Z.of_nat n <? 0)%Z = false)
    by (intros n; apply Z.ltb_ge; lia).
  rewrite !Hneg. rewrite Nat2Z.id.
  assert (Hline : Ascconv.readline content (String.length pre) = line).
  { unfold Ascconv.readline. unfold content at 1. rewrite rest_from_append.
    rewrite <- append_assoc.
    rewrite line_at_newline.
    - unfold line. rewrite append_assoc. reflexivity.
    - rewrite no_newline_append, Hrest. reflexivity. }
  rewrite Hline.
  replace (String.length pre + String.length line) with (String.length (pre ++ line))
    by apply length_append.
  unfold Ascconv.read.
  replace (Z.of_nat (String.length (pre ++ line ++ body))
           - Z.of_nat (String.length (pre ++ line)))%Z
    with (Z.of_nat (String.length body))
    by (rewrite !length_append; lia).
  rewrite Hneg, Nat2Z.id.
  rewrite Hc3 at 1. rewrite substring_skip, substring_0_prefix.
  unfold Ascconv.decode_ascii. rewrite Hbody. reflexivity.
Qed.

(** X21 (get_ascconv, lines 30-35).  get_ascconv raises its bare Exception
    exactly when the payload is not empty and one of the two markers occurs
    nowhere in it. *)
Theorem get_ascconv_needs_both_markers (content : string) :
  Ascconv.get_ascconv content = inl Ascconv.NoMarker <->
  content <> ""
  /\ ((forall p, ~ Ascconv.occurs_at Ascconv.BEGIN content p)
      \/ (forall p, ~ Ascconv.occurs_at Ascconv.END content p)).
Proof.
  assert (Hneg : forall n, (Z.of_nat n <? 0)%Z = false)
    by (intros n; apply Z.ltb_ge; lia).
  assert (Hnone : forall sub, sub <> "" -> String.index 0 sub content = None ->
                              forall p, ~ Ascconv.occurs_at sub content p).
  { intros sub Hsub E p Hp. apply (index_correct3 0 p _ _ E Hsub); [lia|exact Hp]. }
  unfold Ascconv.get_ascconv, Ascconv.find.
  destruct content as [|c0 content'] eqn:Econtent.
  { split; [discriminate|]. intros [H _]. contradiction. }
  rewrite <- Econtent in *.
  assert (Hne : content <> "") by (rewrite Econtent; discriminate).
  clear Econtent c0 content'. cbv zeta.
  destruct (String.index 0 Ascconv.BEGIN content) as [i|] eqn:Eb.
  - rewrite Hneg.
    destruct (String.index 0 Ascconv.END content) as [j|] eqn:Ee.
    + rewrite Hneg. split.
      * unfold Ascconv.decode_ascii.
        destruct (Ascconv.all_ascii _); discriminate.
      * intros [_ [H|H]]; exfalso.
        -- apply (H i). exact (index_correct1 _ _ _ _ Eb).
        -- apply (H j). exact (index_correct1 _ _ _ _ Ee).
    + cbn. split; [|reflexivity]. intros _. split; [exact Hne|].
      right. apply Hnone; [discriminate|exact Ee].
  - cbn. split; [|reflexivity]. intros _. split; [exact Hne|].
    left. apply Hnone; [discriminate|exact Eb].
Qed.

(** X22 (get_ascconv, lines 36-38).  The length handed to [mm.read] is the
    difference between the position of the END marker and the position
    behind the line of the BEGIN marker.  When the END marker occurs before
    that position (anywhere in front of the BEGIN marker, or on its line),
    the difference is negative and [mm.read] returns everything up to the
    end of the mapping: get_ascconv then returns the whole payload behind
    the line of the BEGIN marker. *)
Theorem get_ascconv_reads_to_the_end_when_END_comes_first (pre rest tail : string) (j : nat) :
  let content := pre ++ Ascconv.BEGIN ++ rest ++ String Ascconv.LF tail in
  (forall p, p < String.length pre -> ~ Ascconv.occurs_at Ascconv.BEGIN content p) ->
  Ascconv.occurs_at Ascconv.END content j ->
  j < String.length pre + String.length Ascconv.BEGIN + String.length rest + 1 ->
  Ascconv.no_newline rest = true ->
  Ascconv.all_ascii tail = true ->
  Ascconv.get_ascconv content = inr tail.
Proof.
  intros content Hb Hj Hlt Hrest Htail.
  set (line := Ascconv.BEGIN ++ rest ++ String Ascconv.LF "").
  assert (Hc1 : content = (pre ++ line) ++ tail).
  { unfold content, line. rewrite !append_assoc. reflexivity. }
  assert (Hfb : String.index 0 Ascconv.BEGIN content = Some (String.length pre)).
  { apply index_first; [discriminate| |exact Hb].
    unfold content. apply occurs_at_middle. }
  destruct (index_some_occurs Ascconv.END content j) as (i & Hfe & Hij);
    [discriminate|exact Hj|].
  unfold Ascconv.get_ascconv.
  destruct content as [|c0 content'] eqn:Econtent.
  { apply (f_equal String.length) in Hc1. rewrite !length_append in Hc1.
    unfold line in Hc1. rewrite !length_append in Hc1. cbn in Hc1. lia. }
  rewrite <- Econtent in *. clear Econtent c0 content'.
  unfold Ascconv.find. rewrite Hfb, Hfe. cbv zeta.
  assert (Hneg : forall n, (Z.of_nat n <? 0)%Z = false)
    by (intros n; apply Z.ltb_ge; lia).
  rewrite !Hneg. rewrite Nat2Z.id.
  assert (Hline : Ascconv.readline content (String.length pre) = line).
  { unfold Ascconv.readline. unfold content at 1. rewrite rest_from_append.
    rewrite <- append_assoc.
    rewrite line_at_newline.
    - unfold line. rewrite append_assoc. reflexivity.
    - rewrite no_newline_append, Hrest. reflexivity. }
  rewrite Hline.
  replace (String.length pre + String.length line) with (String.length (pre ++ line))
    by apply length_append.
  unfold Ascconv.read.
  assert (Hn : (Z.of_nat i - Z.of_nat (String.length (pre ++ line)) <? 0)%Z = true).
  { apply Z.ltb_lt. rewrite length_append. unfold line. rewrite !length_append.
    cbn [String.length]. lia. }
  rewrite Hn. rewrite Hc1 at 1. rewrite rest_from_append.
  unfold Ascconv.decode_ascii. rewrite Htail. reflexivity.
Qed.

(* ===================================================================== *)
(** ** The vendor header: parse_ascconv *)
(* ===================================================================== *)

Section AscconvParser.

Variable atom : Type.
Variable literal_eval : string -> option (Ascconv.value atom).

Lemma lookup_store_same k (v : Ascconv.value atom) d :
  Ascconv.lookup k (Ascconv.store k v d) = Some v.
Proof.
  induction d as [|[k' v'] d IH]; cbn [Ascconv.store Ascconv.lookup Ascconv.is_key].
  - rewrite String.eqb_refl. reflexivity.
  - destruct (Ascconv.is_key k k') eqn:E; cbn [Ascconv.lookup]; rewrite E;
      [reflexivity|exact IH].
Qed.

Lemma lookup_store_other k k' (v : Ascconv.value atom) d :
  k' <> k -> Ascconv.lookup k' (Ascconv.store k v d) = Ascconv.lookup k' d.
Proof.
  intros Hne. induction d as [|[k0 v0] d IH]; cbn [Ascconv.store Ascconv.lookup].
  - cbn [Ascconv.is_key]. destruct (String.eqb k' k) eqn:E; [|reflexivity].
    apply String.eqb_eq in E. contradiction.
  - destruct (Ascconv.is_key k k0) eqn:E; cbn [Ascconv.lookup].
    + destruct (Ascconv.is_key k' k0) eqn:E'; [|reflexivity].
      exfalso. destruct k0 as [s|a]; cbn [Ascconv.is_key] in E, E'; [|discriminate].
      apply String.eqb_eq in E. apply String.eqb_eq in E'. congruence.
    + rewrite IH. reflexivity.
Qed.

Lemma lookup_path_cons k path (d : Ascconv.dict atom) :
  path <> [] ->
  Ascconv.lookup_path (k :: path) d =
  match Ascconv.lookup k d with
  | Some (Ascconv.VDict sub) => Ascconv.lookup_path path sub
  | _ => None
  end.
Proof. intros Hp. destruct path; [contradiction|reflexivity]. Qed.

Lemma lookup_path_empty path :
  Ascconv.lookup_path path (@nil (Ascconv.key atom * Ascconv.value atom)) = None.
Proof. destruct path as [|k [|k' path]]; reflexivity. Qed.

(** After the assignment the value is found at the path. *)
Lemma assign_lookup keys last_key (v : Ascconv.value atom) d d' :
  Ascconv.assign keys last_key v d = inr d' ->
  Ascconv.lookup_path (keys ++ [last_key])%list d' = Some v.
Proof.
  revert d d'. induction keys as [|val keys IH]; intros d d' H.
  - cbn in H. injection H as <-. cbn. apply lookup_store_same.
  - cbn [Ascconv.assign] in H. cbn [app].
    rewrite lookup_path_cons by (destruct keys; discriminate).
    destruct (Ascconv.lookup val d) as [[s|a|sub]|]; try discriminate.
    + destruct (Ascconv.assign keys last_key v sub) as [e|sub'] eqn:E; [discriminate|].
      injection H as <-. rewrite lookup_store_same. apply (IH _ _ E).
    + destruct (Ascconv.assign keys last_key v []) as [e|sub'] eqn:E; [discriminate|].
      injection H as <-. rewrite lookup_store_same. apply (IH _ _ E).
Qed.

(** The other keys of the top level keep their values. *)
Lemma assign_frame keys last_key (v : Ascconv.value atom) d d' k :
  Ascconv.assign keys last_key v d = inr d' ->
  k <> hd last_key keys ->
  Ascconv.lookup k d' = Ascconv.lookup k d.
Proof.
  destruct keys as [|val keys]; cbn [Ascconv.assign hd]; intros H Hk.
  - injection H as <-. apply lookup_store_other. exact Hk.
  - destruct (Ascconv.lookup val d) as [[s|a|sub]|]; try discriminate.
    + destruct (Ascconv.assign keys last_key v sub) as [e|sub']; [discriminate|].
      injection H as <-. apply lookup_store_other. exact Hk.
    + destruct (Ascconv.assign keys last_key v []) as [e|sub']; [discriminate|].
      injection H as <-. apply lookup_store_other. exact Hk.
Qed.

Lemma assign_fails_iff keys last_key (v : Ascconv.value atom) d :
  (exists e, Ascconv.assign keys last_key v d = inl e) <->
  exists pre post x,
    keys = (pre ++ post)%list
    /\ Ascconv.lookup_path pre d = Some x
    /\ Ascconv.is_dict x = false.
Proof.
  revert d. induction keys as [|val keys IH]; intros d.
  - split.
    + intros [e H]. discriminate.
    + intros (pre & post & x & Hk & Hl & _).
      destruct pre; [discriminate|discriminate].
  - cbn [Ascconv.assign]. split.
    + intros [e H].
      destruct (Ascconv.lookup val d) as [[s|a|sub]|] eqn:El.
      * exists [val], keys, (Ascconv.VStr s). cbn. auto.
      * exists [val], keys, (Ascconv.VObj a). cbn. auto.
      * destruct (Ascconv.assign keys last_key v sub) as [e'|sub'] eqn:E; [|discriminate].
        destruct (proj1 (IH sub) (ex_intro _ e' E)) as (pre & post & x & Hk & Hl & Hx).
        exists (val :: pre)%list, post, x. split; [cbn; congruence|]. split; [|exact Hx].
        rewrite lookup_path_cons, El; [exact Hl|].
        intros ->. discriminate.
      * destruct (Ascconv.assign keys last_key v []) as [e'|sub'] eqn:E; [|discriminate].
        destruct (proj1 (IH []) (ex_intro _ e' E)) as (pre & post & x & Hk & Hl & Hx).
        rewrite lookup_path_empty in Hl. discriminate.
    + intros (pre & post & x & Hk & Hl & Hx).
      destruct pre as [|k pre]; [discriminate|].
      cbn [app] in Hk. injection Hk as <- Hk.
      destruct pre as [|k' pre].
      * cbn in Hl. rewrite Hl. destruct x; [eexists; reflexivity..|discriminate].
      * rewrite lookup_path_cons in Hl by discriminate.
        destruct (Ascconv.lookup val d) as [[s|a|sub]|]; try discriminate.
        destruct (proj2 (IH sub)) as [e He].
        { exists (k' :: pre)%list, post, x. auto. }
        rewrite He. eexists. reflexivity.
Qed.

Lemma assign_error keys last_key (v : Ascconv.value atom) d e :
  Ascconv.assign keys last_key v d = inl e -> e = Ascconv.NotADict.
Proof.
  revert d. induction keys as [|val keys IH]; intros d H; [discriminate|].
  cbn [Ascconv.assign] in H.
  destruct (Ascconv.lookup val d) as [[s|a|sub]|]; try congruence.
  - destruct (Ascconv.assign keys last_key v sub) as [e'|sub'] eqn:E; [|discriminate].
    injection H as <-. apply (IH _ E).
  - destruct (Ascconv.assign keys last_key v []) as [e'|sub'] eqn:E; [|discriminate].
    injection H as <-. apply (IH _ E).
Qed.

(** [key, value = line.split(SEP)] on a line with exactly one separator. *)
Lemma unpack2_one (key raw : string) :
  (forall p, p < String.length key ->
             ~ Ascconv.occurs_at Ascconv.SEP (key ++ Ascconv.SEP ++ raw) p) ->
  (forall p, ~ Ascconv.occurs_at Ascconv.SEP raw p) ->
  Ascconv.unpack2 (key ++ Ascconv.SEP ++ raw) = inr (key, raw).
Proof.
  intros Hk Hr. unfold Ascconv.unpack2.
  rewrite (index_first Ascconv.SEP (key ++ Ascconv.SEP ++ raw) (String.length key));
    [|discriminate|apply occurs_at_middle|exact Hk].
  cbv zeta.
  replace (String.length key + String.length Ascconv.SEP)
    with (String.length (key ++ Ascconv.SEP)) by apply length_append.
  rewrite <- append_assoc, rest_from_append.
  rewrite (index_none _ _ Hr).
  rewrite append_assoc, substring_0_prefix. reflexivity.
Qed.

Lemma split_dot_nonempty s cur : Ascconv.split_dot s cur <> [].
Proof.
  revert cur. induction s as [|c s IH]; intros cur; cbn [Ascconv.split_dot].
  - discriminate.
  - destruct (Ascii.eqb c "."%char); [discriminate|apply IH].
Qed.

(** X23 (parse_ascconv, lines 45-64).  A line that consists of a key, the
    separator and a text, with no other occurrence of the separator, either
    raises TypeError or stores the text's value: afterwards the dictionary
    holds, at the path the key spells with its dots, the result of
    literal_eval on the text with doubled double quotes undone, or that text
    itself when literal_eval raises; the top-level keys other than the first
    part of the key keep their values. *)
Theorem parse_line_stores_the_value_at_the_dotted_path
        (key raw : string) (data_dict data_dict' : Ascconv.dict atom) :
  (forall p, p < String.length key ->
             ~ Ascconv.occurs_at Ascconv.SEP (key ++ Ascconv.SEP ++ raw) p) ->
  (forall p, ~ Ascconv.occurs_at Ascconv.SEP raw p) ->
  Ascconv.parse_line literal_eval data_dict (key ++ Ascconv.SEP ++ raw) = inr data_dict' ->
  Ascconv.lookup_path (Ascconv.split_dot key "") data_dict'
  = Some (match literal_eval (Ascconv.unquote raw) with
          | Some v => v
          | None => Ascconv.VStr (Ascconv.unquote raw)
          end)
  /\ forall k, k <> hd "" (Ascconv.split_dot key "") ->
               Ascconv.lookup k data_dict' = Ascconv.lookup k data_dict.
Proof.
  intros Hk Hr H. unfold Ascconv.parse_line in H.
  rewrite (unpack2_one key raw Hk Hr) in H. cbv zeta in H.
  pose proof (split_dot_nonempty key "") as Hne.
  split.
  - rewrite (app_removelast_last "" Hne) at 1.
    apply (assign_lookup _ _ _ _ _ H).
  - intros k Hkk. apply (assign_frame _ _ _ _ _ _ H).
    destruct (Ascconv.split_dot key "") as [|k0 [|k1 ks]]; [contradiction|exact Hkk|exact Hkk].
Qed.

(** X24 (parse_ascconv, lines 47-64).  The dive along the parts of a key and
    the final assignment fail exactly when a proper prefix of the key path
    names a value that is not a dictionary (a number or a text stored by an
    earlier line); the exception is then TypeError.  Missing keys never
    make it fail: they get empty dictionaries. *)
Theorem assign_fails_exactly_below_a_value_that_is_no_dictionary
        (keys : list string) (last_key : string) (v : Ascconv.value atom)
        (cur_dict : Ascconv.dict atom) :
  ((exists e, Ascconv.assign keys last_key v cur_dict = inl e) <->
   exists pre post x,
     keys = (pre ++ post)%list
     /\ Ascconv.lookup_path pre cur_dict = Some x
     /\ Ascconv.is_dict x = false)
  /\ (forall e, Ascconv.assign keys last_key v cur_dict = inl e -> e = Ascconv.NotADict).
Proof.
  split; [apply assign_fails_iff|intros e; apply assign_error].
Qed.

Lemma parse_lines_fails lines line (d : Ascconv.dict atom) :
  In line lines ->
  (forall p, ~ Ascconv.occurs_at Ascconv.SEP line p) ->
  exists e, Ascconv.parse_lines literal_eval lines d = inl e.
Proof.
  intros Hin Hno. revert d. induction lines as [|l lines IH]; intros d; [contradiction|].
  cbn [Ascconv.parse_lines].
  destruct Hin as [->|Hin].
  - unfold Ascconv.parse_line, Ascconv.unpack2. rewrite (index_none _ _ Hno).
    eexists. reflexivity.
  - destruct (Ascconv.parse_line literal_eval d l) as [e|d']; [eexists; reflexivity|].
    apply IH. exact Hin.
Qed.

(** X25 (parse_ascconv, lines 43-45 and 65).  parse_ascconv returns no
    partial result: when one line of the header, a blank line for instance,
    does not contain the separator, the call raises and the entries of all
    the other lines are lost with it. *)
Theorem parse_ascconv_gives_up_on_a_line_without_separator
        (content params line : string) :
  Ascconv.get_ascconv content = inr params ->
  In line (Ascconv.splitlines params) ->
  (forall p, ~ Ascconv.occurs_at Ascconv.SEP line p) ->
  exists e, Ascconv.parse_ascconv literal_eval content = inl e.
Proof.
  intros Hg Hin Hno. unfold Ascconv.parse_ascconv. rewrite Hg.
  apply (parse_lines_fails _ line); assumption.
Qed.

End AscconvParser.

(* ===================================================================== *)
(** ** The further properties at the concrete installation *)
(* ===================================================================== *)

Lemma NoDup_two_slices : NoDup ["S#a"; "S#b"].
Proof. repeat (constructor; [cbn; intuition discriminate|]). constructor. Qed.

(** push_files moves the two pairs of the spool into the prepared folder. *)
Lemma push_files_moves_witness :
  let cfg := Scenario.installation [] in
  exists w',
    push_files cfg ["S#a"; "S#b"] "/data/processing/stage" false Cases.spool_with_stage
    = (Ok true, w')
    /\ dirs w' = dirs Cases.spool_with_stage /\ trace w' = trace Cases.spool_with_stage
    /\ forall f, Path.mem f (files w') =
                 in_pairs (Path.split "/data/processing/stage") ["S#a"; "S#b"] f
                 || (Path.mem f (files Cases.spool_with_stage)
                     && negb (in_pairs (incoming_path cfg) ["S#a"; "S#b"] f)).
Proof.
  cbv zeta.
  apply (push_files_moves_every_pair (Scenario.installation []) ["S#a"; "S#b"]
           "/data/processing/stage" Cases.spool_with_stage NoDup_two_slices).
  - reflexivity.
  - reflexivity.
  - discriminate.
Defined.

(** push_files copies the two pairs of the spool into the prepared folder. *)
Lemma push_files_copies_witness :
  let cfg := Scenario.installation [] in
  exists w',
    push_files cfg ["S#a"; "S#b"] "/data/processing/stage" true Cases.spool_with_stage
    = (Ok true, w')
    /\ dirs w' = dirs Cases.spool_with_stage /\ trace w' = trace Cases.spool_with_stage
    /\ forall f, Path.mem f (files w') =
                 in_pairs (Path.split "/data/processing/stage") ["S#a"; "S#b"] f
                 || Path.mem f (files Cases.spool_with_stage).
Proof.
  cbv zeta.
  apply (push_files_copies_every_pair (Scenario.installation []) ["S#a"; "S#b"]
           "/data/processing/stage" Cases.spool_with_stage).
  - reflexivity.
  - reflexivity.
  - discriminate.
Defined.

(** remove_series empties the spool. *)
Lemma remove_series_removes_witness :
  let cfg := Scenario.installation [] in
  exists w',
    remove_series cfg ["S#a"; "S#b"] Scenario.spool = (Ok tt, w')
    /\ dirs w' = dirs Scenario.spool /\ trace w' = trace Scenario.spool
    /\ forall f, Path.mem f (files w') =
                 Path.mem f (files Scenario.spool)
                 && negb (in_pairs (incoming_path cfg) ["S#a"; "S#b"] f).
Proof.
  cbv zeta.
  apply (remove_series_removes_every_pair (Scenario.installation []) ["S#a"; "S#b"]
           Scenario.spool NoDup_two_slices).
  reflexivity.
Defined.

(** The payload of the first slice stays when its tag file has gone. *)
Lemma remove_series_keeps_witness :
  let cfg := Scenario.installation [] in
  let r := remove_series cfg ["S#a"; "S#b"] Cases.spool_missing_sidecar in
  Path.mem (tags_in (incoming_path cfg) "S#a") (files Cases.spool_missing_sidecar) = false
  /\ Path.mem (dcm_in (incoming_path cfg) "S#a") (files (snd r)) = true
  /\ In (remove_problem "S#a") (trace (snd r)).
Proof.
  cbv zeta. split; [reflexivity|].
  apply (remove_series_keeps_a_payload_without_sidecar (Scenario.installation [])
           ["S#a"; "S#b"] "S#a" Cases.spool_missing_sidecar).
  - reflexivity.
  - left. reflexivity.
  - reflexivity.
  - reflexivity.
Defined.

(** Two route rules with the target X select it once, for the later rule. *)
Lemma routing_selects_witness :
  let cfg := Scenario.installation Scenario.mixed_rules in
  configured cfg ["B"; "E"]
  /\ exists selected_targets w',
       routing_collect cfg ["B"; "E"] Scenario.tags [] Scenario.spool
       = (Ok selected_targets, w')
       /\ NoDup (map fst selected_targets)
       /\ dict_get "X" selected_targets = Some "E".
Proof.
  cbv zeta.
  assert (Hc : configured (Scenario.installation Scenario.mixed_rules) ["B"; "E"]).
  { intros n [<-|[<-|[]]]; discriminate. }
  split; [exact Hc|].
  destruct (routing_selects_each_target_once (Scenario.installation Scenario.mixed_rules)
              ["B"; "E"] Scenario.tags Scenario.spool Hc)
    as (sel & w' & Hrun & Hnd & Hlast).
  exists sel, w'. split; [exact Hrun|]. split; [exact Hnd|].
  apply (Hlast ["B"] "E" [] eq_refl eq_refl eq_refl).
  intros m [].
Defined.

(** A route rule to the configured target X creates its folder and stops. *)
Lemma push_serieslevel_outgoing_witness :
  let cfg := Scenario.installation Scenario.route_rules in
  existsb (known_target cfg) [("Z", "R2"); ("X", "R1")] = true
  /\ push_serieslevel_outgoing cfg Scenario.collaborators ["R1"; "R2"] ["S#a"; "S#b"] "S"
       Scenario.tags [("Z", "R2"); ("X", "R1")] Scenario.spool
     = (Raise UnboundLocalError,
        mkWorld (files Scenario.spool)
                (dirs Scenario.spool ++ [ ["data"; "outgoing"; "uuid-0"] ])%list
                [send_event "Invalid target selected Z"] 1).
Proof.
  cbv zeta. split; [reflexivity|].
  exact (push_serieslevel_outgoing_stops_at_a_configured_target
           (Scenario.installation Scenario.route_rules) Scenario.collaborators
           ["R1"; "R2"] ["S#a"; "S#b"] "S" Scenario.tags [("Z", "R2"); ("X", "R1")]
           Scenario.spool eq_refl eq_refl).
Defined.

(** Two processing rules are no concern of the study-level step. *)
Lemma push_series_studylevel_witness :
  let cfg := Scenario.installation Scenario.two_processing_rules in
  configured cfg ["P1"; "P2"]
  /\ push_series_studylevel cfg ["P1"; "P2"] ["S#a"; "S#b"] "S" Scenario.tags Scenario.spool
     = (Ok tt, Scenario.spool).
Proof.
  cbv zeta.
  assert (Hc : configured (Scenario.installation Scenario.two_processing_rules)
                          ["P1"; "P2"]).
  { intros n [<-|[<-|[]]]; discriminate. }
  split; [exact Hc|].
  exact (push_series_studylevel_passes_over_series_rules
           (Scenario.installation Scenario.two_processing_rules)
           ["P1"; "P2"] ["S#a"; "S#b"] "S" Scenario.tags Scenario.spool Hc eq_refl).
Defined.

(** Processing rules are no concern of the notification step. *)
Lemma push_serieslevel_notification_witness :
  let cfg := Scenario.installation Scenario.two_processing_rules in
  configured cfg ["P1"; "P2"]
  /\ push_serieslevel_notification cfg ["P1"; "P2"] ["S#a"; "S#b"] "S" Scenario.tags
       Scenario.spool
     = (Ok true, Scenario.spool).
Proof.
  cbv zeta.
  assert (Hc : configured (Scenario.installation Scenario.two_processing_rules)
                          ["P1"; "P2"]).
  { intros n [<-|[<-|[]]]; discriminate. }
  split; [exact Hc|].
  exact (push_serieslevel_notification_stops_at_the_first_rule
           (Scenario.installation Scenario.two_processing_rules)
           ["P1"; "P2"] ["S#a"; "S#b"] "S" Scenario.tags Scenario.spool Hc).
Defined.


(** The series S when its tag file cannot be decoded. *)
Lemma route_series_unreadable_witness :
  let cfg := Scenario.installation Scenario.two_processing_rules in
  series_files cfg Scenario.spool "S" = ["S#a"; "S#b"]
  /\ exists first entry,
      In first ["S#a"; "S#b"]
      /\ In entry ["S#a.dcm"; "S#a.tags"; "S#b.dcm"; "S#b.tags"; "S.lock"]
      /\ route_series cfg Cases.unreadable "S" Scenario.spool
         = (Ok tt, with_trace Scenario.spool
                     (sequence_report cfg Cases.unreadable Scenario.spool "S" first
                      ++ [send_series_event ERROR entry 0 "" "Invalid tag information";
                          send_event "Invalid tag for series S"])%list).
Proof.
  cbv zeta. split; [reflexivity|].
  apply (route_series_drops_out_on_an_unreadable_tag_file
           (Scenario.installation Scenario.two_processing_rules) Cases.unreadable
           "S" Scenario.spool eq_refl eq_refl eq_refl).
  - change (["S#a"; "S#b"] <> []). discriminate.
  - intros e He. change (In e ["S#a"; "S#b"]) in He.
    destruct He as [<-|[<-|[]]]; repeat split; reflexivity.
Defined.

(** The scan of the spool for the series S. *)
Lemma scan_witness :
  let cfg := Scenario.installation [] in
  NoDup (files Scenario.spool)
  /\ NoDup (series_files cfg Scenario.spool "S")
  /\ In "S#b" (series_files cfg Scenario.spool "S").
Proof.
  cbv zeta.
  assert (Hnd : NoDup (files Scenario.spool)).
  { repeat (constructor; [cbn; intuition discriminate|]). constructor. }
  split; [exact Hnd|].
  destruct (scan_collects_the_sidecars_of_the_series (Scenario.installation [])
              Scenario.spool "S") as [Hin Hno].
  split; [exact (Hno Hnd)|].
  apply (proj2 (Hin "S#b")). split; reflexivity.
Defined.

(** Two processing rules on the spool: both webhooks, no report. *)
Lemma push_serieslevel_processing_witness :
  let cfg := Scenario.installation Scenario.two_processing_rules in
  configured cfg ["P1"; "P2"]
  /\ exists b notified reports w',
       push_serieslevel_processing cfg Scenario.collaborators ["P1"; "P2"]
         ["S#a"; "S#b"] "S" Scenario.tags Scenario.spool = (Ok b, w')
       /\ trace w' = (trace Scenario.spool ++ map (webhook_of cfg) notified ++ reports)%list
       /\ forallb is_report reports = true
       /\ if b then notified = filter (processes cfg) ["P1"; "P2"] /\ reports = []
          else exists n later,
              filter (processes cfg) ["P1"; "P2"] = (notified ++ n :: later)%list.
Proof.
  cbv zeta.
  assert (Hc : configured (Scenario.installation Scenario.two_processing_rules)
                          ["P1"; "P2"]).
  { intros n [<-|[<-|[]]]; discriminate. }
  split; [exact Hc|].
  exact (push_serieslevel_processing_sends_webhooks_in_rule_order
           (Scenario.installation Scenario.two_processing_rules) Scenario.collaborators
           ["P1"; "P2"] ["S#a"; "S#b"] "S" Scenario.tags Scenario.spool Hc).
Defined.

(** Discarding the series of which the first payload never arrived: the
    second slice is discarded, the first is reported. *)
Lemma push_series_discard_witness :
  let cfg := Scenario.installation [] in
  let w := Scenario.spool_missing_payload in
  let w' := snd (push_series_discard cfg Scenario.collaborators ["S#a"; "S#b"] "S" "" w) in
  can_discard cfg Scenario.collaborators w
  /\ pair_present cfg w "S#a" = false
  /\ pair_present cfg w "S#b" = true
  /\ Path.mem ["data"; "discard"; "uuid-0"; "S#b.dcm"] (files w') = true
  /\ Path.mem ["data"; "incoming"; "S#b.dcm"] (files w') = false
  /\ In (discard_problem "S#a") (trace w').
Proof.
  cbv zeta.
  assert (Hcan : can_discard (Scenario.installation []) Scenario.collaborators
                             Scenario.spool_missing_payload).
  { repeat split; reflexivity. }
  split; [exact Hcan|]. split; [reflexivity|]. split; [reflexivity|].
  pose proof (push_series_discard_moves_every_complete_pair (Scenario.installation [])
                Scenario.collaborators ["S#a"; "S#b"] "S" ""
                Scenario.spool_missing_payload Hcan NoDup_two_slices eq_refl) as H.
  cbv zeta in H. destruct H as [Hmoved Hrep].
  destruct (Hmoved "S#b" (or_intror (or_introl eq_refl)) eq_refl) as (M1 & _ & M3 & _).
  split; [exact M1|]. split; [exact M3|].
  exact (Hrep "S#a" (or_introl eq_refl) eq_refl eq_refl eq_refl).
Defined.

(** The header of the example payload. *)
Lemma get_ascconv_witness : Ascconv.get_ascconv Cases.payload = inr Cases.header.
Proof.
  refine (get_ascconv_returns_the_text_between_the_markers
            "DICM" " ###" Cases.header (" ###" ++ String Ascconv.LF "pixels")
            _ _ eq_refl eq_refl).
  - intros p Hp H. unfold Ascconv.occurs_at in H.
    do 4 (destruct p as [|p]; [vm_compute in H; discriminate|]).
    cbn in Hp. lia.
  - intros p Hp H. unfold Ascconv.occurs_at in H.
    do 44 (destruct p as [|p]; [vm_compute in H; discriminate|]).
    vm_compute in Hp. lia.
Defined.

(** A payload with the END marker in front: everything behind the line of
    the BEGIN marker is returned. *)
Lemma get_ascconv_reversed_witness :
  Ascconv.get_ascconv Cases.payload_reversed = inr "rest".
Proof.
  refine (get_ascconv_reads_to_the_end_when_END_comes_first
            (Ascconv.END ++ String Ascconv.LF "") "" "rest" 0
            _ eq_refl _ eq_refl eq_refl).
  - intros p Hp H. unfold Ascconv.occurs_at in H.
    do 16 (destruct p as [|p]; [vm_compute in H; discriminate|]).
    vm_compute in Hp. lia.
  - vm_compute. lia.
Defined.

Lemma no_separator_in_a_short_text (s : string) (p : nat) :
  String.length s < 5 -> ~ Ascconv.occurs_at Ascconv.SEP s p.
Proof.
  intros Hs H. unfold Ascconv.occurs_at in H.
  apply (f_equal String.length) in H.
  assert (Hlen : forall n m t, String.length (substring n m t) <= String.length t).
  { intros n m t. revert n m. induction t as [|c t IH]; intros n m.
    - destruct n, m; cbn; lia.
    - destruct n; [destruct m|]; cbn [substring String.length].
      + lia.
      + specialize (IH 0 m). lia.
      + specialize (IH n m). lia. }
  specialize (Hlen p (String.length Ascconv.SEP) s).
  rewrite H in Hlen. cbn in Hlen. lia.
Qed.

(** The line [a.b = 1] stores the number 1 under a, b. *)
Lemma parse_line_witness :
  Ascconv.parse_line Cases.eval_one [] ("a.b" ++ Ascconv.SEP ++ "1")
  = inr [(Ascconv.KStr nat "a", Ascconv.VDict [(Ascconv.KStr nat "b", Ascconv.VObj 1)])]
  /\ Ascconv.lookup_path ["a"; "b"]
       [(Ascconv.KStr nat "a", Ascconv.VDict [(Ascconv.KStr nat "b", Ascconv.VObj 1)])]
     = Some (Ascconv.VObj 1).
Proof.
  split; [reflexivity|].
  refine (proj1 (parse_line_stores_the_value_at_the_dotted_path nat Cases.eval_one
                   "a.b" "1" [] _ _ _ eq_refl)).
  - intros p Hp H. unfold Ascconv.occurs_at in H.
    do 3 (destruct p as [|p]; [vm_compute in H; discriminate|]).
    cbn in Hp. lia.
  - intros p. apply no_separator_in_a_short_text. cbn. lia.
Defined.

(** A blank line in the header: no dictionary at all. *)
Lemma parse_ascconv_blank_line_witness :
  In "" (Ascconv.splitlines ("a" ++ Ascconv.SEP ++ "1"
                               ++ String Ascconv.LF (String Ascconv.LF "")))
  /\ exists e, Ascconv.parse_ascconv Cases.eval_one Cases.payload_blank_line = inl e.
Proof.
  split; [right; left; reflexivity|].
  refine (parse_ascconv_gives_up_on_a_line_without_separator nat Cases.eval_one
            Cases.payload_blank_line
            ("a" ++ Ascconv.SEP ++ "1" ++ String Ascconv.LF (String Ascconv.LF ""))
            "" eq_refl _ _).
  - right. left. reflexivity.
  - intros p. apply no_separator_in_a_short_text. cbn. lia.
Defined.

(** A processing rule next to a route rule for the configured target X:
    the processing rule stages nothing. *)
Lemma series_level_steps_witness :
  let cfg := Scenario.installation Scenario.mixed_rules in
  configured cfg ["C"; "E"]
  /\ processes cfg "C" = true
  /\ push_series_serieslevel cfg Scenario.collaborators ["C"; "E"] ["S#a"; "S#b"] "S"
       Scenario.tags Scenario.spool
     = (Raise UnboundLocalError,
        mkWorld (files Scenario.spool)
                (dirs Scenario.spool ++ [ ["data"; "outgoing"; "uuid-0"] ])%list
                [send_webhook "http://hook" "received"] 1).
Proof.
  cbv zeta.
  assert (Hc : configured (Scenario.installation Scenario.mixed_rules) ["C"; "E"]).
  { intros n [<-|[<-|[]]]; discriminate. }
  split; [exact Hc|]. split; [reflexivity|].
  exact (a_configured_route_target_stops_the_series_level_steps
           (Scenario.installation Scenario.mixed_rules) Scenario.collaborators
           ["C"; "E"] ["S#a"; "S#b"] "S" Scenario.tags Scenario.spool
           Hc eq_refl eq_refl).
Defined.
